(** * ioTube witness service: startup wiring and the governance instruction

    A shallow embedding of two Go sources of the witness service,

    - [witness-service/util/instruction/execute_transaction.go]
      (module [Instruction]), and
    - [witness-service/cmd/witness/main.go] (module [Witness]),

    together with the properties their specification states about them.

    Conventions.  Go integers are values of [Z] with the conversions
    ([uint8], [uint16], [uint64]) written out as reductions modulo the
    width; [int] is taken to be 64 bits wide.  A byte is a [Z] in
    [0..255].  Go maps are [gmap]s.  A [nil] pointer or interface is
    [None].  Library calls whose bodies are outside the repository
    (address parsers, chain clients, cashier and service constructors) are
    [Variable]s of the enclosing [Section]; library calls whose behaviour on
    the inputs at hand is fixed by their documentation ([encoding/hex],
    [strconv], [regexp], [bincode], [crypto.HexToECDSA]) are written out. *)

From Stdlib Require Import ZArith Lia List Bool Ascii String DecimalString.
From stdpp Require Import base option list gmap strings.

Import ListNotations.
Local Open Scope Z_scope.

(** ** Bytes and little-endian integers *)

Definition byte := Z.

(** [binary.LittleEndian.PutUintN]: the [n] low-order bytes of [v], least
    significant first.  On a negative [v] the bits are those of the two's
    complement representation, which is what the Go conversion
    [uintN(v.Int())] yields. *)
Definition le_bytes (n : nat) (v : Z) : list byte :=
  List.map (fun i => Z.land (Z.shiftr v (8 * Z.of_nat i)) 255) (seq 0 n).

(** Decimal rendering of a non-negative number, as [fmt] prints it. *)
Definition decimal (v : Z) : string :=
  DecimalString.NilZero.string_of_uint (N.to_uint (Z.to_N v)).

(** ** [bincode.SerializeData] *)

Module bincode.

(** The fixed-width integer kinds of [reflect.Kind]. *)
Inductive IntKind : Set :=
| Int8 | Int16 | Int32 | Int64
| Uint8 | Uint16 | Uint32 | Uint64.

Definition width (k : IntKind) : nat :=
  match k with
  | Int8 | Uint8 => 1
  | Int16 | Uint16 => 2
  | Int32 | Uint32 => 4
  | Int64 | Uint64 => 8
  end%nat.

(** The Go values the serializer is applied to, by [reflect.Kind]. *)
#[warnings="-register-all"]
Inductive Value : Type :=
| VBool (b : bool)
| VInt (k : IntKind) (v : Z)
| VStruct (fields : list Value)
| VOther (kind : string).     (* a kind the serializer has no case for *)

Inductive result (A : Type) : Type :=
| Ok (a : A)
| Err (msg : string).
Arguments Ok {A} a.
Arguments Err {A} msg.

(** The integer kinds the switch of [serializeData] has a case for: all
    the fixed-width ones but [reflect.Int8]. *)
Definition hasCase (k : IntKind) : bool :=
  match k with
  | Uint8 | Int16 | Uint16 | Int32 | Uint32 | Int64 | Uint64 => true
  | Int8 => false
  end.

(** [reflect.Kind.String] *)
Definition kindName (k : IntKind) : string :=
  match k with
  | Int8 => "int8" | Int16 => "int16" | Int32 => "int32" | Int64 => "int64"
  | Uint8 => "uint8" | Uint16 => "uint16" | Uint32 => "uint32" | Uint64 => "uint64"
  end.

(** [serializeData]: a switch on the kind, with the error for every kind
    that has no case; a struct is the concatenation of its fields in
    declaration order, the first failing field aborts. *)
Fixpoint serializeData (v : Value) : result (list byte) :=
  match v with
  | VBool b => Ok [if b then 1 else 0]
  | VInt k z =>
      match k with
      | Uint8 | Int16 | Uint16 | Int32 | Uint32 | Int64 | Uint64 =>
          Ok (le_bytes (width k) z)
      | Int8 => Err ("unsupport type: " +:+ kindName k)
      end
  | VStruct fields =>
      (fix go (fs : list Value) (data : list byte) : result (list byte) :=
         match fs with
         | [] => Ok data
         | f :: fs' =>
             match serializeData f with
             | Ok d => go fs' (data ++ d)
             | Err e => Err e
             end
         end) fields []
  | VOther kind => Err ("unsupport type: " +:+ kind)
  end.

Definition SerializeData (data : Value) : result (list byte) :=
  serializeData data.

End bincode.

(** ** [package instruction] *)

Module Instruction.

Import bincode.

(** What a Go call does: it returns or it panics. *)
Inductive exec (A : Type) : Type :=
| Returns (a : A)
| Panics (why : string).
Arguments Returns {A} a.
Arguments Panics {A} why.

Section ExecuteTransaction.

(** [solcommon.PublicKey], a 32-byte array; nothing here looks inside. *)
Variable PublicKey : Type.

(** The underlying kind of [GovernanceInstructionType].  The type is
    declared in another file of the package; the conversion
    [GovernanceInstructionType(16)] and its use as an instruction tag fix
    it to an integer type, the width is left open.  The serializer has no
    case for [int8]: with that kind every call panics. *)
Variable GovernanceInstructionType : IntKind.

(** [soltypes.AccountMeta] *)
Record AccountMeta : Type := {
  PubKey : PublicKey;
  IsSigner : bool;
  IsWritable : bool
}.

(** [soltypes.Instruction] *)
Record Instruction : Type := {
  ProgramID : PublicKey;
  Accounts : list AccountMeta;
  Data : list byte
}.

Record ExecuteTransactionParam : Type := {
  Governance : PublicKey;
  Proposal : PublicKey;
  VoteRecord : PublicKey;
  RecordTranaction : PublicKey;
  TransactionAccounts : list AccountMeta
}.

(** [fmt.Sprintf("%v", data)] of a byte slice: [[16 0 0 0]]. *)
Definition fmt_bytes (data : list byte) : string :=
  "[" +:+ String.concat " " (List.map decimal data) +:+ "]".

(** The value handed to [bincode.SerializeData]: an anonymous struct
    with the single field [Instruction]. *)
Definition instruction_record : Value :=
  VStruct [VInt GovernanceInstructionType 16].

(** [ExecuteTransaction].  The first component is what the call writes
    to standard output.  [param] is a pointer: dereferencing [nil] at the
    first field access panics, after the data has been printed. *)
Definition ExecuteTransaction (programID : PublicKey)
    (param : option ExecuteTransactionParam)
  : list string * exec Instruction :=
  match SerializeData instruction_record with
  | Err e => ([], Panics e)
  | Ok data =>
      let out := ["ExecuteTransaction data: " +:+ fmt_bytes data +:+ "
"] in
      match param with
      | None => (out, Panics "invalid memory address or nil pointer dereference")
      | Some p =>
          let accounts := [
            {| PubKey := Governance p; IsSigner := false; IsWritable := false |};
            {| PubKey := Proposal p; IsSigner := false; IsWritable := false |};
            {| PubKey := VoteRecord p; IsSigner := false; IsWritable := false |};
            {| PubKey := RecordTranaction p; IsSigner := false; IsWritable := true |}
          ] in
          let accounts := accounts ++ TransactionAccounts p in
          (out, Returns {| ProgramID := programID;
                           Accounts := accounts;
                           Data := data |})
      end
  end.

(** The four fixed accounts of the instruction, in order. *)
Definition fixedAccounts (param : ExecuteTransactionParam)
  : list AccountMeta :=
  [ {| PubKey := Governance param; IsSigner := false; IsWritable := false |};
    {| PubKey := Proposal param; IsSigner := false; IsWritable := false |};
    {| PubKey := VoteRecord param; IsSigner := false; IsWritable := false |};
    {| PubKey := RecordTranaction param; IsSigner := false; IsWritable := true |} ].

End ExecuteTransaction.

Arguments PubKey {PublicKey} _.
Arguments IsSigner {PublicKey} _.
Arguments IsWritable {PublicKey} _.
Arguments ProgramID {PublicKey} _.
Arguments Accounts {PublicKey} _.
Arguments Data {PublicKey} _.
Arguments Governance {PublicKey} _.
Arguments Proposal {PublicKey} _.
Arguments VoteRecord {PublicKey} _.
Arguments RecordTranaction {PublicKey} _.
Arguments TransactionAccounts {PublicKey} _.
Arguments ExecuteTransaction {PublicKey} _ _ _.
Arguments fixedAccounts {PublicKey} _.

End Instruction.


(** ** Go library functions used by [main] *)

Module strconv.

Definition digit (c : ascii) : option Z :=
  let n := Z.of_N (N_of_ascii c) in
  if (48 <=? n) && (n <=? 57) then Some (n - 48) else None.

(** The value of a string of decimal digits read from the left with
    accumulator [acc]; [None] when a character is not a digit. *)
Fixpoint digits (s : string) (acc : Z) : option Z :=
  match s with
  | EmptyString => Some acc
  | String c s' =>
      match digit c with
      | Some d => digits s' (10 * acc + d)
      | None => None
      end
  end.

Definition maxUint64 : Z := 2 ^ 64 - 1.

(** [strconv.ParseUint(s, 10, 64)]: the empty string, a sign, an
    underscore or any other non-digit is a syntax error, a value above
    [maxUint64] a range error; [None] is a non-nil error. *)
Definition ParseUint (s : string) : option Z :=
  match s with
  | EmptyString => None
  | _ =>
      match digits s 0 with
      | Some n => if n <=? maxUint64 then Some n else None
      | None => None
      end
  end.

(** [strconv.Atoi(s)] for a 64-bit [int]: an optional sign, then at least
    one digit; out of range is an error. *)
Definition Atoi (s : string) : option Z :=
  let parse (neg : bool) (body : string) :=
    match body with
    | EmptyString => None
    | _ =>
        match digits body 0 with
        | Some n =>
            let v := if neg then - n else n in
            if (- 2 ^ 63 <=? v) && (v <=? 2 ^ 63 - 1) then Some v else None
        | None => None
        end
    end in
  match s with
  | String "-" body => parse true body
  | String "+" body => parse false body
  | _ => parse false s
  end.

End strconv.

Module hex.

(** [fromHexChar] *)
Definition fromHexChar (c : ascii) : option Z :=
  let n := Z.of_N (N_of_ascii c) in
  if (48 <=? n) && (n <=? 57) then Some (n - 48)
  else if (97 <=? n) && (n <=? 102) then Some (n - 97 + 10)
  else if (65 <=? n) && (n <=? 70) then Some (n - 65 + 10)
  else None.

(** [hex.DecodeString]: two hexadecimal characters per byte; an invalid
    character or an odd length is an error ([None]). *)
Fixpoint DecodeString (s : string) : option (list byte) :=
  match s with
  | EmptyString => Some []
  | String a (String b rest) =>
      match fromHexChar a, fromHexChar b with
      | Some hi, Some lo =>
          match DecodeString rest with
          | Some bs => Some (16 * hi + lo :: bs)
          | None => None
          end
      | _, _ => None
      end
  | String _ EmptyString => None
  end.

End hex.

Module strings.

(** [strings.HasPrefix] *)
Definition HasPrefix (s p : string) : bool := String.prefix p s.

(** [strings.Split(s, ",")]: the pieces between commas, in order; a string
    without a comma, the empty string included, is its own single piece. *)
Fixpoint Split (s : string) : list string :=
  match s with
  | EmptyString => [EmptyString]
  | String c s' =>
      if Ascii.eqb c ","
      then EmptyString :: Split s'
      else match Split s' with
           | piece :: rest => String c piece :: rest
           | [] => [String c EmptyString]
           end
  end.

End strings.

Module regexp.

Definition all_digits (s : string) : bool :=
  forallb (fun c => match strconv.digit c with Some _ => true | None => false end)
          (list_ascii_of_string s).

(** Splits at the first ['-']. *)
Fixpoint cut_dash (s : string) : option (string * string) :=
  match s with
  | EmptyString => None
  | String c s' =>
      if Ascii.eqb c "-" then Some (EmptyString, s')
      else match cut_dash s' with
           | Some (l, r) => Some (String c l, r)
           | None => None
           end
  end.

(** [re.FindStringSubmatch(s)] for the pattern of [main], which anchors
    at both ends two groups of zero or more characters of [0-9] around a
    single dash: the two
    groups when the whole of [s] is digits, a dash, digits; [None] when
    [re.MatchString(s)] is false.  The first group cannot hold a dash, so
    the split is at the first one. *)
Definition FindRange (s : string) : option (string * string) :=
  match cut_dash s with
  | Some (l, r) => if all_digits l && all_digits r then Some (l, r) else None
  | None => None
  end.

End regexp.

Module crypto.

(** The order of the secp256k1 group. *)
Definition secp256k1N : Z :=
  0xFFFFFFFFFFFFFFFFFFFFFFFFFFFFFFFEBAAEDCE6AF48A03BBFD25E8CD0364141.

(** [big.Int.SetBytes]: big-endian. *)
Definition be_value (bs : list byte) : Z :=
  fold_left (fun acc b => 256 * acc + b) bs 0.

(** [crypto.HexToECDSA]: the key is hex-decoded, must be 32 bytes long and,
    as a big-endian number [D], satisfy [0 < D < secp256k1N].  The key is
    represented by [D]. *)
Definition HexToECDSA (hexkey : string) : option Z :=
  match hex.DecodeString hexkey with
  | None => None
  | Some b =>
      if negb (8 * Z.of_nat (List.length b) =? 256) then None
      else
        let D := be_value b in
        if secp256k1N <=? D then None
        else if D <=? 0 then None
        else Some D
  end.

End crypto.

Module ed25519.
Definition PrivateKeySize : Z := 64.
End ed25519.


(** ** [package main]: the witness command *)

Module Witness.

(** *** Configuration

    The anonymous structs nested in [Configuration] get a module each, so
    that fields keep their Go names. *)

Module TokenPairEntry.
Record t : Type := { Token1 : string; Token2 : string }.
End TokenPairEntry.

Module DecimalRoundEntry.
Record t : Type := { Token1 : string; Amount : Z }.
End DecimalRoundEntry.

Module ReverseEntry.
Record t : Type := {
  TransferTableName : string;
  CashierContractAddress : string;
  Tokens : list string
}.
End ReverseEntry.

Module CashierEntry.
Record t : Type := {
  ID : string;
  RelayerURL : string;
  CashierContractAddress : string;
  TokenSafeContractAddress : string;
  ValidatorContractAddress : string;
  TransferTableName : string;
  TokenPairs : list TokenPairEntry.t;
  DecimalRound : list DecimalRoundEntry.t;
  StartBlockHeight : Z;            (* int *)
  Reverse : ReverseEntry.t;
  QPSLimit : Z;                    (* uint32 *)
  DisablePull : bool
}.

(** [cfg.Cashiers[i].RelayerURL = url] *)
Definition setRelayerURL (url : string) (cc : t) : t :=
  {| ID := ID cc;
     RelayerURL := url;
     CashierContractAddress := CashierContractAddress cc;
     TokenSafeContractAddress := TokenSafeContractAddress cc;
     ValidatorContractAddress := ValidatorContractAddress cc;
     TransferTableName := TransferTableName cc;
     TokenPairs := TokenPairs cc;
     DecimalRound := DecimalRound cc;
     StartBlockHeight := StartBlockHeight cc;
     Reverse := Reverse cc;
     QPSLimit := QPSLimit cc;
     DisablePull := DisablePull cc |}.
End CashierEntry.

Module Configuration.
Section Configuration.
(** [db.Config]; only handed on to [db.NewStore]. *)
Variable DbConfig : Type.

Record t : Type := {
  Chain : string;
  ClientURL : string;
  RelayerURL : string;
  Database : DbConfig;
  PrivateKey : string;
  SlackWebHook : string;
  LarkWebHook : string;
  ConfirmBlockNumber : Z;          (* int *)
  BatchSize : Z;                   (* int *)
  Interval : Z;                    (* time.Duration *)
  GrpcPort : Z;                    (* int *)
  GrpcProxyPort : Z;               (* int *)
  DisableTransferSubmit : bool;
  Cashiers : list CashierEntry.t;
  DestinationChain : string
}.

Definition setPrivateKey (pk : string) (cfg : t) : t :=
  {| Chain := Chain cfg; ClientURL := ClientURL cfg; RelayerURL := RelayerURL cfg;
     Database := Database cfg; PrivateKey := pk;
     SlackWebHook := SlackWebHook cfg; LarkWebHook := LarkWebHook cfg;
     ConfirmBlockNumber := ConfirmBlockNumber cfg; BatchSize := BatchSize cfg;
     Interval := Interval cfg; GrpcPort := GrpcPort cfg;
     GrpcProxyPort := GrpcProxyPort cfg;
     DisableTransferSubmit := DisableTransferSubmit cfg;
     Cashiers := Cashiers cfg; DestinationChain := DestinationChain cfg |}.

Definition setGrpcPort (p : Z) (cfg : t) : t :=
  {| Chain := Chain cfg; ClientURL := ClientURL cfg; RelayerURL := RelayerURL cfg;
     Database := Database cfg; PrivateKey := PrivateKey cfg;
     SlackWebHook := SlackWebHook cfg; LarkWebHook := LarkWebHook cfg;
     ConfirmBlockNumber := ConfirmBlockNumber cfg; BatchSize := BatchSize cfg;
     Interval := Interval cfg; GrpcPort := p;
     GrpcProxyPort := GrpcProxyPort cfg;
     DisableTransferSubmit := DisableTransferSubmit cfg;
     Cashiers := Cashiers cfg; DestinationChain := DestinationChain cfg |}.

Definition setGrpcProxyPort (p : Z) (cfg : t) : t :=
  {| Chain := Chain cfg; ClientURL := ClientURL cfg; RelayerURL := RelayerURL cfg;
     Database := Database cfg; PrivateKey := PrivateKey cfg;
     SlackWebHook := SlackWebHook cfg; LarkWebHook := LarkWebHook cfg;
     ConfirmBlockNumber := ConfirmBlockNumber cfg; BatchSize := BatchSize cfg;
     Interval := Interval cfg; GrpcPort := GrpcPort cfg;
     GrpcProxyPort := p;
     DisableTransferSubmit := DisableTransferSubmit cfg;
     Cashiers := Cashiers cfg; DestinationChain := DestinationChain cfg |}.

Definition setRelayerURL (url : string) (cfg : t) : t :=
  {| Chain := Chain cfg; ClientURL := ClientURL cfg; RelayerURL := url;
     Database := Database cfg; PrivateKey := PrivateKey cfg;
     SlackWebHook := SlackWebHook cfg; LarkWebHook := LarkWebHook cfg;
     ConfirmBlockNumber := ConfirmBlockNumber cfg; BatchSize := BatchSize cfg;
     Interval := Interval cfg; GrpcPort := GrpcPort cfg;
     GrpcProxyPort := GrpcProxyPort cfg;
     DisableTransferSubmit := DisableTransferSubmit cfg;
     Cashiers := Cashiers cfg; DestinationChain := DestinationChain cfg |}.

Definition setCashiers (cs : list CashierEntry.t) (cfg : t) : t :=
  {| Chain := Chain cfg; ClientURL := ClientURL cfg; RelayerURL := RelayerURL cfg;
     Database := Database cfg; PrivateKey := PrivateKey cfg;
     SlackWebHook := SlackWebHook cfg; LarkWebHook := LarkWebHook cfg;
     ConfirmBlockNumber := ConfirmBlockNumber cfg; BatchSize := BatchSize cfg;
     Interval := Interval cfg; GrpcPort := GrpcPort cfg;
     GrpcProxyPort := GrpcProxyPort cfg;
     DisableTransferSubmit := DisableTransferSubmit cfg;
     Cashiers := cs; DestinationChain := DestinationChain cfg |}.

End Configuration.

Arguments Chain {DbConfig} _.
Arguments ClientURL {DbConfig} _.
Arguments RelayerURL {DbConfig} _.
Arguments Database {DbConfig} _.
Arguments PrivateKey {DbConfig} _.
Arguments SlackWebHook {DbConfig} _.
Arguments LarkWebHook {DbConfig} _.
Arguments ConfirmBlockNumber {DbConfig} _.
Arguments BatchSize {DbConfig} _.
Arguments Interval {DbConfig} _.
Arguments GrpcPort {DbConfig} _.
Arguments GrpcProxyPort {DbConfig} _.
Arguments DisableTransferSubmit {DbConfig} _.
Arguments Cashiers {DbConfig} _.
Arguments DestinationChain {DbConfig} _.
Arguments setPrivateKey {DbConfig} _ _.
Arguments setGrpcPort {DbConfig} _ _.
Arguments setGrpcProxyPort {DbConfig} _ _.
Arguments setRelayerURL {DbConfig} _ _.
Arguments setCashiers {DbConfig} _ _.
End Configuration.

(** *** Integer conversions *)

Definition uint8 (x : Z) : Z := x mod 2 ^ 8.
Definition uint16 (x : Z) : Z := x mod 2 ^ 16.
Definition uint64 (x : Z) : Z := x mod 2 ^ 64.

(** *** The address types and parsers of the chains

    The types and functions of the chain libraries that [main] calls; a
    failing call (non-nil [err]) is [None]. *)

Class Chains : Type := {
  DbConfig : Type;
  IoAddress : Type;                          (* address.Address *)
  EthAddress : Type;                         (* common.Address *)
  SolPublicKey : Type;                       (* solcommon.PublicKey *)
  UtilAddress : Type;                        (* util.Address *)
  #[global] EthAddress_eq_dec :: EqDecision EthAddress;
  #[global] EthAddress_countable :: Countable EthAddress;
  #[global] SolPublicKey_eq_dec :: EqDecision SolPublicKey;
  #[global] SolPublicKey_countable :: Countable SolPublicKey;
  address_FromString : string -> option IoAddress;
  IoAddress_Bytes : IoAddress -> list byte;
  BytesToAddress : list byte -> EthAddress;
  HexToAddress : string -> EthAddress;
  ETHAddressToAddress : EthAddress -> UtilAddress;
  UtilAddress_Bytes : UtilAddress -> list byte;
  PublicKeyFromString : string -> SolPublicKey;
  ETHAddressDecoder_DecodeString : string -> option UtilAddress;
  SOLAddressDecoder_DecodeString : string -> option UtilAddress
}.

(** [witness.SignHandler], by constructor call; [nil] is [None]. *)
Inductive SignHandler : Type :=
| NewSecp256k1SignHandler (privateKey : Z)
| NewEd25519SignHandler (privateKey : list byte).

(** [util.AddressDecoder], by constructor call. *)
Inductive AddressDecoder : Type :=
| NewETHAddressDecoder
| NewSOLAddressDecoder.

Definition DecodeString `{Chains} (d : AddressDecoder) (s : string)
  : option UtilAddress :=
  match d with
  | NewETHAddressDecoder => ETHAddressDecoder_DecodeString s
  | NewSOLAddressDecoder => SOLAddressDecoder_DecodeString s
  end.

(** *** Recorders, cashiers and the service

    The [witness] package builds these; here a value is the constructor
    call that made it, so that a cashier shows what it was constructed
    with. *)

Section Wiring.
Context `{Chains}.

Inductive Store : Type :=
| NewStore (cfg : DbConfig).

(** [*witness.Recorder] and the recorder of the Solana cashier. *)
Inductive Recorder : Type :=
| NewRecorder (store : Store) (transferTableName : string)
    (tokenPairs : gmap EthAddress UtilAddress)
    (decimalRound : gmap EthAddress Z)
    (addrDecoder : AddressDecoder).

Inductive SOLRecorder : Type :=
| NewSOLRecorder (store : Store) (transferTableName : string)
    (tokenPairs : gmap SolPublicKey UtilAddress)
    (decimalRound : gmap SolPublicKey Z)
    (addrDecoder : AddressDecoder).

(** The chain clients, by the call that opened them. *)
Inductive IotexClient : Type := NewReadOnlyClient (clientURL : string).
Inductive EthClient : Type := Dial (clientURL : string).
Inductive SolClient : Type := NewClient (clientURL : string).

(** [witness.TokenCashier], by constructor call, arguments in the order
    of the Go signatures. *)
Inductive TokenCashier : Type :=
| NewTokenCashier (id relayerURL : string) (client : IotexClient)
    (cashierContractAddr : IoAddress) (validatorContractAddr : list byte)
    (recorder : Recorder) (startBlockHeight : Z)
    (addrDecoder : AddressDecoder)
| NewTokenCashierOnEthereum (id relayerURL : string) (client : EthClient)
    (cashierContractAddr tokenSafeContractAddr validatorContractAddr : EthAddress)
    (recorder : Recorder) (startBlockHeight : Z) (confirmBlockNumber : Z)
    (reverseRecorder : option Recorder) (reverseCashierContractAddr : EthAddress)
| NewTokenCashierOnSolana (id relayerURL : string) (client : SolClient)
    (cashierContractAddr : SolPublicKey) (validatorContractAddr : EthAddress)
    (recorder : SOLRecorder) (startBlockHeight : Z) (qpsLimit : Z)
    (disablePull : bool).

(** The arguments of [witness.NewService]. *)
Record ServiceArgs : Type := {
  signHandler : option SignHandler;
  cashiers : list TokenCashier;
  batchSize : Z;                   (* uint16 *)
  processInterval : Z;
  disableSubmit : bool
}.

(** What the process does that can be seen from outside [main]. *)
Inductive Event : Type :=
| EvNewTokenCashier (c : TokenCashier)
| EvNewService (args : ServiceArgs)
| EvStart
| EvProcessOneBlock (height : Z) (failed : bool)
| EvStop
| EvStartServer (grpcPort grpcProxyPort : Z).

End Wiring.

(** The runtime behind the constructors: which calls fail, and the
    service with its state. *)
Class Runtime `{Chains} : Type := {
  Service : Type;
  NewDefaultGRPCConn_fails : string -> bool;
  ethclient_Dial_fails : string -> bool;
  NewTokenCashier_fails : TokenCashier -> bool;
  NewService : ServiceArgs -> option Service;
  Service_Start : Service -> option Service;
  ProcessOneBlock : Service -> Z -> Service * bool   (* [true]: non-nil error *)
}.

(** *** How [main] ends *)

Inductive FatalReason : Type :=
| InvalidGrpcPort (s : string)
| InvalidGrpcProxyPort (s : string)
| FailedToDecodePrivateKey
| InvalidPrivateKeyLength (n : Z)
| FailedToCreateGrpcConnection
| FailedToParseCashierContractAddress (s : string)
| FailedToParseIotexAddress (s : string)
| DuplicateTokenKey (s : string)
| FailedToDecodeDestinationAddress (s : string)
| FailedToParseTokenAddress (s : string)
| FailedToDecodeValidatorContractAddress (s : string)
| FailedToParseValidatorContractAddress
| FailedToDialClient
| FailedToCreateCashier
| UnknownChainName (s : string)
| FailedToCreateWitnessService
| FailedToStartWitnessService
| InvalidStart (s : string)
| InvalidEnd (s : string)
| InvalidHeight (s : string)
| FailedToProcessBlock (height : Z).

Inductive Exit : Type :=
| Done                          (* [main] returns *)
| Fatal (r : FatalReason)       (* [log.Fatal], [log.Fatalf], [log.Fatalln] *)
| Serving                       (* blocked in the final [select] *)
| OutOfFuel.                    (* the replay loop was cut off *)

(** A step of [main] before it has ended: a value, or the fatal error
    that ends the process. *)
Inductive orFatal (A : Type) : Type :=
| Pass (a : A)
| Fatalf (r : FatalReason).
Arguments Pass {A} a.
Arguments Fatalf {A} r.

#[global] Instance orFatal_ret : MRet orFatal := fun A a => Pass a.
#[global] Instance orFatal_bind : MBind orFatal := fun A B f m =>
  match m with
  | Pass a => f a
  | Fatalf r => Fatalf r
  end.

(** [v, err := call; if err != nil { log.Fatalf(r) }] *)
Definition orElse {A : Type} (o : option A) (r : FatalReason) : orFatal A :=
  match o with
  | Some a => Pass a
  | None => Fatalf r
  end.

(** A stretch of [main] with its events: it goes on with a value or the
    process has ended. *)
Inductive flow (A : Type) : Type :=
| Goes (a : A)
| Ends (e : Exit).
Arguments Goes {A} a.
Arguments Ends {A} e.

Section Main.
Context `{Runtime}.

Definition Proc (A : Type) : Type := (list Event * flow A)%type.

Definition ret {A : Type} (a : A) : Proc A := ([], Goes a).
Definition emit (e : Event) : Proc unit := ([e], Goes tt).
Definition halt {A : Type} (e : Exit) : Proc A := ([], Ends e).

Definition andThen {A B : Type} (m : Proc A) (k : A -> Proc B) : Proc B :=
  match m with
  | (evs, Goes a) => let '(evs', r) := k a in (evs ++ evs', r)
  | (evs, Ends e) => (evs, Ends e)
  end.

Definition lift {A : Type} (m : orFatal A) : Proc A :=
  match m with
  | Pass a => ret a
  | Fatalf r => halt (Fatal r)
  end.

Local Notation "x <~ m ;; k" := (andThen m (fun x => k))
  (at level 100, m at next level, right associativity).
Local Notation "m ;;; k" := (andThen m (fun _ => k))
  (at level 100, right associativity).

Abbreviation Config := (Configuration.t DbConfig).

(** Lines 125-144: the overrides from the environment, in order. *)
Definition envOverrides (env : string -> option string) (cfg : Config)
  : orFatal Config :=
  let cfg := match env "WITNESS_PRIVATE_KEY" with
             | Some pk => Configuration.setPrivateKey pk cfg
             | None => cfg
             end in
  cfg ← match env "WITNESS_GRPC_PORT" with
        | Some port =>
            p ← orElse (strconv.Atoi port) (InvalidGrpcPort port);
            Pass (Configuration.setGrpcPort p cfg)
        | None => Pass cfg
        end;
  cfg ← match env "WITNESS_GRPC_PROXY_PORT" with
        | Some port =>
            p ← orElse (strconv.Atoi port) (InvalidGrpcProxyPort port);
            Pass (Configuration.setGrpcProxyPort p cfg)
        | None => Pass cfg
        end;
  Pass match env "RELAYER_URL" with
       | Some relayerURL => Configuration.setRelayerURL relayerURL cfg
       | None => cfg
       end.

(** Lines 154-189: the sign handler and the destination address decoder,
    by a switch on [cfg.DestinationChain]. *)
Definition selectSignHandler (cfg : Config)
  : orFatal (option SignHandler * AddressDecoder) :=
  if String.eqb (Configuration.DestinationChain cfg) "solana" then
    let destAddrDecoder := NewSOLAddressDecoder in
    if negb (String.eqb (Configuration.PrivateKey cfg) "") then
      privateKeyBytes ← orElse (hex.DecodeString (Configuration.PrivateKey cfg))
                               FailedToDecodePrivateKey;
      if negb (Z.of_nat (List.length privateKeyBytes) =? ed25519.PrivateKeySize)
      then Fatalf (InvalidPrivateKeyLength (Z.of_nat (List.length privateKeyBytes)))
      else Pass (Some (NewEd25519SignHandler privateKeyBytes), destAddrDecoder)
    else Pass (None, destAddrDecoder)
  else
    let destAddrDecoder := NewETHAddressDecoder in
    if negb (String.eqb (Configuration.PrivateKey cfg) "") then
      privateKey ← orElse (crypto.HexToECDSA (Configuration.PrivateKey cfg))
                          FailedToDecodePrivateKey;
      Pass (Some (NewSecp256k1SignHandler privateKey), destAddrDecoder)
    else Pass (None, destAddrDecoder).

(** Lines 191-200: a cashier's relayer URL is completed from the global
    one. *)
Definition patchRelayerURL (relayerURL : string) (cc : CashierEntry.t)
  : CashierEntry.t :=
  if strings.HasPrefix (CashierEntry.RelayerURL cc) ":" then
    CashierEntry.setRelayerURL (relayerURL +:+ CashierEntry.RelayerURL cc) cc
  else if String.eqb (CashierEntry.RelayerURL cc) "" then
    CashierEntry.setRelayerURL relayerURL cc
  else cc.

Definition patchRelayerURLs (cfg : Config) : Config :=
  if negb (String.eqb (Configuration.RelayerURL cfg) "") then
    Configuration.setCashiers
      (List.map (patchRelayerURL (Configuration.RelayerURL cfg))
                (Configuration.Cashiers cfg)) cfg
  else cfg.

(** *** The cashier of one configuration entry, per source chain *)

(** Lines 216-230. *)
Fixpoint iotexPairs (destAddrDecoder : AddressDecoder)
    (tokenPairs : list TokenPairEntry.t) (pairs : gmap EthAddress UtilAddress)
  : orFatal (gmap EthAddress UtilAddress) :=
  match tokenPairs with
  | [] => Pass pairs
  | tp :: rest =>
      ioAddr ← orElse (address_FromString (TokenPairEntry.Token1 tp))
                      (FailedToParseIotexAddress (TokenPairEntry.Token1 tp));
      match pairs !! BytesToAddress (IoAddress_Bytes ioAddr) with
      | Some _ => Fatalf (DuplicateTokenKey (TokenPairEntry.Token1 tp))
      | None =>
          addr ← orElse (DecodeString destAddrDecoder (TokenPairEntry.Token2 tp))
                        (FailedToDecodeDestinationAddress (TokenPairEntry.Token2 tp));
          iotexPairs destAddrDecoder rest
            (<[BytesToAddress (IoAddress_Bytes ioAddr) := addr]> pairs)
      end
  end.

(** Lines 231-238. *)
Fixpoint iotexDecimalRound (entries : list DecimalRoundEntry.t)
    (decimalRound : gmap EthAddress Z) : orFatal (gmap EthAddress Z) :=
  match entries with
  | [] => Pass decimalRound
  | r :: rest =>
      addr ← orElse (address_FromString (DecimalRoundEntry.Token1 r))
                    (FailedToParseTokenAddress (DecimalRoundEntry.Token1 r));
      iotexDecimalRound rest
        (<[BytesToAddress (IoAddress_Bytes addr) := DecimalRoundEntry.Amount r]>
           decimalRound)
  end.

(** Lines 212-259: the arguments of [witness.NewTokenCashier]. *)
Definition iotexCashier (cfg : Config) (destAddrDecoder : AddressDecoder)
    (iotexClient : IotexClient) (cc : CashierEntry.t) : orFatal TokenCashier :=
  cashierContractAddr ←
    orElse (address_FromString (CashierEntry.CashierContractAddress cc))
           (FailedToParseCashierContractAddress (CashierEntry.CashierContractAddress cc));
  pairs ← iotexPairs destAddrDecoder (CashierEntry.TokenPairs cc) ∅;
  decimalRound ← iotexDecimalRound (CashierEntry.DecimalRound cc) ∅;
  validatorContractAddr ←
    orElse (DecodeString destAddrDecoder (CashierEntry.ValidatorContractAddress cc))
           (FailedToDecodeValidatorContractAddress (CashierEntry.ValidatorContractAddress cc));
  Pass (NewTokenCashier
          (CashierEntry.ID cc)
          (CashierEntry.RelayerURL cc)
          iotexClient
          cashierContractAddr
          (UtilAddress_Bytes validatorContractAddr)
          (NewRecorder
             (NewStore (Configuration.Database cfg))
             (CashierEntry.TransferTableName cc)
             pairs
             decimalRound
             destAddrDecoder)
          (uint64 (CashierEntry.StartBlockHeight cc))
          destAddrDecoder).

(** Lines 278-288. *)
Fixpoint ethereumPairs (tokenPairs : list TokenPairEntry.t)
    (pairs : gmap EthAddress UtilAddress) : orFatal (gmap EthAddress UtilAddress) :=
  match tokenPairs with
  | [] => Pass pairs
  | tp :: rest =>
      match pairs !! HexToAddress (TokenPairEntry.Token1 tp) with
      | Some _ => Fatalf (DuplicateTokenKey (TokenPairEntry.Token1 tp))
      | None =>
          ioAddr ← orElse (address_FromString (TokenPairEntry.Token2 tp))
                          (FailedToParseIotexAddress (TokenPairEntry.Token2 tp));
          ethereumPairs rest
            (<[HexToAddress (TokenPairEntry.Token1 tp) :=
                 ETHAddressToAddress (BytesToAddress (IoAddress_Bytes ioAddr))]> pairs)
      end
  end.

(** Lines 291-294: every reverse token is paired with itself. *)
Definition reversePairs (tokens : list string) : gmap EthAddress UtilAddress :=
  fold_left
    (fun pairs token =>
       <[HexToAddress token := ETHAddressToAddress (HexToAddress token)]> pairs)
    tokens ∅.

(** Lines 289-302. *)
Definition reverseRecorder (cfg : Config) (destAddrDecoder : AddressDecoder)
    (cc : CashierEntry.t) : option Recorder :=
  if negb (String.eqb (ReverseEntry.CashierContractAddress (CashierEntry.Reverse cc)) "")
     && negb (String.eqb (ReverseEntry.TransferTableName (CashierEntry.Reverse cc)) "")
  then
    Some (NewRecorder
            (NewStore (Configuration.Database cfg))
            (ReverseEntry.TransferTableName (CashierEntry.Reverse cc))
            (reversePairs (ReverseEntry.Tokens (CashierEntry.Reverse cc)))
            ∅
            destAddrDecoder)
  else None.

(** Lines 274-321: the arguments of [witness.NewTokenCashierOnEthereum]. *)
Definition ethereumCashier (cfg : Config) (destAddrDecoder : AddressDecoder)
    (ethClient : EthClient) (cc : CashierEntry.t) : orFatal TokenCashier :=
  addr ← orElse (address_FromString (CashierEntry.ValidatorContractAddress cc))
                FailedToParseValidatorContractAddress;
  pairs ← ethereumPairs (CashierEntry.TokenPairs cc) ∅;
  Pass (NewTokenCashierOnEthereum
          (CashierEntry.ID cc)
          (CashierEntry.RelayerURL cc)
          ethClient
          (HexToAddress (CashierEntry.CashierContractAddress cc))
          (HexToAddress (CashierEntry.TokenSafeContractAddress cc))
          (BytesToAddress (IoAddress_Bytes addr))
          (NewRecorder
             (NewStore (Configuration.Database cfg))
             (CashierEntry.TransferTableName cc)
             pairs
             ∅
             destAddrDecoder)
          (uint64 (CashierEntry.StartBlockHeight cc))
          (uint8 (Configuration.ConfirmBlockNumber cfg))
          (reverseRecorder cfg destAddrDecoder cc)
          (HexToAddress (ReverseEntry.CashierContractAddress (CashierEntry.Reverse cc)))).

(** Lines 334-345. *)
Fixpoint solanaPairs (destAddrDecoder : AddressDecoder)
    (tokenPairs : list TokenPairEntry.t) (pairs : gmap SolPublicKey UtilAddress)
  : orFatal (gmap SolPublicKey UtilAddress) :=
  match tokenPairs with
  | [] => Pass pairs
  | tp :: rest =>
      let token := PublicKeyFromString (TokenPairEntry.Token1 tp) in
      match pairs !! token with
      | Some _ => Fatalf (DuplicateTokenKey (TokenPairEntry.Token1 tp))
      | None =>
          token2 ← orElse (DecodeString destAddrDecoder (TokenPairEntry.Token2 tp))
                          (FailedToParseIotexAddress (TokenPairEntry.Token2 tp));
          solanaPairs destAddrDecoder rest (<[token := token2]> pairs)
      end
  end.

(** Lines 346-350. *)
Definition solanaDecimalRound (entries : list DecimalRoundEntry.t)
  : gmap SolPublicKey Z :=
  fold_left
    (fun decimalRound r =>
       <[PublicKeyFromString (DecimalRoundEntry.Token1 r) :=
           DecimalRoundEntry.Amount r]> decimalRound)
    entries ∅.

(** Lines 330-367: the arguments of [witness.NewTokenCashierOnSolana]. *)
Definition solanaCashier (cfg : Config) (destAddrDecoder : AddressDecoder)
    (solClient : SolClient) (cc : CashierEntry.t) : orFatal TokenCashier :=
  addr ← orElse (address_FromString (CashierEntry.ValidatorContractAddress cc))
                FailedToParseValidatorContractAddress;
  pairs ← solanaPairs destAddrDecoder (CashierEntry.TokenPairs cc) ∅;
  let decimalRound := solanaDecimalRound (CashierEntry.DecimalRound cc) in
  Pass (NewTokenCashierOnSolana
          (CashierEntry.ID cc)
          (CashierEntry.RelayerURL cc)
          solClient
          (PublicKeyFromString (CashierEntry.CashierContractAddress cc))
          (BytesToAddress (IoAddress_Bytes addr))
          (NewSOLRecorder
             (NewStore (Configuration.Database cfg))
             (CashierEntry.TransferTableName cc)
             pairs
             decimalRound
             destAddrDecoder)
          (uint64 (CashierEntry.StartBlockHeight cc))
          (CashierEntry.QPSLimit cc)
          (CashierEntry.DisablePull cc)).

(** The body shared by the three [for _, cc := range cfg.Cashiers] loops:
    the arguments are put together, the constructor is called, a non-nil
    error is fatal, otherwise the cashier is appended. *)
Fixpoint buildCashiers (build : CashierEntry.t -> orFatal TokenCashier)
    (entries : list CashierEntry.t) (cashiers : list TokenCashier)
  : Proc (list TokenCashier) :=
  match entries with
  | [] => ret cashiers
  | cc :: rest =>
      cashier <~ lift (build cc) ;;
      emit (EvNewTokenCashier cashier) ;;;
      if NewTokenCashier_fails cashier then halt (Fatal FailedToCreateCashier)
      else buildCashiers build rest (cashiers ++ [cashier])
  end.

Definition isEthereumFamily (chain : string) : bool :=
  String.eqb chain "heco" || String.eqb chain "bsc" || String.eqb chain "matic"
  || String.eqb chain "polis" || String.eqb chain "ethereum".

(** Lines 202-375: the switch on [cfg.Chain]. *)
Definition newCashiers (cfg : Config) (destAddrDecoder : AddressDecoder)
  : Proc (list TokenCashier) :=
  let chain := Configuration.Chain cfg in
  if String.eqb chain "iotex" then
    if NewDefaultGRPCConn_fails (Configuration.ClientURL cfg)
    then halt (Fatal FailedToCreateGrpcConnection)
    else
      let iotexClient := NewReadOnlyClient (Configuration.ClientURL cfg) in
      buildCashiers (iotexCashier cfg destAddrDecoder iotexClient)
                    (Configuration.Cashiers cfg) []
  else if isEthereumFamily chain then
    if ethclient_Dial_fails (Configuration.ClientURL cfg)
    then halt (Fatal FailedToDialClient)
    else
      let ethClient := Dial (Configuration.ClientURL cfg) in
      buildCashiers (ethereumCashier cfg destAddrDecoder ethClient)
                    (Configuration.Cashiers cfg) []
  else if String.eqb chain "solana" then
    let solClient := NewClient (Configuration.ClientURL cfg) in
    buildCashiers (solanaCashier cfg destAddrDecoder solClient)
                  (Configuration.Cashiers cfg) []
  else halt (Fatal (UnknownChainName chain)).

(** Lines 377-389. *)
Definition startService (cfg : Config) (signHandler : option SignHandler)
    (cashiers : list TokenCashier) : Proc Service :=
  let args := {| signHandler := signHandler;
                 cashiers := cashiers;
                 batchSize := uint16 (Configuration.BatchSize cfg);
                 processInterval := Configuration.Interval cfg;
                 disableSubmit := Configuration.DisableTransferSubmit cfg |} in
  emit (EvNewService args) ;;;
  match NewService args with
  | None => halt (Fatal FailedToCreateWitnessService)
  | Some service =>
      emit EvStart ;;;
      match Service_Start service with
      | None => halt (Fatal FailedToStartWitnessService)
      | Some service => ret service
      end
  end.

(** *** Bounded replay, lines 392-422 *)

(** Lines 396-413: the bounds [start] and [end] of one item. *)
Definition parseHeights (hstr : string) : orFatal (Z * Z) :=
  match regexp.FindRange hstr with
  | Some (m1, m2) =>
      start ← orElse (strconv.ParseUint m1) (InvalidStart hstr);
      end_ ← orElse (strconv.ParseUint m2) (InvalidEnd hstr);
      Pass (start, end_)
  | None =>
      start ← orElse (strconv.ParseUint hstr) (InvalidHeight hstr);
      Pass (start, start)
  end.

(** Lines 414-418: [for height := start; height <= end; height++].  One
    unit of [fuel] pays for one test of the loop condition; [height] is a
    [uint64] and the increment wraps. *)
Fixpoint processBlocks (fuel : nat) (service : Service) (height end_ : Z)
  : Proc Service :=
  match fuel with
  | O => halt OutOfFuel
  | S fuel' =>
      if height <=? end_ then
        let '(service', failed) := ProcessOneBlock service height in
        emit (EvProcessOneBlock height failed) ;;;
        if failed then halt (Fatal (FailedToProcessBlock height))
        else processBlocks fuel' service' (uint64 (height + 1)) end_
      else ret service
  end.

(** Lines 394-419: the items of the [-blocks] argument, left to right. *)
Fixpoint replay (fuel : nat) (service : Service) (items : list string)
  : Proc Service :=
  match items with
  | [] => ret service
  | hstr :: rest =>
      bounds <~ lift (parseHeights hstr) ;;
      service' <~ processBlocks fuel service (fst bounds) (snd bounds) ;;
      replay fuel service' rest
  end.

Definition continuously : string := "continuously".

(** *** [main], from line 125 on

    [cfg] is the configuration as populated from the YAML files, [env] the
    environment, [blocksFlag] the [-blocks] argument.  Log lines, the log
    prefix and the webhook URLs are not part of the model. *)
Definition runBlocks (cfg : Config) (service : Service) (blocksFlag : string)
    (fuel : nat) : Proc Exit :=
  if negb (String.eqb blocksFlag continuously) then
    replay fuel service (strings.Split blocksFlag) ;;;
    emit EvStop ;;;                            (* the deferred [service.Stop] *)
    ret Done
  else
    emit (EvStartServer (Configuration.GrpcPort cfg)
                        (Configuration.GrpcProxyPort cfg)) ;;;
    ret Serving.

Definition finish (run : Proc Exit) : list Event * Exit :=
  match run with
  | (evs, Goes e) => (evs, e)
  | (evs, Ends e) => (evs, e)
  end.

Definition main (env : string -> option string) (blocksFlag : string)
    (fuel : nat) (cfg : Config) : list Event * Exit :=
  finish (
    cfg <~ lift (envOverrides env cfg) ;;
    sel <~ lift (selectSignHandler cfg) ;;
    let signHandler := fst sel in
    let destAddrDecoder := snd sel in
    let cfg := patchRelayerURLs cfg in
    cashiers <~ newCashiers cfg destAddrDecoder ;;
    service <~ startService cfg signHandler cashiers ;;
    runBlocks cfg service blocksFlag fuel).

(** *** Readings of a run, used to state the properties *)

(** The cashier constructor calls of a run, in order. *)
Definition cashiersOf (evs : list Event) : list TokenCashier :=
  omap (fun e => match e with EvNewTokenCashier c => Some c | _ => None end) evs.

(** The [witness.NewService] calls of a run. *)
Definition servicesOf (evs : list Event) : list ServiceArgs :=
  omap (fun e => match e with EvNewService a => Some a | _ => None end) evs.

(** The heights [ProcessOneBlock] was invoked on, in order. *)
Definition heightsOf (evs : list Event) : list Z :=
  omap (fun e => match e with EvProcessOneBlock h _ => Some h | _ => None end) evs.

Definition isFailure (e : Event) : bool :=
  match e with
  | EvProcessOneBlock _ true => true
  | _ => false
  end.

(** The events of the last stretch of [main], after the service has been
    started. *)
Definition isBlocksEvent (e : Event) : bool :=
  match e with
  | EvProcessOneBlock _ _ | EvStop | EvStartServer _ _ => true
  | _ => false
  end.

(** A failed [ProcessOneBlock] is the last thing a run does, and the run
    ends fatally on it. *)
Definition errorsAreFinal {A : Type} (p : Proc A) : Prop :=
  Forall (fun e => isFailure e = false) (fst p)
  \/ exists pre h,
       fst p = pre ++ [EvProcessOneBlock h true]
       /\ Forall (fun e => isFailure e = false) pre
       /\ snd p = Ends (Fatal (FailedToProcessBlock h)).

Definition idOf (c : TokenCashier) : string :=
  match c with
  | NewTokenCashier id _ _ _ _ _ _ _ => id
  | NewTokenCashierOnEthereum id _ _ _ _ _ _ _ _ _ _ => id
  | NewTokenCashierOnSolana id _ _ _ _ _ _ _ _ => id
  end.

Definition startBlockHeightOf (c : TokenCashier) : Z :=
  match c with
  | NewTokenCashier _ _ _ _ _ _ start _ => start
  | NewTokenCashierOnEthereum _ _ _ _ _ _ _ start _ _ _ => start
  | NewTokenCashierOnSolana _ _ _ _ _ _ start _ _ => start
  end.

Definition confirmBlockNumberOf (c : TokenCashier) : option Z :=
  match c with
  | NewTokenCashierOnEthereum _ _ _ _ _ _ _ _ depth _ _ => Some depth
  | _ => None
  end.

Definition qpsLimitOf (c : TokenCashier) : option Z :=
  match c with
  | NewTokenCashierOnSolana _ _ _ _ _ _ _ qps _ => Some qps
  | _ => None
  end.

Definition disablePullOf (c : TokenCashier) : option bool :=
  match c with
  | NewTokenCashierOnSolana _ _ _ _ _ _ _ _ dp => Some dp
  | _ => None
  end.

(** The reverse recorder a cashier was constructed with; only the
    Ethereum constructor takes one. *)
Definition reverseRecorderOf (c : TokenCashier) : option Recorder :=
  match c with
  | NewTokenCashierOnEthereum _ _ _ _ _ _ _ _ _ rev _ => rev
  | _ => None
  end.

Definition recorderTable (r : Recorder) : string :=
  match r with
  | NewRecorder _ table _ _ _ => table
  end.

(** The table name of the forward recorder. *)
Definition tableOf (c : TokenCashier) : string :=
  match c with
  | NewTokenCashier _ _ _ _ _ (NewRecorder _ table _ _ _) _ _ => table
  | NewTokenCashierOnEthereum _ _ _ _ _ _ (NewRecorder _ table _ _ _) _ _ _ _ => table
  | NewTokenCashierOnSolana _ _ _ _ _ (NewSOLRecorder _ table _ _ _) _ _ _ => table
  end.

(** The decimal-rounding amounts in the forward recorder, by token. *)
Definition roundingOf (c : TokenCashier) : list Z :=
  match c with
  | NewTokenCashier _ _ _ _ _ (NewRecorder _ _ _ dr _) _ _ => (map_to_list dr).*2
  | NewTokenCashierOnEthereum _ _ _ _ _ _ (NewRecorder _ _ _ dr _) _ _ _ _ =>
      (map_to_list dr).*2
  | NewTokenCashierOnSolana _ _ _ _ _ (NewSOLRecorder _ _ _ dr _) _ _ _ =>
      (map_to_list dr).*2
  end.

(** The key in force after the environment has been consulted. *)
Definition effectiveKey (env : string -> option string) (cfg : Config) : string :=
  match env "WITNESS_PRIVATE_KEY" with
  | Some pk => pk
  | None => Configuration.PrivateKey cfg
  end.

(** The entry a cashier is built from, after line 200. *)
Definition patched (cfg : Config) (cc : CashierEntry.t) : CashierEntry.t :=
  if negb (String.eqb (Configuration.RelayerURL cfg) "")
  then patchRelayerURL (Configuration.RelayerURL cfg) cc
  else cc.

(** The constructor arguments for one entry, by [cfg.Chain]. *)
Definition cashierFor (cfg : Config) (destAddrDecoder : AddressDecoder)
    (cc : CashierEntry.t) : orFatal TokenCashier :=
  let chain := Configuration.Chain cfg in
  let url := Configuration.ClientURL cfg in
  if String.eqb chain "iotex" then
    iotexCashier cfg destAddrDecoder (NewReadOnlyClient url) cc
  else if isEthereumFamily chain then
    ethereumCashier cfg destAddrDecoder (Dial url) cc
  else if String.eqb chain "solana" then
    solanaCashier cfg destAddrDecoder (NewClient url) cc
  else Fatalf (UnknownChainName chain).

(** *** Further readings of a run *)

Definition relayerURLOf (c : TokenCashier) : string :=
  match c with
  | NewTokenCashier _ url _ _ _ _ _ _ => url
  | NewTokenCashierOnEthereum _ url _ _ _ _ _ _ _ _ _ => url
  | NewTokenCashierOnSolana _ url _ _ _ _ _ _ _ => url
  end.

(** The global relayer URL and the two ports in force after the
    environment has been consulted.  On a value that does not parse
    [strconv.Atoi] yields 0, and [main] ends. *)
Definition effectiveRelayerURL (env : string -> option string) (cfg : Config)
  : string :=
  match env "RELAYER_URL" with
  | Some relayerURL => relayerURL
  | None => Configuration.RelayerURL cfg
  end.

Definition effectiveGrpcPort (env : string -> option string) (cfg : Config) : Z :=
  match env "WITNESS_GRPC_PORT" with
  | Some port => default 0 (strconv.Atoi port)
  | None => Configuration.GrpcPort cfg
  end.

Definition effectiveGrpcProxyPort (env : string -> option string) (cfg : Config)
  : Z :=
  match env "WITNESS_GRPC_PROXY_PORT" with
  | Some port => default 0 (strconv.Atoi port)
  | None => Configuration.GrpcProxyPort cfg
  end.


(** The chain names the switch of lines 203-375 has a case for. *)
Definition isKnownChain (chain : string) : bool :=
  String.eqb chain "iotex" || isEthereumFamily chain || String.eqb chain "solana".

End Main.

End Witness.

(** ** [package contract]: the log iterator of the AddressList binding *)

Module AddressList.

(** A Go channel as its receiver sees it: the values that can be received
    without waiting, oldest first, and whether the channel has been
    closed. *)
Record chan (A : Type) : Type := {
  ready : list A;
  closed : bool
}.
Arguments ready {A} _.
Arguments closed {A} _.

(** A receive as a [select] case: the oldest value; on a closed channel
    with nothing left the zero value; [None] when the case is not ready. *)
Definition recv {A : Type} (zero : A) (c : chan A) : option (A * chan A) :=
  match ready c with
  | x :: rest => Some (x, {| ready := rest; closed := closed c |})
  | [] => if closed c then Some (zero, c) else None
  end.

Section Iterator.

Variable Address : Type.                 (* common.Address *)
Variable Log : Type.                     (* types.Log *)
Variable error : Type.                   (* a non-nil error *)
Variable zeroLog : Log.                  (* the zero value of types.Log *)

(** [contract.UnpackLog] on a fresh event: the two indexed fields as it
    leaves them, and its error. *)
Variable UnpackLog : string -> Log -> (Address * Address) * option error.

(** [contract.FilterLogs]: the log channel and the error channel of the
    subscription, or an error. *)
Variable FilterLogs :
  string -> list Address -> list Address ->
  (chan Log * chan (option error)) + error.

Record AddressListOwnershipTransferred : Type := {
  PreviousOwner : Address;
  NewOwner : Address;
  Raw : Log
}.

(** The iterator; the [contract] field is what [UnpackLog] stands for,
    [sub] is the channel [sub.Err()]. *)
Record AddressListOwnershipTransferredIterator : Type := {
  Event : option AddressListOwnershipTransferred;
  event : string;
  logs : chan Log;
  sub : chan (option error);
  done : bool;
  fail : option error
}.

(** The body shared by the two [case log := <-it.logs] branches: a fresh
    event is unpacked into; an error is kept in [fail], otherwise the log
    becomes the event's [Raw]. *)
Definition received (it : AddressListOwnershipTransferredIterator)
    (log : Log) (logs' : chan Log)
  : AddressListOwnershipTransferredIterator * bool :=
  let '(fields, err) := UnpackLog (event it) log in
  match err with
  | Some e =>
      ({| Event := Some {| PreviousOwner := fst fields;
                           NewOwner := snd fields;
                           Raw := zeroLog |};
          event := event it; logs := logs'; sub := sub it;
          done := done it; fail := Some e |}, false)
  | None =>
      ({| Event := Some {| PreviousOwner := fst fields;
                           NewOwner := snd fields;
                           Raw := log |};
          event := event it; logs := logs'; sub := sub it;
          done := done it; fail := fail it |}, true)
  end.

(** The [if it.done] block: a [select] with a [default]. *)
Definition nextCompleted (it : AddressListOwnershipTransferredIterator)
  : AddressListOwnershipTransferredIterator * bool :=
  match recv zeroLog (logs it) with
  | Some (log, logs') => received it log logs'
  | None => (it, false)
  end.

(** [Next].  [None]: the call waits in the final [select].  When both
    cases of that [select] are ready Go picks one at random; [preferLog]
    is the pick.  The call [it.Next()] of the error case runs with
    [it.done] set, and is unfolded here. *)
Definition Next (preferLog : bool) (it : AddressListOwnershipTransferredIterator)
  : option (AddressListOwnershipTransferredIterator * bool) :=
  match fail it with
  | Some _ => Some (it, false)
  | None =>
      if done it then Some (nextCompleted it)
      else
        let onLog (r : Log * chan Log) := received it (fst r) (snd r) in
        let onErr (r : option error * chan (option error)) :=
          let it' := {| Event := Event it; event := event it; logs := logs it;
                        sub := snd r; done := true; fail := fst r |} in
          match fst r with
          | Some _ => (it', false)
          | None => nextCompleted it'
          end in
        match recv zeroLog (logs it), recv None (sub it) with
        | Some l, Some e => Some (if preferLog then onLog l else onErr e)
        | Some l, None => Some (onLog l)
        | None, Some e => Some (onErr e)
        | None, None => None
        end
  end.

(** [Error] *)
Definition Error (it : AddressListOwnershipTransferredIterator) : option error :=
  fail it.

(** [FilterOwnershipTransferred]: the addresses become the two rule
    lists as they are. *)
Definition FilterOwnershipTransferred (previousOwner newOwner : list Address)
  : AddressListOwnershipTransferredIterator + error :=
  let previousOwnerRule := fold_left (fun rule item => rule ++ [item]) previousOwner [] in
  let newOwnerRule := fold_left (fun rule item => rule ++ [item]) newOwner [] in
  match FilterLogs "OwnershipTransferred" previousOwnerRule newOwnerRule with
  | inr err => inr err
  | inl (logs, sub) =>
      inl {| Event := None; event := "OwnershipTransferred"; logs := logs;
             sub := sub; done := false; fail := None |}
  end.

(** [ParseOwnershipTransferred] *)
Definition ParseOwnershipTransferred (log : Log)
  : AddressListOwnershipTransferred + error :=
  let '(fields, err) := UnpackLog "OwnershipTransferred" log in
  match err with
  | Some e => inr e
  | None => inl {| PreviousOwner := fst fields; NewOwner := snd fields; Raw := log |}
  end.

(** How a reader's loop [for it.Next() { ... it.Event ... }] ends. *)
Inductive LoopEnd : Type :=
| Stopped            (* [Next] returned false *)
| Waiting            (* [Next] waits for the subscription *)
| Running.           (* the picks have run out *)

(** The reader's loop: one call of [Next] per pick, the event of every
    call that returned true collected. *)
Fixpoint collect (picks : list bool) (it : AddressListOwnershipTransferredIterator)
  : list AddressListOwnershipTransferred
    * AddressListOwnershipTransferredIterator * LoopEnd :=
  match picks with
  | [] => ([], it, Running)
  | pick :: rest =>
      match Next pick it with
      | None => ([], it, Waiting)
      | Some (it', false) => ([], it', Stopped)
      | Some (it', true) =>
          let '(evs, it'', e) := collect rest it' in
          (match Event it' with Some ev => ev :: evs | None => evs end, it'', e)
      end
  end.

End Iterator.

Arguments PreviousOwner {Address Log} _.
Arguments NewOwner {Address Log} _.
Arguments Raw {Address Log} _.
Arguments Event {Address Log error} _.
Arguments event {Address Log error} _.
Arguments logs {Address Log error} _.
Arguments sub {Address Log error} _.
Arguments done {Address Log error} _.
Arguments fail {Address Log error} _.
Arguments Error {Address Log error} _.

End AddressList.

(** ** A concrete deployment to run the model on

    Addresses are their text; an iotex address parses when it starts with
    [io], a destination address decodes when it is not empty; the service
    state is the list of heights processed so far, and processing fails on
    the heights in [bad]. *)

Module Sample.
Import Witness.

Definition text_bytes (s : string) : list byte :=
  List.map (fun c => Z.of_N (N_of_ascii c)) (list_ascii_of_string s).

Definition nonEmpty (s : string) : option string :=
  if String.eqb s "" then None else Some s.

#[local] Instance chains : Chains := {|
  DbConfig := string;
  IoAddress := string;
  EthAddress := string;
  SolPublicKey := string;
  UtilAddress := string;
  address_FromString := fun s => if String.prefix "io" s then Some s else None;
  IoAddress_Bytes := text_bytes;
  BytesToAddress := fun bs => string_of_list_ascii
                                (List.map (fun b => ascii_of_N (Z.to_N b)) bs);
  HexToAddress := fun s => s;
  ETHAddressToAddress := fun a => a;
  UtilAddress_Bytes := text_bytes;
  PublicKeyFromString := fun s => s;
  ETHAddressDecoder_DecodeString := nonEmpty;
  SOLAddressDecoder_DecodeString := nonEmpty
|}.

Definition runtime (bad : list Z) : Runtime := {|
  Service := list Z;
  NewDefaultGRPCConn_fails := fun _ => false;
  ethclient_Dial_fails := fun _ => false;
  NewTokenCashier_fails := fun _ => false;
  NewService := fun _ => Some [];
  Service_Start := fun s => Some s;
  ProcessOneBlock := fun s h => (s ++ [h], existsb (Z.eqb h) bad)
|}.

Definition cashier2 : CashierEntry.t :=
  {| CashierEntry.ID := "c2";
     CashierEntry.RelayerURL := "";
     CashierEntry.CashierContractAddress := "io1cashier2";
     CashierEntry.TokenSafeContractAddress := "0xsafe2";
     CashierEntry.ValidatorContractAddress := "io1validator2";
     CashierEntry.TransferTableName := "transfers2";
     CashierEntry.TokenPairs := [];
     CashierEntry.DecimalRound := [];
     CashierEntry.StartBlockHeight := 7;
     CashierEntry.Reverse :=
       {| ReverseEntry.TransferTableName := "transfers2";
          ReverseEntry.CashierContractAddress := "0xreverse2";
          ReverseEntry.Tokens := ["0xt3"] |};
     CashierEntry.QPSLimit := 9;
     CashierEntry.DisablePull := false |}.

Definition cashier1 : CashierEntry.t :=
  {| CashierEntry.ID := "c1";
     CashierEntry.RelayerURL := ":9000";
     CashierEntry.CashierContractAddress := "io1cashier";
     CashierEntry.TokenSafeContractAddress := "0xsafe";
     CashierEntry.ValidatorContractAddress := "io1validator";
     CashierEntry.TransferTableName := "transfers";
     CashierEntry.TokenPairs :=
       [ {| TokenPairEntry.Token1 := "io1tokenA"; TokenPairEntry.Token2 := "io1tokenB" |} ];
     CashierEntry.DecimalRound :=
       [ {| DecimalRoundEntry.Token1 := "io1tokenA"; DecimalRoundEntry.Amount := 2 |} ];
     CashierEntry.StartBlockHeight := 100;
     CashierEntry.Reverse :=
       {| ReverseEntry.TransferTableName := "reverse_transfers";
          ReverseEntry.CashierContractAddress := "0xreverse";
          ReverseEntry.Tokens := ["0xt1"; "0xt2"] |};
     CashierEntry.QPSLimit := 5;
     CashierEntry.DisablePull := true |}.

(** An entry whose start height is below zero. *)
Definition cashier3 : CashierEntry.t :=
  {| CashierEntry.ID := "c3";
     CashierEntry.RelayerURL := "";
     CashierEntry.CashierContractAddress := "io1cashier3";
     CashierEntry.TokenSafeContractAddress := "0xsafe3";
     CashierEntry.ValidatorContractAddress := "io1validator3";
     CashierEntry.TransferTableName := "transfers3";
     CashierEntry.TokenPairs := [];
     CashierEntry.DecimalRound := [];
     CashierEntry.StartBlockHeight := -1;
     CashierEntry.Reverse :=
       {| ReverseEntry.TransferTableName := "transfers3";
          ReverseEntry.CashierContractAddress := "0xreverse3";
          ReverseEntry.Tokens := [] |};
     CashierEntry.QPSLimit := 1;
     CashierEntry.DisablePull := false |}.

Definition config (chain destinationChain privateKey : string)
    (confirmBlockNumber : Z) (disableTransferSubmit : bool)
    (cashiers : list CashierEntry.t) : Configuration.t string :=
  {| Configuration.Chain := chain;
     Configuration.ClientURL := "http://node";
     Configuration.RelayerURL := "relayer";
     Configuration.Database := "db";
     Configuration.PrivateKey := privateKey;
     Configuration.SlackWebHook := "";
     Configuration.LarkWebHook := "";
     Configuration.ConfirmBlockNumber := confirmBlockNumber;
     Configuration.BatchSize := 100;
     Configuration.Interval := 60000000000;
     Configuration.GrpcPort := 9080;
     Configuration.GrpcProxyPort := 9081;
     Configuration.DisableTransferSubmit := disableTransferSubmit;
     Configuration.Cashiers := cashiers;
     Configuration.DestinationChain := destinationChain |}.

Definition noEnv : string -> option string := fun _ => None.

(** A key of the ed25519 private-key length: 64 bytes, 128 hexadecimal
    characters. *)
Definition solanaKey : string :=
  "000102030405060708090a0b0c0d0e0f101112131415161718191a1b1c1d1e1f"
  +:+ "202122232425262728292A2B2C2D2E2F303132333435363738393A3B3C3D3E3F".

(** A contract whose logs are numbers: an even log unpacks to the owners
    [log] and [log + 1], an odd one does not unpack. *)
Definition unpack (_ : string) (log : nat) : (nat * nat) * option string :=
  if Nat.even log then ((log, S log), None) else ((0, 0)%nat, Some "bad log"%string).

(** An iterator on a subscription that has delivered the logs [ls] and
    then ended with [err]. *)
Definition iterator (ls : list nat) (err : option string)
  : AddressList.AddressListOwnershipTransferredIterator nat nat string :=
  {| AddressList.Event := None;
     AddressList.event := "OwnershipTransferred";
     AddressList.logs := {| AddressList.ready := ls; AddressList.closed := false |};
     AddressList.sub := {| AddressList.ready := [err]; AddressList.closed := true |};
     AddressList.done := false;
     AddressList.fail := None |}.

(** An iterator on a subscription that is still live, with the logs [ls]
    ready. *)
Definition liveIterator (ls : list nat)
  : AddressList.AddressListOwnershipTransferredIterator nat nat string :=
  {| AddressList.Event := None;
     AddressList.event := "OwnershipTransferred";
     AddressList.logs := {| AddressList.ready := ls; AddressList.closed := false |};
     AddressList.sub := {| AddressList.ready := []; AddressList.closed := false |};
     AddressList.done := false;
     AddressList.fail := None |}.

(** An environment that sets the gRPC port and nothing else. *)
Definition portEnv (port : string) : string -> option string :=
  fun name => if String.eqb name "WITNESS_GRPC_PORT" then Some port else None.

Definition pairAB : TokenPairEntry.t :=
  {| TokenPairEntry.Token1 := "io1tokenA"; TokenPairEntry.Token2 := "io1tokenB" |}.

Definition pairCD : TokenPairEntry.t :=
  {| TokenPairEntry.Token1 := "io1tokenC"; TokenPairEntry.Token2 := "io1tokenD" |}.

Definition roundA (amount : Z) : DecimalRoundEntry.t :=
  {| DecimalRoundEntry.Token1 := "io1tokenA"; DecimalRoundEntry.Amount := amount |}.

(** A parameter record for [ExecuteTransaction], public keys as numbers. *)
Definition param : Instruction.ExecuteTransactionParam nat :=
  {| Instruction.Governance := 1%nat;
     Instruction.Proposal := 2%nat;
     Instruction.VoteRecord := 3%nat;
     Instruction.RecordTranaction := 4%nat;
     Instruction.TransactionAccounts :=
       [ {| Instruction.PubKey := 9%nat;
            Instruction.IsSigner := true;
            Instruction.IsWritable := true |} ] |}.

End Sample.

(** * Properties *)

(** ** The governance instruction *)

Section InstructionFacts.
Import bincode Instruction.
Variable PublicKey : Type.
Variable kind : IntKind.

(** The constant tag serializes when the serializer has a case for its
    kind: 16 in the first byte, zeros above. *)
Lemma tag_serializes :
  hasCase kind = true ->
  SerializeData (instruction_record kind)
  = Ok (16 :: repeat 0 (width kind - 1)).
Proof. destruct kind; intros Hk; try discriminate; reflexivity. Qed.

(** And it fails for the one kind without a case. *)
Lemma tag_fails_without_case :
  hasCase kind = false ->
  SerializeData (instruction_record kind) = Err "unsupport type: int8".
Proof. destruct kind; intros Hk; try discriminate; reflexivity. Qed.

(** The whole result of a call on a parameter record: the line printed
    and the instruction returned, as a function of the two arguments. *)
Lemma ExecuteTransaction_value (programID : PublicKey)
    (param : ExecuteTransactionParam PublicKey) :
  hasCase kind = true ->
  ExecuteTransaction kind programID (Some param)
  = ([("ExecuteTransaction data: "
       +:+ fmt_bytes (16 :: repeat 0 (width kind - 1)) +:+ String "010" "")%string],
     Returns {| ProgramID := programID;
                Accounts := fixedAccounts param ++ TransactionAccounts param;
                Data := 16 :: repeat 0 (width kind - 1) |}).
Proof. destruct kind; intros Hk; try discriminate; reflexivity. Qed.

(** With a tag type the serializer has no case for, the panic that guards
    the serialization is taken on every call, before anything is printed. *)
Lemma ExecuteTransaction_panics_without_case (programID : PublicKey)
    (param : option (ExecuteTransactionParam PublicKey)) :
  hasCase kind = false ->
  ExecuteTransaction kind programID param = ([], Panics "unsupport type: int8").
Proof. destruct kind; intros Hk; try discriminate; reflexivity. Qed.

(** A call returns only on a parameter record and a kind with a case. *)
Lemma ExecuteTransaction_returns_only (programID : PublicKey)
    (param : option (ExecuteTransactionParam PublicKey))
    (ins : Instruction PublicKey) :
  snd (ExecuteTransaction kind programID param) = Returns ins ->
  hasCase kind = true /\ exists p, param = Some p.
Proof.
  destruct kind; destruct param as [p|]; cbn; try discriminate;
    intros _; split; try reflexivity; eauto.
Qed.

(** C1.  For every program id and every parameter, whatever the tag
    type: an instruction returned by [ExecuteTransaction] was returned on a
    parameter record, and it carries as data the bincode serialization of
    the record whose only field is the instruction tag 16 (the tag in its
    first byte, nothing after the tag's own bytes), and as accounts
    Governance, Proposal, VoteRecord, RecordTranaction in that order
    followed by the transaction accounts in their given order.  An
    instruction is returned on every parameter record when the serializer
    has a case for the tag type. *)
Theorem ExecuteTransaction_layout (programID : PublicKey)
    (param : option (ExecuteTransactionParam PublicKey)) :
  (forall ins,
     snd (ExecuteTransaction kind programID param) = Returns ins ->
     exists p,
       param = Some p
       /\ SerializeData (VStruct [VInt kind 16]) = Ok (Data ins)
       /\ Data ins = 16 :: repeat 0 (width kind - 1)
       /\ List.map PubKey (firstn 4 (Accounts ins))
          = [Governance p; Proposal p; VoteRecord p; RecordTranaction p]
       /\ Accounts ins = firstn 4 (Accounts ins) ++ TransactionAccounts p
       /\ ProgramID ins = programID)
  /\ (forall p, param = Some p -> hasCase kind = true ->
      exists ins, snd (ExecuteTransaction kind programID param) = Returns ins).
Proof.
  split.
  - intros ins Hret.
    destruct (ExecuteTransaction_returns_only _ _ _ Hret) as (Hk & p & ->).
    exists p. split; [reflexivity|].
    rewrite (ExecuteTransaction_value _ _ Hk) in Hret. cbn [snd] in Hret.
    injection Hret as <-. cbn [Data Accounts ProgramID].
    split; [now apply tag_serializes|]. repeat split.
  - intros p -> Hk. rewrite (ExecuteTransaction_value _ _ Hk). eauto.
Qed.

(** C9, amended.  On every program id and every parameter that is not a
    nil pointer, when the serializer has a case for the tag type:
    the serialization of the constant tag does not fail, so the panic that
    guards it is not taken, and the call returns; what it prints and what
    it returns are the stated functions of its two arguments, the same on
    every call; among the four fixed accounts only RecordTranaction is
    writable and none is a signer.  On a nil pointer the call prints the
    data line and panics. *)
Theorem ExecuteTransaction_total_deterministic
    (programID : PublicKey) (param : ExecuteTransactionParam PublicKey) :
  hasCase kind = true ->
  (forall e, SerializeData (instruction_record kind) <> Err e)
  /\ ExecuteTransaction kind programID (Some param)
     = ([("ExecuteTransaction data: "
          +:+ fmt_bytes (16 :: repeat 0 (width kind - 1)) +:+ String "010" "")%string],
        Returns {| ProgramID := programID;
                   Accounts := fixedAccounts param ++ TransactionAccounts param;
                   Data := 16 :: repeat 0 (width kind - 1) |})
  /\ List.map PubKey (fixedAccounts param)
     = [Governance param; Proposal param; VoteRecord param; RecordTranaction param]
  /\ List.map IsWritable (fixedAccounts param) = [false; false; false; true]
  /\ List.map IsSigner (fixedAccounts param) = [false; false; false; false]
  /\ ExecuteTransaction kind programID None
     = ([("ExecuteTransaction data: "
          +:+ fmt_bytes (16 :: repeat 0 (width kind - 1)) +:+ String "010" "")%string],
        Panics "invalid memory address or nil pointer dereference").
Proof.
  intros Hk.
  split; [intros e; rewrite (tag_serializes Hk); discriminate|].
  split; [now apply ExecuteTransaction_value|].
  repeat split. destruct kind; try discriminate; reflexivity.
Qed.

End InstructionFacts.

(** C9 as stated fails: a nil parameter is a value of the function's
    parameter type, and on it the call prints the data line and then panics
    on the first field it reads, where the claim has every call return. *)
Lemma ExecuteTransaction_panics_on_nil :
  @Instruction.ExecuteTransaction nat bincode.Uint8 7%nat None
  = ([("ExecuteTransaction data: [16]" +:+ String "010" "")%string],
     Instruction.Panics "invalid memory address or nil pointer dereference").
Proof. reflexivity. Qed.

Lemma ExecuteTransaction_layout_witness :
  exists ins,
    snd (Instruction.ExecuteTransaction bincode.Uint8 7%nat (Some Sample.param))
    = Instruction.Returns ins
    /\ Instruction.Data ins = [16]
    /\ List.length (Instruction.Accounts ins) = 5%nat.
Proof.
  destruct (ExecuteTransaction_layout nat bincode.Uint8 7%nat (Some Sample.param))
    as [Hlayout Hreturns].
  destruct (Hreturns Sample.param eq_refl eq_refl) as (ins & Hret).
  destruct (Hlayout ins Hret) as (p & Hp & _ & Hdata & _ & Haccounts & _).
  exists ins. split; [exact Hret|]. split; [exact Hdata|].
  rewrite Haccounts, length_app, length_firstn.
  injection Hp as <-.
  revert Hret. cbn. intros [= <-]. reflexivity.
Defined.

Lemma ExecuteTransaction_total_deterministic_witness :
  snd (Instruction.ExecuteTransaction bincode.Uint8 7%nat (Some Sample.param))
  = Instruction.Returns
      {| Instruction.ProgramID := 7%nat;
         Instruction.Accounts :=
           Instruction.fixedAccounts Sample.param
           ++ Instruction.TransactionAccounts Sample.param;
         Instruction.Data := [16] |}.
Proof.
  destruct (ExecuteTransaction_total_deterministic nat bincode.Uint8
              7%nat Sample.param eq_refl) as (_ & Hvalue & _).
  rewrite Hvalue. reflexivity.
Defined.

(** ** The witness command: how a run is put together *)

Section RunFacts.
Import Witness.
Context `{Runtime}.

Lemma andThen_fst {A B : Type} (m : Proc A) (k : A -> Proc B) :
  fst (andThen m k)
  = fst m ++ match snd m with Goes a => fst (k a) | Ends _ => [] end.
Proof.
  destruct m as [evs [a|e]]; cbn.
  - destruct (k a); reflexivity.
  - now rewrite app_nil_r.
Qed.

Lemma andThen_snd {A B : Type} (m : Proc A) (k : A -> Proc B) :
  snd (andThen m k)
  = match snd m with Goes a => snd (k a) | Ends e => Ends e end.
Proof.
  destruct m as [evs [a|e]]; cbn; [destruct (k a)|]; reflexivity.
Qed.

Lemma andThen_ret_events {A B : Type} (evs : list Event) (a : A)
    (k : A -> Proc B) :
  andThen (evs, Goes a) k = (evs ++ fst (k a), snd (k a)).
Proof. unfold andThen. now destruct (k a). Qed.

Lemma andThen_ret {A B : Type} (a : A) (k : A -> Proc B) :
  andThen (ret a) k = k a.
Proof. unfold andThen, ret. now destruct (k a). Qed.

Lemma andThen_halt {A B : Type} (e : Exit) (k : A -> Proc B) :
  andThen (halt e) k = halt e.
Proof. reflexivity. Qed.

Lemma finish_fst (run : Proc Exit) : fst (finish run) = fst run.
Proof. now destruct run as [evs [e|e]]. Qed.

Lemma finish_snd (run : Proc Exit) :
  snd (finish run) = match snd run with Goes e => e | Ends e => e end.
Proof. now destruct run as [evs [e|e]]. Qed.

(** The environment touches the key, the two ports and the relayer URL,
    nothing else. *)
Lemma envOverrides_fields env (cfg cfg1 : Configuration.t DbConfig) :
  envOverrides env cfg = Pass cfg1 ->
  Configuration.PrivateKey cfg1 = effectiveKey env cfg
  /\ Configuration.Chain cfg1 = Configuration.Chain cfg
  /\ Configuration.DestinationChain cfg1 = Configuration.DestinationChain cfg
  /\ Configuration.Cashiers cfg1 = Configuration.Cashiers cfg
  /\ Configuration.ConfirmBlockNumber cfg1 = Configuration.ConfirmBlockNumber cfg
  /\ Configuration.DisableTransferSubmit cfg1
     = Configuration.DisableTransferSubmit cfg
  /\ Configuration.Database cfg1 = Configuration.Database cfg.
Proof.
  unfold envOverrides, effectiveKey.
  destruct (env "WITNESS_PRIVATE_KEY");
    (destruct (env "WITNESS_GRPC_PORT") as [p|];
     [destruct (strconv.Atoi p); cbn; [|discriminate]|]);
    (destruct (env "WITNESS_GRPC_PROXY_PORT") as [q|];
     [destruct (strconv.Atoi q); cbn; [|discriminate]|]);
    destruct (env "RELAYER_URL"); cbn;
    intros [= <-]; cbn; repeat split.
Qed.

Lemma patchRelayerURLs_cashiers (cfg : Configuration.t DbConfig) :
  Configuration.Cashiers (patchRelayerURLs cfg)
  = List.map (patched cfg) (Configuration.Cashiers cfg).
Proof.
  unfold patchRelayerURLs, patched.
  destruct (negb _); cbn; [reflexivity|].
  now rewrite map_id.
Qed.

Lemma patchRelayerURLs_fields (cfg : Configuration.t DbConfig) :
  Configuration.Chain (patchRelayerURLs cfg) = Configuration.Chain cfg
  /\ Configuration.ConfirmBlockNumber (patchRelayerURLs cfg)
     = Configuration.ConfirmBlockNumber cfg
  /\ Configuration.DisableTransferSubmit (patchRelayerURLs cfg)
     = Configuration.DisableTransferSubmit cfg
  /\ Configuration.Database (patchRelayerURLs cfg) = Configuration.Database cfg
  /\ Configuration.ClientURL (patchRelayerURLs cfg) = Configuration.ClientURL cfg.
Proof. unfold patchRelayerURLs. destruct (negb _); cbn; repeat split. Qed.

(** Completing the relayer URL leaves the rest of an entry alone. *)
Lemma patched_fields (cfg : Configuration.t DbConfig) (cc : CashierEntry.t) :
  CashierEntry.Reverse (patched cfg cc) = CashierEntry.Reverse cc
  /\ CashierEntry.StartBlockHeight (patched cfg cc) = CashierEntry.StartBlockHeight cc
  /\ CashierEntry.QPSLimit (patched cfg cc) = CashierEntry.QPSLimit cc
  /\ CashierEntry.DisablePull (patched cfg cc) = CashierEntry.DisablePull cc
  /\ CashierEntry.DecimalRound (patched cfg cc) = CashierEntry.DecimalRound cc
  /\ CashierEntry.TransferTableName (patched cfg cc)
     = CashierEntry.TransferTableName cc
  /\ CashierEntry.ID (patched cfg cc) = CashierEntry.ID cc.
Proof.
  unfold patched, patchRelayerURL.
  destruct (negb _); [|repeat split].
  destruct (strings.HasPrefix _ _); [repeat split|].
  destruct (String.eqb _ _); repeat split.
Qed.

(** Every event of a cashier loop is a constructor call on the arguments
    built from one of the entries. *)
Lemma buildCashiers_events build entries acc :
  Forall (fun e => exists c cc, e = EvNewTokenCashier c /\ In cc entries
                                /\ build cc = Pass c)
         (fst (buildCashiers build entries acc)).
Proof.
  revert acc. induction entries as [|cc rest IH]; intros acc; cbn.
  - constructor.
  - destruct (build cc) as [c|r] eqn:Hb; cbn; [|constructor].
    destruct (NewTokenCashier_fails c); cbn.
    + repeat constructor. exists c, cc. auto.
    + destruct (buildCashiers build rest (acc ++ [c])) as [evs r] eqn:Hrest.
      cbn. constructor.
      * exists c, cc. auto.
      * specialize (IH (acc ++ [c])). rewrite Hrest in IH. cbn in IH.
        eapply Forall_impl; [exact IH|].
        intros e (c' & cc' & -> & Hin & Hb'). exists c', cc'. auto.
Qed.

Lemma newCashiers_events (cfg : Configuration.t DbConfig) dec :
  Forall (fun e => exists c cc, e = EvNewTokenCashier c
                                /\ In cc (Configuration.Cashiers cfg)
                                /\ cashierFor cfg dec cc = Pass c)
         (fst (newCashiers cfg dec)).
Proof.
  unfold newCashiers, cashierFor.
  destruct (String.eqb (Configuration.Chain cfg) "iotex").
  { destruct (NewDefaultGRPCConn_fails _); [constructor|].
    apply buildCashiers_events. }
  destruct (isEthereumFamily (Configuration.Chain cfg)).
  { destruct (ethclient_Dial_fails _); [constructor|].
    apply buildCashiers_events. }
  destruct (String.eqb (Configuration.Chain cfg) "solana").
  { apply buildCashiers_events. }
  constructor.
Qed.

Lemma startService_events (cfg : Configuration.t DbConfig) sh cs :
  Forall (fun e => e = EvStart
                   \/ e = EvNewService
                            {| signHandler := sh;
                               cashiers := cs;
                               batchSize := uint16 (Configuration.BatchSize cfg);
                               processInterval := Configuration.Interval cfg;
                               disableSubmit :=
                                 Configuration.DisableTransferSubmit cfg |})
         (fst (startService cfg sh cs)).
Proof.
  unfold startService. cbn.
  destruct (NewService _); cbn.
  - destruct (Service_Start _); cbn; repeat (constructor; auto).
  - repeat (constructor; auto).
Qed.

Lemma main_unfold env blocks fuel (cfg : Configuration.t DbConfig) :
  main env blocks fuel cfg
  = match envOverrides env cfg with
    | Fatalf r => ([], Fatal r)
    | Pass cfg1 =>
        match selectSignHandler cfg1 with
        | Fatalf r => ([], Fatal r)
        | Pass sel =>
            let cfg2 := patchRelayerURLs cfg1 in
            finish
              (andThen (newCashiers cfg2 (snd sel)) (fun cs =>
               andThen (startService cfg2 (fst sel) cs) (fun service =>
               runBlocks cfg2 service blocks fuel)))
        end
    end.
Proof.
  unfold main.
  destruct (envOverrides env cfg) as [cfg1|r]; [|reflexivity].
  cbn [lift]. rewrite andThen_ret.
  destruct (selectSignHandler cfg1) as [sel|r]; [|reflexivity].
  cbn [lift]. now rewrite andThen_ret.
Qed.

(** *** Errors of [ProcessOneBlock] end the run *)

Lemma errorsAreFinal_andThen {A B : Type} (m : Proc A) (k : A -> Proc B) :
  errorsAreFinal m -> (forall a, errorsAreFinal (k a)) ->
  errorsAreFinal (andThen m k).
Proof.
  intros Hm Hk. destruct m as [evs [a|e]].
  - destruct Hm as [Hclean | (pre & h & _ & _ & Hsnd)]; [|discriminate].
    cbn in Hclean. unfold andThen.
    destruct (k a) as [evs' r] eqn:Hka.
    specialize (Hk a). rewrite Hka in Hk.
    destruct Hk as [Hc | (pre & h & Hfst & Hpre & Hsnd)]; cbn in *.
    + left. cbn. apply Forall_app; auto.
    + right. exists (evs ++ pre), h. cbn. subst evs'.
      rewrite app_assoc. repeat split; auto. apply Forall_app; auto.
  - destruct Hm as [Hclean | (pre & h & Hfst & Hpre & Hsnd)]; cbn in *.
    + now left.
    + right. exists pre, h. cbn. injection Hsnd as ->. auto.
Qed.

Lemma errorsAreFinal_clean {A : Type} (evs : list Event) (r : flow A) :
  Forall (fun e => isFailure e = false) evs -> errorsAreFinal (evs, r).
Proof. intros Hc. now left. Qed.

Lemma processBlocks_errorsAreFinal fuel service height end_ :
  errorsAreFinal (processBlocks fuel service height end_).
Proof.
  revert service height.
  induction fuel as [|fuel IH]; intros service height; cbn -[andThen emit].
  - apply errorsAreFinal_clean. constructor.
  - destruct (height <=? end_); [|apply errorsAreFinal_clean; constructor].
    destruct (ProcessOneBlock service height) as [service' failed].
    destruct failed.
    + right. exists [], height. cbn. repeat split. constructor.
    + apply errorsAreFinal_andThen.
      * apply errorsAreFinal_clean. repeat constructor.
      * intros _. apply IH.
Qed.

Lemma replay_errorsAreFinal fuel service items :
  errorsAreFinal (replay fuel service items).
Proof.
  revert service.
  induction items as [|hstr rest IH]; intros service; cbn -[andThen lift].
  - apply errorsAreFinal_clean. constructor.
  - apply errorsAreFinal_andThen.
    + destruct (parseHeights hstr); apply errorsAreFinal_clean; constructor.
    + intros bounds. apply errorsAreFinal_andThen.
      * apply processBlocks_errorsAreFinal.
      * intros service'. apply IH.
Qed.

Lemma runBlocks_errorsAreFinal (cfg : Configuration.t DbConfig) service blocks fuel :
  errorsAreFinal (runBlocks cfg service blocks fuel).
Proof.
  unfold runBlocks. destruct (negb _).
  - apply errorsAreFinal_andThen; [apply replay_errorsAreFinal|].
    intros _. apply errorsAreFinal_clean. repeat constructor.
  - apply errorsAreFinal_clean. repeat constructor.
Qed.

Lemma startup_errorsAreFinal (cfg : Configuration.t DbConfig) sel blocks fuel :
  errorsAreFinal
    (andThen (newCashiers cfg (snd sel)) (fun cs =>
     andThen (startService cfg (fst sel) cs) (fun service =>
     runBlocks cfg service blocks fuel))).
Proof.
  apply errorsAreFinal_andThen.
  - left. eapply Forall_impl; [apply newCashiers_events|].
    now intros e (c & cc & -> & _).
  - intros cs. apply errorsAreFinal_andThen.
    + left. eapply Forall_impl; [apply startService_events|].
      now intros e [-> | ->].
    + intros service. apply runBlocks_errorsAreFinal.
Qed.

(** In a list that ends with its only failure, a failure sits at the end. *)
Lemma failure_is_last (pre pre' post : list Event) (x : Event) h :
  Forall (fun e => isFailure e = false) pre' ->
  pre' ++ [x] = pre ++ EvProcessOneBlock h true :: post ->
  post = [] /\ x = EvProcessOneBlock h true /\ pre = pre'.
Proof.
  revert pre. induction pre' as [|y pre' IH]; intros pre Hc Heq.
  - destruct pre as [|z pre]; cbn in Heq.
    + now injection Heq as -> <-.
    + injection Heq as _ Heq. now destruct pre.
  - inversion Hc as [|? ? Hy Hc']; subst.
    destruct pre as [|z pre]; cbn in Heq.
    + injection Heq as -> _. discriminate.
    + injection Heq as -> Heq. destruct (IH pre Hc' Heq) as (-> & -> & ->).
      auto.
Qed.

Lemma main_errorsAreFinal env blocks fuel (cfg : Configuration.t DbConfig) :
  Forall (fun e => isFailure e = false) (fst (main env blocks fuel cfg))
  \/ exists pre h,
       fst (main env blocks fuel cfg) = pre ++ [EvProcessOneBlock h true]
       /\ Forall (fun e => isFailure e = false) pre
       /\ snd (main env blocks fuel cfg) = Fatal (FailedToProcessBlock h).
Proof.
  rewrite main_unfold.
  destruct (envOverrides env cfg) as [cfg1|r]; [|left; constructor].
  destruct (selectSignHandler cfg1) as [sel|r]; [|left; constructor].
  cbv zeta. rewrite finish_fst, finish_snd.
  destruct (startup_errorsAreFinal (patchRelayerURLs cfg1) sel blocks fuel)
    as [Hclean | (pre & h & Hfst & Hpre & Hsnd)].
  - now left.
  - right. exists pre, h. rewrite Hsnd. auto.
Qed.

(** *** Where the events of a run come from *)

Lemma processBlocks_events fuel service height end_ :
  Forall (fun e => isBlocksEvent e = true)
         (fst (processBlocks fuel service height end_)).
Proof.
  revert service height.
  induction fuel as [|fuel IH]; intros service height; cbn -[andThen emit].
  - constructor.
  - destruct (height <=? end_); [|constructor].
    destruct (ProcessOneBlock service height) as [service' failed].
    rewrite andThen_fst. cbn. constructor; [reflexivity|].
    destruct failed; [constructor|apply IH].
Qed.

Lemma replay_events fuel service items :
  Forall (fun e => isBlocksEvent e = true) (fst (replay fuel service items)).
Proof.
  revert service.
  induction items as [|hstr rest IH]; intros service; cbn -[andThen lift].
  - constructor.
  - rewrite andThen_fst.
    destruct (parseHeights hstr) as [bounds|r]; cbn -[andThen]; [|constructor].
    rewrite andThen_fst. apply Forall_app. split.
    + apply processBlocks_events.
    + destruct (snd (processBlocks _ _ _ _)); [apply IH|constructor].
Qed.

Lemma runBlocks_events (cfg : Configuration.t DbConfig) service blocks fuel :
  Forall (fun e => isBlocksEvent e = true)
         (fst (runBlocks cfg service blocks fuel)).
Proof.
  unfold runBlocks. destruct (negb _).
  - rewrite andThen_fst. apply Forall_app. split; [apply replay_events|].
    destruct (snd (replay _ _ _)); cbn; repeat constructor.
  - cbn. repeat constructor.
Qed.

(** The events of a run that gets past the key: cashier constructor
    calls, then the service, then the blocks. *)
Lemma startup_events (cfg : Configuration.t DbConfig) sel blocks fuel :
  exists evs1 evs2 evs3,
    fst (andThen (newCashiers cfg (snd sel)) (fun cs =>
         andThen (startService cfg (fst sel) cs) (fun service =>
         runBlocks cfg service blocks fuel)))
    = evs1 ++ evs2 ++ evs3
    /\ Forall (fun e => exists c cc, e = EvNewTokenCashier c
                                     /\ In cc (Configuration.Cashiers cfg)
                                     /\ cashierFor cfg (snd sel) cc = Pass c) evs1
    /\ Forall (fun e => e = EvStart
                        \/ exists cs, e = EvNewService
                             {| signHandler := fst sel;
                                cashiers := cs;
                                batchSize := uint16 (Configuration.BatchSize cfg);
                                processInterval := Configuration.Interval cfg;
                                disableSubmit :=
                                  Configuration.DisableTransferSubmit cfg |}) evs2
    /\ Forall (fun e => isBlocksEvent e = true) evs3.
Proof.
  rewrite andThen_fst.
  exists (fst (newCashiers cfg (snd sel))).
  destruct (snd (newCashiers cfg (snd sel))) as [cs|e].
  - rewrite andThen_fst.
    exists (fst (startService cfg (fst sel) cs)).
    eexists. split; [reflexivity|].
    split; [apply newCashiers_events|].
    split.
    + eapply Forall_impl; [apply startService_events|].
      intros e [-> | ->]; [now left | right; now exists cs].
    + destruct (snd (startService _ _ _)); [apply runBlocks_events|constructor].
  - exists [], []. split; [reflexivity|].
    split; [apply newCashiers_events|]. split; constructor.
Qed.

Lemma main_cashier_origin env blocks fuel (cfg : Configuration.t DbConfig) c :
  In (EvNewTokenCashier c) (fst (main env blocks fuel cfg)) ->
  exists cfg1 sel cc,
    envOverrides env cfg = Pass cfg1
    /\ selectSignHandler cfg1 = Pass sel
    /\ In cc (Configuration.Cashiers cfg)
    /\ cashierFor (patchRelayerURLs cfg1) (snd sel) (patched cfg1 cc) = Pass c.
Proof.
  rewrite main_unfold.
  destruct (envOverrides env cfg) as [cfg1|r] eqn:Henv; [|intros []].
  destruct (selectSignHandler cfg1) as [sel|r] eqn:Hsel; [|intros []].
  cbv zeta. rewrite finish_fst.
  destruct (startup_events (patchRelayerURLs cfg1) sel blocks fuel)
    as (evs1 & evs2 & evs3 & -> & H1 & H2 & H3).
  intros Hin. apply in_app_or in Hin as [Hin | Hin].
  - rewrite List.Forall_forall in H1.
    destruct (H1 _ Hin) as (c' & cc' & [= <-] & Hcc & Hbuild).
    rewrite patchRelayerURLs_cashiers in Hcc.
    apply in_map_iff in Hcc as (cc & <- & Hcc).
    exists cfg1, sel, cc. repeat split; auto.
    now destruct (envOverrides_fields _ _ _ Henv) as (_ & _ & _ & <- & _).
  - apply in_app_or in Hin as [Hin | Hin].
    + rewrite List.Forall_forall in H2.
      destruct (H2 _ Hin) as [? | (? & ?)]; discriminate.
    + rewrite List.Forall_forall in H3. now specialize (H3 _ Hin).
Qed.

Lemma main_service_origin env blocks fuel (cfg : Configuration.t DbConfig) args :
  In (EvNewService args) (fst (main env blocks fuel cfg)) ->
  exists cfg1 sel,
    envOverrides env cfg = Pass cfg1
    /\ selectSignHandler cfg1 = Pass sel
    /\ signHandler args = fst sel
    /\ disableSubmit args = Configuration.DisableTransferSubmit cfg.
Proof.
  rewrite main_unfold.
  destruct (envOverrides env cfg) as [cfg1|r] eqn:Henv; [|intros []].
  destruct (selectSignHandler cfg1) as [sel|r] eqn:Hsel; [|intros []].
  cbv zeta. rewrite finish_fst.
  destruct (startup_events (patchRelayerURLs cfg1) sel blocks fuel)
    as (evs1 & evs2 & evs3 & -> & H1 & H2 & H3).
  intros Hin. apply in_app_or in Hin as [Hin | Hin].
  - rewrite List.Forall_forall in H1.
    destruct (H1 _ Hin) as (c' & cc' & ? & _); discriminate.
  - apply in_app_or in Hin as [Hin | Hin].
    + rewrite List.Forall_forall in H2.
      destruct (H2 _ Hin) as [? | (cs & [= ->])]; [discriminate|].
      exists cfg1, sel. do 3 (split; [assumption || reflexivity|]).
      cbn [disableSubmit].
      destruct (patchRelayerURLs_fields cfg1) as (_ & _ & Hd & _). rewrite Hd.
      now destruct (envOverrides_fields _ _ _ Henv) as (_ & _ & _ & _ & _ & -> & _).
    + rewrite List.Forall_forall in H3. now specialize (H3 _ Hin).
Qed.

End RunFacts.

(** ** What a cashier is constructed with *)

Section CashierFacts.
Import Witness.
Context `{Runtime}.

Lemma orFatal_bind_pass {A B : Type} (m : orFatal A) (k : A -> orFatal B) (b : B) :
  (m ≫= k) = Pass b -> exists a, m = Pass a /\ k a = Pass b.
Proof. destruct m as [a|r]; cbn; [eauto|discriminate]. Qed.

Lemma iotexCashier_inv (cfg : Configuration.t DbConfig) dec client cc c :
  iotexCashier cfg dec client cc = Pass c ->
  exists addr vbytes pairs dr,
    iotexDecimalRound (CashierEntry.DecimalRound cc) ∅ = Pass dr
    /\ c = NewTokenCashier (CashierEntry.ID cc) (CashierEntry.RelayerURL cc)
             client addr vbytes
             (NewRecorder (NewStore (Configuration.Database cfg))
                (CashierEntry.TransferTableName cc) pairs dr dec)
             (uint64 (CashierEntry.StartBlockHeight cc)) dec.
Proof.
  unfold iotexCashier. intros Hc.
  apply orFatal_bind_pass in Hc as (addr & _ & Hc).
  apply orFatal_bind_pass in Hc as (pairs & _ & Hc).
  apply orFatal_bind_pass in Hc as (dr & Hdr & Hc).
  apply orFatal_bind_pass in Hc as (v & _ & [= <-]).
  now exists addr, (UtilAddress_Bytes v), pairs, dr.
Qed.

Lemma ethereumCashier_inv (cfg : Configuration.t DbConfig) dec client cc c :
  ethereumCashier cfg dec client cc = Pass c ->
  exists validator pairs,
    c = NewTokenCashierOnEthereum (CashierEntry.ID cc) (CashierEntry.RelayerURL cc)
          client
          (HexToAddress (CashierEntry.CashierContractAddress cc))
          (HexToAddress (CashierEntry.TokenSafeContractAddress cc))
          validator
          (NewRecorder (NewStore (Configuration.Database cfg))
             (CashierEntry.TransferTableName cc) pairs ∅ dec)
          (uint64 (CashierEntry.StartBlockHeight cc))
          (uint8 (Configuration.ConfirmBlockNumber cfg))
          (reverseRecorder cfg dec cc)
          (HexToAddress
             (ReverseEntry.CashierContractAddress (CashierEntry.Reverse cc))).
Proof.
  unfold ethereumCashier. intros Hc.
  apply orFatal_bind_pass in Hc as (addr & _ & Hc).
  apply orFatal_bind_pass in Hc as (pairs & _ & [= <-]).
  now exists (BytesToAddress (IoAddress_Bytes addr)), pairs.
Qed.

Lemma solanaCashier_inv (cfg : Configuration.t DbConfig) dec client cc c :
  solanaCashier cfg dec client cc = Pass c ->
  exists validator pairs,
    c = NewTokenCashierOnSolana (CashierEntry.ID cc) (CashierEntry.RelayerURL cc)
          client
          (PublicKeyFromString (CashierEntry.CashierContractAddress cc))
          validator
          (NewSOLRecorder (NewStore (Configuration.Database cfg))
             (CashierEntry.TransferTableName cc) pairs
             (solanaDecimalRound (CashierEntry.DecimalRound cc)) dec)
          (uint64 (CashierEntry.StartBlockHeight cc))
          (CashierEntry.QPSLimit cc)
          (CashierEntry.DisablePull cc).
Proof.
  unfold solanaCashier. intros Hc.
  apply orFatal_bind_pass in Hc as (addr & _ & Hc).
  apply orFatal_bind_pass in Hc as (pairs & _ & [= <-]).
  now exists (BytesToAddress (IoAddress_Bytes addr)), pairs.
Qed.

Lemma ethereumFamily_not_iotex (chain : string) :
  isEthereumFamily chain = true -> String.eqb chain "iotex" = false.
Proof.
  unfold isEthereumFamily. intros Hf.
  repeat (apply orb_prop in Hf as [Hf | Hf]);
    apply String.eqb_eq in Hf; now subst.
Qed.

(** The constructor a cashier is made with follows [cfg.Chain]. *)
Lemma cashierFor_ethereum (cfg : Configuration.t DbConfig) dec cc c :
  isEthereumFamily (Configuration.Chain cfg) = true ->
  cashierFor cfg dec cc = Pass c ->
  ethereumCashier cfg dec (Dial (Configuration.ClientURL cfg)) cc = Pass c.
Proof.
  intros Hf. unfold cashierFor.
  now rewrite (ethereumFamily_not_iotex _ Hf), Hf.
Qed.

Lemma cashierFor_other (cfg : Configuration.t DbConfig) dec cc c :
  isEthereumFamily (Configuration.Chain cfg) = false ->
  cashierFor cfg dec cc = Pass c ->
  iotexCashier cfg dec (NewReadOnlyClient (Configuration.ClientURL cfg)) cc = Pass c
  \/ solanaCashier cfg dec (NewClient (Configuration.ClientURL cfg)) cc = Pass c.
Proof.
  intros Hf. unfold cashierFor. rewrite Hf.
  destruct (String.eqb _ "iotex"); [now left|].
  destruct (String.eqb _ "solana"); [now right|discriminate].
Qed.

End CashierFacts.

(** ** Startup: the signing key *)

Section KeyFacts.
Import Witness.
Context `{Runtime}.

Lemma selectSignHandler_no_key (cfg : Configuration.t DbConfig) :
  Configuration.PrivateKey cfg = "" ->
  selectSignHandler cfg
  = Pass (None,
          if String.eqb (Configuration.DestinationChain cfg) "solana"
          then NewSOLAddressDecoder else NewETHAddressDecoder).
Proof.
  intros Hk. unfold selectSignHandler. rewrite Hk. cbn.
  now destruct (String.eqb _ "solana").
Qed.

Lemma key_not_empty (key : string) : key <> "" -> String.eqb key "" = false.
Proof. intros Hk. now apply String.eqb_neq. Qed.

Lemma selectSignHandler_solana (cfg : Configuration.t DbConfig) sel :
  String.eqb (Configuration.DestinationChain cfg) "solana" = true ->
  Configuration.PrivateKey cfg <> "" ->
  selectSignHandler cfg = Pass sel ->
  exists privateKeyBytes,
    hex.DecodeString (Configuration.PrivateKey cfg) = Some privateKeyBytes
    /\ Z.of_nat (List.length privateKeyBytes) = ed25519.PrivateKeySize
    /\ sel = (Some (NewEd25519SignHandler privateKeyBytes), NewSOLAddressDecoder).
Proof.
  intros Hs Hk. unfold selectSignHandler. rewrite Hs, (key_not_empty _ Hk). cbn.
  destruct (hex.DecodeString _) as [bs|]; cbn; [|discriminate].
  destruct (Z.eqb_spec (Z.of_nat (List.length bs)) ed25519.PrivateKeySize);
    cbn; [|discriminate].
  intros [= <-]. now exists bs.
Qed.

Lemma selectSignHandler_other (cfg : Configuration.t DbConfig) sel :
  String.eqb (Configuration.DestinationChain cfg) "solana" = false ->
  Configuration.PrivateKey cfg <> "" ->
  selectSignHandler cfg = Pass sel ->
  exists privateKey,
    crypto.HexToECDSA (Configuration.PrivateKey cfg) = Some privateKey
    /\ sel = (Some (NewSecp256k1SignHandler privateKey), NewETHAddressDecoder).
Proof.
  intros Hs Hk. unfold selectSignHandler. rewrite Hs, (key_not_empty _ Hk). cbn.
  destruct (crypto.HexToECDSA _) as [d|]; cbn; [|discriminate].
  intros [= <-]. now exists d.
Qed.

(** A key that does not decode, or decodes to the wrong length on the
    Solana path, is fatal in the switch. *)
Lemma selectSignHandler_malformed (cfg : Configuration.t DbConfig) :
  Configuration.PrivateKey cfg <> "" ->
  (if String.eqb (Configuration.DestinationChain cfg) "solana"
   then match hex.DecodeString (Configuration.PrivateKey cfg) with
        | None => True
        | Some bs => Z.of_nat (List.length bs) <> ed25519.PrivateKeySize
        end
   else hex.DecodeString (Configuration.PrivateKey cfg) = None) ->
  exists r, selectSignHandler cfg = Fatalf r.
Proof.
  intros Hk. unfold selectSignHandler, crypto.HexToECDSA.
  rewrite (key_not_empty _ Hk). cbn.
  destruct (String.eqb _ "solana").
  - destruct (hex.DecodeString _) as [bs|]; cbn; [|eauto].
    intros Hlen.
    destruct (Z.eqb_spec (Z.of_nat (List.length bs)) ed25519.PrivateKeySize);
      cbn; [contradiction|eauto].
  - intros ->. cbn. eauto.
Qed.

(** With the service created and started, [startService] has made its
    two calls and hands the started service on. *)
Lemma startService_started (cfg : Configuration.t DbConfig) sh cs service service' :
  let args := {| signHandler := sh;
                 cashiers := cs;
                 batchSize := uint16 (Configuration.BatchSize cfg);
                 processInterval := Configuration.Interval cfg;
                 disableSubmit := Configuration.DisableTransferSubmit cfg |} in
  NewService args = Some service ->
  Service_Start service = Some service' ->
  startService cfg sh cs = ([EvNewService args; EvStart], Goes service').
Proof.
  intros args Hnew Hstart. unfold startService. fold args.
  rewrite Hnew. cbn. rewrite Hstart. reflexivity.
Qed.

(** Whatever its outcome, [startService] begins with the call of
    [witness.NewService]. *)
Lemma startService_first (cfg : Configuration.t DbConfig) sh cs :
  exists rest,
    fst (startService cfg sh cs)
    = EvNewService {| signHandler := sh;
                      cashiers := cs;
                      batchSize := uint16 (Configuration.BatchSize cfg);
                      processInterval := Configuration.Interval cfg;
                      disableSubmit := Configuration.DisableTransferSubmit cfg |}
      :: rest.
Proof.
  unfold startService. cbn.
  destruct (NewService _); cbn; [|eauto].
  destruct (Service_Start _); cbn; eauto.
Qed.

(** C5.  When the private key in force is not empty and malformed (on the
    secp256k1 path: not decodable as hexadecimal; when the destination
    chain is solana: not decodable, or not of the ed25519 private-key
    length), the process ends fatally with nothing done: no cashier has
    been constructed, no service created or started.  When the key is
    empty, startup is not ended at the key: the switch yields no sign
    handler; once the cashiers are built, [witness.NewService] is called
    on them with a nil sign handler, right after the cashier constructors;
    and when the service is created and starts, [Start] follows and the run
    goes on to the blocks, which in continuous mode means serving.  No
    service is ever created with a sign handler on an empty key. *)
Theorem malformed_key_is_fatal env blocks fuel (cfg : Configuration.t DbConfig) :
  let key := effectiveKey env cfg in
  let solana := String.eqb (Configuration.DestinationChain cfg) "solana" in
  (key <> "" ->
   (if solana
    then match hex.DecodeString key with
         | None => True
         | Some bs => Z.of_nat (List.length bs) <> ed25519.PrivateKeySize
         end
    else hex.DecodeString key = None) ->
   exists r, main env blocks fuel cfg = ([], Fatal r))
  /\ (key = "" ->
      (forall args, In (EvNewService args) (fst (main env blocks fuel cfg)) ->
         signHandler args = None)
      /\ forall cfg1, envOverrides env cfg = Pass cfg1 ->
         let cfg2 := patchRelayerURLs cfg1 in
         let decoder := if solana then NewSOLAddressDecoder
                        else NewETHAddressDecoder in
         selectSignHandler cfg1 = Pass (None, decoder)
         /\ forall evs cs, newCashiers cfg2 decoder = (evs, Goes cs) ->
            let args := {| signHandler := None;
                           cashiers := cs;
                           batchSize := uint16 (Configuration.BatchSize cfg2);
                           processInterval := Configuration.Interval cfg2;
                           disableSubmit :=
                             Configuration.DisableTransferSubmit cfg2 |} in
            (exists rest,
               fst (main env blocks fuel cfg) = evs ++ EvNewService args :: rest)
            /\ forall service service',
                 NewService args = Some service ->
                 Service_Start service = Some service' ->
                 main env blocks fuel cfg
                 = (evs ++ [EvNewService args; EvStart]
                        ++ fst (finish (runBlocks cfg2 service' blocks fuel)),
                    snd (finish (runBlocks cfg2 service' blocks fuel)))
                 /\ (blocks = continuously ->
                     main env blocks fuel cfg
                     = (evs ++ [EvNewService args; EvStart;
                                EvStartServer (Configuration.GrpcPort cfg2)
                                              (Configuration.GrpcProxyPort cfg2)],
                        Serving))).
Proof.
  intros key solana. split.
  - intros Hk Hbad. rewrite main_unfold.
    destruct (envOverrides env cfg) as [cfg1|r] eqn:Henv; [|eauto].
    destruct (envOverrides_fields _ _ _ Henv) as (Hkey & _ & Hdest & _).
    destruct (selectSignHandler_malformed cfg1) as (r & ->); [| |eauto].
    + now rewrite Hkey.
    + now rewrite Hkey, Hdest.
  - intros Hk. split.
    + intros args Hin.
      destruct (main_service_origin _ _ _ _ _ Hin)
        as (cfg1 & sel & Henv & Hsel & -> & _).
      destruct (envOverrides_fields _ _ _ Henv) as (Hkey & _).
      rewrite selectSignHandler_no_key in Hsel by now rewrite Hkey.
      now injection Hsel as <-.
    + intros cfg1 Henv cfg2 decoder.
      destruct (envOverrides_fields _ _ _ Henv) as (Hkey & _ & Hdest & _).
      assert (Hsel : selectSignHandler cfg1 = Pass (None, decoder)).
      { rewrite selectSignHandler_no_key by now rewrite Hkey.
        unfold decoder, solana. now rewrite Hdest. }
      split; [exact Hsel|].
      intros evs cs Hnc args.
      assert (Hmain : main env blocks fuel cfg
                      = (evs ++ fst (finish (andThen (startService cfg2 None cs)
                                               (fun service =>
                                                  runBlocks cfg2 service blocks fuel))),
                         snd (finish (andThen (startService cfg2 None cs)
                                        (fun service =>
                                           runBlocks cfg2 service blocks fuel))))).
      { rewrite main_unfold, Henv, Hsel. cbn [fst snd]. fold cfg2.
        rewrite Hnc, andThen_ret_events.
        destruct (andThen (startService cfg2 None cs) _) as [evs' [e|e]];
          reflexivity. }
      split.
      * rewrite Hmain. cbn [fst]. rewrite finish_fst, andThen_fst.
        destruct (startService_first cfg2 None cs) as (rest & ->).
        fold args. cbn [app]. eauto.
      * intros service service' Hnew Hstart.
        assert (Hrun : main env blocks fuel cfg
                       = (evs ++ [EvNewService args; EvStart]
                              ++ fst (finish (runBlocks cfg2 service' blocks fuel)),
                          snd (finish (runBlocks cfg2 service' blocks fuel)))).
        { rewrite Hmain.
          rewrite (startService_started cfg2 None cs service service' Hnew Hstart).
          rewrite andThen_ret_events.
          destruct (runBlocks cfg2 service' blocks fuel) as [evs' [e|e]];
            reflexivity. }
        split; [exact Hrun|].
        intros ->. rewrite Hrun. reflexivity.
Qed.

End KeyFacts.

Lemma malformed_key_is_fatal_witness :
  @Witness.main _ (Sample.runtime []) Sample.noEnv "continuously" 0
    (Sample.config "ethereum" "iotex" "xyz" 20 false [Sample.cashier1])
  = ([], Witness.Fatal Witness.FailedToDecodePrivateKey)
  /\ (let run := @Witness.main _ (Sample.runtime []) Sample.noEnv "continuously" 0
                   (Sample.config "ethereum" "iotex" "" 20 false [Sample.cashier1]) in
      snd run = Witness.Serving
      /\ List.map Witness.signHandler (Witness.servicesOf (fst run)) = [None]
      /\ List.map (fun args => List.length (Witness.cashiers args))
                  (Witness.servicesOf (fst run)) = [1%nat]
      /\ nth_error (fst run) 2 = Some Witness.EvStart
      /\ nth_error (fst run) 3 = Some (Witness.EvStartServer 9080 9081)).
Proof.
  split.
  - destruct (@malformed_key_is_fatal _ (Sample.runtime []) Sample.noEnv
                "continuously" 0%nat
                (Sample.config "ethereum" "iotex" "xyz" 20 false [Sample.cashier1]))
      as [Hbad _].
    destruct Hbad as (r & Hr); [discriminate | reflexivity |].
    rewrite Hr. revert Hr. vm_compute. now intros [= <-].
  - destruct (@malformed_key_is_fatal _ (Sample.runtime []) Sample.noEnv
                "continuously" 0%nat
                (Sample.config "ethereum" "iotex" "" 20 false [Sample.cashier1]))
      as [_ Hempty].
    destruct (Hempty eq_refl) as [_ Hstarts].
    destruct (Hstarts _ eq_refl) as [_ Hbuilt].
    destruct (Hbuilt _ _ eq_refl) as [_ Hruns].
    destruct (Hruns _ _ eq_refl eq_refl) as [_ Hserving].
    cbv zeta. rewrite (Hserving eq_refl). vm_compute. repeat split.
Defined.

(** ** Startup: which signature scheme *)

Section SchemeFacts.
Import Witness.
Context `{Runtime}.


End SchemeFacts.



(** ** Bounded replay *)

Section ReplayFacts.
Import Witness.
Context `{Runtime}.

(** C6.  Whatever the [-blocks] argument: when [ProcessOneBlock] returns
    an error for a height, that call is the last thing the process does
    and the process ends fatally on that height; every call before it had
    succeeded, so no height after the failing one is processed, in this
    range or in a later one. *)
Theorem replay_aborts_on_error env blocks fuel (cfg : Configuration.t DbConfig)
    pre h post :
  fst (main env blocks fuel cfg) = pre ++ EvProcessOneBlock h true :: post ->
  post = []
  /\ snd (main env blocks fuel cfg) = Fatal (FailedToProcessBlock h)
  /\ Forall (fun e => isFailure e = false) pre.
Proof.
  intros Hev.
  destruct (main_errorsAreFinal env blocks fuel cfg)
    as [Hclean | (pre' & h' & Hfst & Hpre & Hsnd)].
  - rewrite Hev in Hclean. apply Forall_app in Hclean as [_ Hbad].
    inversion Hbad; discriminate.
  - rewrite Hev in Hfst. symmetry in Hfst.
    destruct (failure_is_last _ _ _ _ _ Hpre Hfst) as (-> & [= ->] & ->).
    auto.
Qed.

(** *** The loop over one range *)



(** With the largest [uint64] as upper bound the loop condition never
    fails: the loop cannot run to its end. *)
Lemma processBlocks_to_max :
  (forall service h, snd (ProcessOneBlock service h) = false) ->
  forall fuel service height,
    0 <= height <= strconv.maxUint64 ->
    snd (processBlocks fuel service height strconv.maxUint64) = Ends OutOfFuel.
Proof.
  intros Hok. induction fuel as [|fuel IH]; intros service height Hh.
  - reflexivity.
  - cbn -[andThen emit strconv.maxUint64].
    destruct (Z.leb_spec height strconv.maxUint64); [|lia].
    specialize (Hok service height).
    destruct (ProcessOneBlock service height) as [service1 failed].
    cbn in Hok. subst failed.
    rewrite andThen_snd. cbn [emit snd].
    apply IH. unfold uint64, strconv.maxUint64.
    pose proof (Z.mod_pos_bound (height + 1) (2 ^ 64)). lia.
Qed.

End ReplayFacts.

Lemma replay_aborts_on_error_witness :
  snd (@Witness.main _ (Sample.runtime [7]) Sample.noEnv "5-9,3" 100
         (Sample.config "solana" "" "" 20 false []))
  = Witness.Fatal (Witness.FailedToProcessBlock 7)
  /\ Witness.heightsOf
       (fst (@Witness.main _ (Sample.runtime [7]) Sample.noEnv "5-9,3" 100
               (Sample.config "solana" "" "" 20 false [])))
     = [5; 6; 7].
Proof.
  pose (run := @Witness.main _ (Sample.runtime [7]) Sample.noEnv "5-9,3" 100
                 (Sample.config "solana" "" "" 20 false [])).
  destruct (@replay_aborts_on_error _ (Sample.runtime [7]) Sample.noEnv "5-9,3"
              100%nat (Sample.config "solana" "" "" 20 false [])
              (firstn 4 (fst run)) 7 [])
    as (_ & Hexit & _).
  - reflexivity.
  - split; [exact Hexit | reflexivity].
Defined.

(** C10, at the input on which the code leaves the claim.  The height is
    the largest [uint64]; no block fails.  The claim has [ProcessOneBlock]
    invoked once, on that height, and the run complete.  The loop instead
    wraps around to height 0 and goes on from there, and for no amount of
    fuel does the run come to an end. *)
Theorem replay_of_max_height_never_completes :
  (forall fuel,
     snd (@Witness.main _ (Sample.runtime []) Sample.noEnv
            "18446744073709551615" fuel
            (Sample.config "solana" "" "" 20 false []))
     = Witness.OutOfFuel)
  /\ Witness.heightsOf
       (fst (@Witness.main _ (Sample.runtime []) Sample.noEnv
               "18446744073709551615" 3
               (Sample.config "solana" "" "" 20 false [])))
     = [18446744073709551615; 0; 1].
Proof.
  split; [|reflexivity].
  intros fuel. rewrite main_unfold.
  set (cfg := Sample.config "solana" "" "" 20 false []).
  assert (Henv : @Witness.envOverrides Sample.chains Sample.noEnv cfg = Witness.Pass cfg)
    by reflexivity.
  rewrite Henv.
  assert (Hsel : @Witness.selectSignHandler Sample.chains cfg
                 = Witness.Pass (None, Witness.NewETHAddressDecoder))
    by reflexivity.
  rewrite Hsel. cbv zeta.
  rewrite finish_snd, !andThen_snd.
  assert (Hcs : @Witness.newCashiers _ (Sample.runtime []) (@Witness.patchRelayerURLs Sample.chains cfg)
                  Witness.NewETHAddressDecoder = ([], @Witness.Goes (list (@Witness.TokenCashier Sample.chains)) []))
    by reflexivity.
  cbn [fst snd]. rewrite Hcs. cbn [snd].
  assert (Hsv : snd (@Witness.startService _ (Sample.runtime []) (@Witness.patchRelayerURLs Sample.chains cfg) None [])
                = @Witness.Goes (list Z) []) by reflexivity.
  rewrite andThen_snd, Hsv.
  assert (Hrun : forall service,
            snd (@Witness.runBlocks _ (Sample.runtime []) (@Witness.patchRelayerURLs Sample.chains cfg) service
                   "18446744073709551615" fuel)
            = Witness.Ends Witness.OutOfFuel).
  { intros service. unfold Witness.runBlocks.
    assert (Hflag : negb (String.eqb "18446744073709551615" Witness.continuously)
                    = true) by reflexivity.
    rewrite Hflag, andThen_snd.
    assert (Hitems : strings.Split "18446744073709551615"
                     = ["18446744073709551615"%string]) by reflexivity.
    rewrite Hitems. cbn -[Witness.andThen Witness.lift Witness.parseHeights
                          Witness.processBlocks].
    assert (Hparse : Witness.parseHeights "18446744073709551615"
                     = Witness.Pass (strconv.maxUint64, strconv.maxUint64))
      by reflexivity.
    rewrite Hparse. cbn [Witness.lift]. rewrite andThen_ret, andThen_snd.
    cbn [fst snd].
    rewrite (@processBlocks_to_max _ (Sample.runtime []));
      [reflexivity|reflexivity|].
    unfold strconv.maxUint64. lia. }
  now rewrite Hrun.
Qed.

(** ** The cashiers of a run and their configuration entries *)

Section WiringFacts.
Import Witness.
Context `{Runtime}.

(** A cashier constructed in a run on an EVM-family chain is built by
    [ethereumCashier] from an entry of the configuration. *)
Lemma ethereum_cashier_origin env blocks fuel (cfg : Configuration.t DbConfig) c :
  isEthereumFamily (Configuration.Chain cfg) = true ->
  In (EvNewTokenCashier c) (fst (main env blocks fuel cfg)) ->
  exists cfg1 dec cc,
    envOverrides env cfg = Pass cfg1
    /\ In cc (Configuration.Cashiers cfg)
    /\ ethereumCashier (patchRelayerURLs cfg1) dec
         (Dial (Configuration.ClientURL (patchRelayerURLs cfg1)))
         (patched cfg1 cc) = Pass c.
Proof.
  intros Hf Hin.
  destruct (main_cashier_origin _ _ _ _ _ Hin)
    as (cfg1 & sel & cc & Henv & _ & Hcc & Hbuild).
  exists cfg1, (snd sel), cc. split; [assumption|]. split; [assumption|].
  apply cashierFor_ethereum; [|assumption].
  destruct (patchRelayerURLs_fields cfg1) as (-> & _).
  destruct (envOverrides_fields _ _ _ Henv) as (_ & -> & _).
  assumption.
Qed.

Lemma other_cashier_origin env blocks fuel (cfg : Configuration.t DbConfig) c :
  isEthereumFamily (Configuration.Chain cfg) = false ->
  In (EvNewTokenCashier c) (fst (main env blocks fuel cfg)) ->
  exists cfg1 dec cc,
    envOverrides env cfg = Pass cfg1
    /\ In cc (Configuration.Cashiers cfg)
    /\ (iotexCashier (patchRelayerURLs cfg1) dec
          (NewReadOnlyClient (Configuration.ClientURL (patchRelayerURLs cfg1)))
          (patched cfg1 cc) = Pass c
        \/ solanaCashier (patchRelayerURLs cfg1) dec
             (NewClient (Configuration.ClientURL (patchRelayerURLs cfg1)))
             (patched cfg1 cc) = Pass c).
Proof.
  intros Hf Hin.
  destruct (main_cashier_origin _ _ _ _ _ Hin)
    as (cfg1 & sel & cc & Henv & _ & Hcc & Hbuild).
  exists cfg1, (snd sel), cc. split; [assumption|]. split; [assumption|].
  apply cashierFor_other; [|assumption].
  destruct (patchRelayerURLs_fields cfg1) as (-> & _).
  destruct (envOverrides_fields _ _ _ Henv) as (_ & -> & _).
  assumption.
Qed.

(** The depth handed to an EVM-family cashier is the configured number
    converted to [uint8]. *)
Lemma confirm_depth_is_uint8 env blocks fuel (cfg : Configuration.t DbConfig) c :
  isEthereumFamily (Configuration.Chain cfg) = true ->
  In (EvNewTokenCashier c) (fst (main env blocks fuel cfg)) ->
  confirmBlockNumberOf c = Some (uint8 (Configuration.ConfirmBlockNumber cfg)).
Proof.
  intros Hf Hin.
  destruct (ethereum_cashier_origin _ _ _ _ _ Hf Hin)
    as (cfg1 & dec & cc & Henv & _ & Hbuild).
  apply ethereumCashier_inv in Hbuild as (v & pairs & ->). cbn.
  destruct (patchRelayerURLs_fields cfg1) as (_ & -> & _).
  now destruct (envOverrides_fields _ _ _ Henv) as (_ & _ & _ & _ & -> & _).
Qed.

(** C4, amended.  For every configured ConfirmBlockNumber from 0 to 255,
    the confirm-block depth supplied to each EVM-family cashier at
    construction equals the configured value. *)
Theorem confirm_depth_as_configured env blocks fuel
    (cfg : Configuration.t DbConfig) c :
  0 <= Configuration.ConfirmBlockNumber cfg <= 255 ->
  isEthereumFamily (Configuration.Chain cfg) = true ->
  In (EvNewTokenCashier c) (fst (main env blocks fuel cfg)) ->
  confirmBlockNumberOf c = Some (Configuration.ConfirmBlockNumber cfg).
Proof.
  intros Hrange Hf Hin.
  rewrite (confirm_depth_is_uint8 _ _ _ _ _ Hf Hin).
  f_equal. unfold uint8. apply Z.mod_small. lia.
Qed.

(** On an EVM-family chain the forward recorder gets an empty rounding
    map, whatever the entry configures. *)
Lemma ethereum_cashier_no_rounding env blocks fuel (cfg : Configuration.t DbConfig) c :
  isEthereumFamily (Configuration.Chain cfg) = true ->
  In (EvNewTokenCashier c) (fst (main env blocks fuel cfg)) ->
  roundingOf c = [].
Proof.
  intros Hf Hin.
  destruct (ethereum_cashier_origin _ _ _ _ _ Hf Hin)
    as (cfg1 & dec & cc & _ & _ & Hbuild).
  apply ethereumCashier_inv in Hbuild as (v & pairs & ->). cbn.
  now rewrite map_to_list_empty.
Qed.

End WiringFacts.

(** C4 as stated fails: a configured depth of 300 reaches the cashier
    as 44. *)
Lemma confirm_depth_300_is_44 :
  Witness.Configuration.ConfirmBlockNumber
    (Sample.config "ethereum" "" "" 300 false [Sample.cashier1]) = 300
  /\ List.map Witness.confirmBlockNumberOf
       (Witness.cashiersOf
          (fst (@Witness.main _ (Sample.runtime []) Sample.noEnv "continuously" 0
                  (Sample.config "ethereum" "" "" 300 false [Sample.cashier1]))))
     = [Some 44]
  /\ List.map Witness.confirmBlockNumberOf
       (Witness.cashiersOf
          (fst (@Witness.main _ (Sample.runtime []) Sample.noEnv "continuously" 0
                  (Sample.config "ethereum" "" "" 300 false [Sample.cashier1]))))
     <> [Some 300].
Proof. split; [reflexivity|]. split; [reflexivity|]. vm_compute. discriminate. Qed.

Lemma confirm_depth_as_configured_witness :
  List.map Witness.confirmBlockNumberOf
    (Witness.cashiersOf
       (fst (@Witness.main _ (Sample.runtime []) Sample.noEnv "continuously" 0
               (Sample.config "bsc" "" "" 20 false [Sample.cashier1]))))
  = [Some 20].
Proof.
  pose (cfg := Sample.config "bsc" "" "" 20 false [Sample.cashier1]).
  pose (run := @Witness.main _ (Sample.runtime []) Sample.noEnv "continuously" 0 cfg).
  assert (Hev : exists c rest, fst run = Witness.EvNewTokenCashier c :: rest
                               /\ Witness.cashiersOf (fst run) = [c])
    by (do 2 eexists; split; reflexivity).
  destruct Hev as (c & rest & Hev & Hcs).
  fold cfg. fold run. rewrite Hcs. cbn [List.map]. f_equal.
  apply (@confirm_depth_as_configured _ (Sample.runtime []) Sample.noEnv
           "continuously" 0%nat cfg c).
  - cbn. lia.
  - reflexivity.
  - fold run. rewrite Hev. now left.
Defined.

(** C3, at an input on which the code leaves the claim.  The entry
    configures a rounding amount of 2 for its token.  On the iotex and
    solana chains the amount is in the recorder the cashier is constructed
    with; on an EVM-family chain the recorder is constructed with no
    rounding amounts at all. *)
Theorem decimal_round_dropped_on_ethereum :
  List.map Witness.DecimalRoundEntry.Amount
    (Witness.CashierEntry.DecimalRound Sample.cashier1) = [2]
  /\ List.map Witness.roundingOf
       (Witness.cashiersOf
          (fst (@Witness.main _ (Sample.runtime []) Sample.noEnv "continuously" 0
                  (Sample.config "ethereum" "" "" 20 false [Sample.cashier1]))))
     = [[]]
  /\ List.map Witness.roundingOf
       (Witness.cashiersOf
          (fst (@Witness.main _ (Sample.runtime []) Sample.noEnv "continuously" 0
                  (Sample.config "iotex" "" "" 20 false [Sample.cashier1]))))
     = [[2]]
  /\ List.map Witness.roundingOf
       (Witness.cashiersOf
          (fst (@Witness.main _ (Sample.runtime []) Sample.noEnv "continuously" 0
                  (Sample.config "solana" "" "" 20 false [Sample.cashier1]))))
     = [[2]].
Proof. repeat split; vm_compute; reflexivity. Qed.

(** ** The reverse recorder *)

Section ReverseFacts.
Import Witness.
Context `{Runtime}.

Abbreviation addReverse :=
  (fun (pairs : gmap EthAddress UtilAddress) (token : string) =>
     <[HexToAddress token := ETHAddressToAddress (HexToAddress token)]> pairs).

Lemma reverse_fold_keeps (tokens : list string)
    (m : gmap EthAddress UtilAddress) (k : EthAddress) :
  m !! k = Some (ETHAddressToAddress k) ->
  fold_left addReverse tokens m !! k = Some (ETHAddressToAddress k).
Proof.
  revert m. induction tokens as [|t rest IH]; intros m Hm; cbn; [assumption|].
  apply IH. destruct (decide (HexToAddress t = k)) as [<- | Hne].
  - apply lookup_insert_eq.
  - now rewrite lookup_insert_ne.
Qed.

Lemma reverse_fold_token (tokens : list string)
    (m : gmap EthAddress UtilAddress) (token : string) :
  In token tokens ->
  fold_left addReverse tokens m !! HexToAddress token
  = Some (ETHAddressToAddress (HexToAddress token)).
Proof.
  revert m. induction tokens as [|t rest IH]; intros m Hin; [destruct Hin|].
  cbn. destruct Hin as [-> | Hin].
  - apply reverse_fold_keeps, lookup_insert_eq.
  - now apply IH.
Qed.

Lemma reverse_fold_inv (tokens : list string)
    (m : gmap EthAddress UtilAddress) (k : EthAddress) (v : UtilAddress) :
  fold_left addReverse tokens m !! k = Some v ->
  m !! k = Some v
  \/ (v = ETHAddressToAddress k /\ exists token, In token tokens /\ k = HexToAddress token).
Proof.
  revert m. induction tokens as [|t rest IH]; intros m Hk; cbn in Hk; [now left|].
  destruct (IH _ Hk) as [Hm | (-> & token & Hin & ->)].
  - destruct (decide (HexToAddress t = k)) as [<- | Hne].
    + rewrite lookup_insert_eq in Hm. injection Hm as <-.
      right. split; [reflexivity|]. exists t. split; [now left | reflexivity].
    + rewrite lookup_insert_ne in Hm by assumption. now left.
  - right. split; [reflexivity|]. exists token. split; [now right | reflexivity].
Qed.

(** Every reverse token is mapped to itself, and nothing else is in the
    map. *)
Lemma reversePairs_spec (tokens : list string) :
  (forall token, In token tokens ->
     reversePairs tokens !! HexToAddress token
     = Some (ETHAddressToAddress (HexToAddress token)))
  /\ (forall k v, reversePairs tokens !! k = Some v ->
        v = ETHAddressToAddress k
        /\ exists token, In token tokens /\ k = HexToAddress token).
Proof.
  split.
  - intros token Hin. now apply reverse_fold_token.
  - intros k v Hk. apply reverse_fold_inv in Hk as [Hempty | Hk]; [|assumption].
    now rewrite lookup_empty in Hempty.
Qed.

Lemma reverseRecorder_spec (cfg : Configuration.t DbConfig) dec cc :
  let rev := CashierEntry.Reverse cc in
  (ReverseEntry.CashierContractAddress rev <> ""
   /\ ReverseEntry.TransferTableName rev <> "" ->
   reverseRecorder cfg dec cc
   = Some (NewRecorder (NewStore (Configuration.Database cfg))
             (ReverseEntry.TransferTableName rev)
             (reversePairs (ReverseEntry.Tokens rev)) ∅ dec))
  /\ (~ (ReverseEntry.CashierContractAddress rev <> ""
         /\ ReverseEntry.TransferTableName rev <> "") ->
      reverseRecorder cfg dec cc = None).
Proof.
  intros rev. unfold reverseRecorder. fold rev.
  destruct (String.eqb_spec (ReverseEntry.CashierContractAddress rev) "");
    destruct (String.eqb_spec (ReverseEntry.TransferTableName rev) ""); cbn;
    split; intros Hc; try reflexivity; tauto.
Qed.

(** C7, amended.  For a cashier on an EVM-family chain (ethereum, heco,
    bsc, matic, polis) a reverse recorder is constructed if and only if both
    the reverse cashier contract address and the reverse transfer table
    name of its entry are non-empty; when constructed it is given the
    reverse transfer table name as configured and a token map in which
    every reverse token is mapped to itself and nothing else is present.
    A cashier on the iotex or solana chain is constructed without a
    reverse recorder. *)
Theorem reverse_recorder_on_evm env blocks fuel (cfg : Configuration.t DbConfig) c :
  In (EvNewTokenCashier c) (fst (main env blocks fuel cfg)) ->
  if isEthereumFamily (Configuration.Chain cfg) then
    exists cc dec,
      In cc (Configuration.Cashiers cfg)
      /\ idOf c = CashierEntry.ID cc
      /\ tableOf c = CashierEntry.TransferTableName cc
      /\ let rev := CashierEntry.Reverse cc in
         let nonEmpty := ReverseEntry.CashierContractAddress rev <> ""
                         /\ ReverseEntry.TransferTableName rev <> "" in
         ((exists r, reverseRecorderOf c = Some r) <-> nonEmpty)
         /\ (nonEmpty ->
             reverseRecorderOf c
             = Some (NewRecorder (NewStore (Configuration.Database cfg))
                       (ReverseEntry.TransferTableName rev)
                       (reversePairs (ReverseEntry.Tokens rev)) ∅ dec))
         /\ (forall token, In token (ReverseEntry.Tokens rev) ->
               reversePairs (ReverseEntry.Tokens rev) !! HexToAddress token
               = Some (ETHAddressToAddress (HexToAddress token)))
         /\ (forall k v, reversePairs (ReverseEntry.Tokens rev) !! k = Some v ->
               v = ETHAddressToAddress k
               /\ exists token, In token (ReverseEntry.Tokens rev)
                                /\ k = HexToAddress token)
  else reverseRecorderOf c = None.
Proof.
  intros Hin.
  destruct (isEthereumFamily (Configuration.Chain cfg)) eqn:Hf.
  - destruct (ethereum_cashier_origin _ _ _ _ _ Hf Hin)
      as (cfg1 & dec & cc & Henv & Hcc & Hbuild).
    apply ethereumCashier_inv in Hbuild as (v & pairs & ->).
    destruct (patched_fields cfg1 cc) as (Hrev & _ & _ & _ & _ & Htable & Hid).
    exists cc, dec. cbn [idOf tableOf reverseRecorderOf].
    split; [assumption|]. split; [assumption|]. split; [assumption|].
    destruct (reverseRecorder_spec (patchRelayerURLs cfg1) dec (patched cfg1 cc))
      as [Hyes Hno].
    rewrite Hrev in Hyes, Hno.
    destruct (patchRelayerURLs_fields cfg1) as (_ & _ & _ & Hdb & _).
    destruct (envOverrides_fields _ _ _ Henv) as (_ & _ & _ & _ & _ & _ & Hdb1).
    rewrite Hdb, Hdb1 in Hyes.
    cbv zeta. split; [|split; [exact Hyes | apply reversePairs_spec]].
    split.
    + intros (r & Hr).
      destruct (String.eqb_spec
                  (ReverseEntry.CashierContractAddress (CashierEntry.Reverse cc)) "")
        as [He | Hne1];
        [rewrite Hno in Hr by tauto; discriminate|].
      destruct (String.eqb_spec
                  (ReverseEntry.TransferTableName (CashierEntry.Reverse cc)) "")
        as [He | Hne2];
        [rewrite Hno in Hr by tauto; discriminate|].
      now split.
    + intros Hne. rewrite (Hyes Hne). eauto.
  - destruct (other_cashier_origin _ _ _ _ _ Hf Hin)
      as (cfg1 & dec & cc & _ & _ & [Hbuild | Hbuild]).
    + now apply iotexCashier_inv in Hbuild as (? & ? & ? & ? & _ & ->).
    + now apply solanaCashier_inv in Hbuild as (? & ? & ->).
Qed.

End ReverseFacts.

(** C7 as stated fails twice.  On the iotex chain an entry with both
    reverse fields set gets a cashier without a reverse recorder.  On an
    EVM-family chain nothing keeps the reverse table apart from the forward
    one: an entry that names the same table twice gets two recorders on
    that one table. *)
Lemma reverse_recorder_only_on_evm :
  (Witness.ReverseEntry.CashierContractAddress
     (Witness.CashierEntry.Reverse Sample.cashier1) <> ""
   /\ Witness.ReverseEntry.TransferTableName
        (Witness.CashierEntry.Reverse Sample.cashier1) <> ""
   /\ List.map Witness.reverseRecorderOf
        (Witness.cashiersOf
           (fst (@Witness.main _ (Sample.runtime []) Sample.noEnv "continuously" 0
                   (Sample.config "iotex" "" "" 20 false [Sample.cashier1]))))
      = [None])
  /\ List.map (fun c => (Witness.tableOf c,
                         Witness.recorderTable <$> Witness.reverseRecorderOf c))
       (Witness.cashiersOf
          (fst (@Witness.main _ (Sample.runtime []) Sample.noEnv "continuously" 0
                  (Sample.config "ethereum" "" "" 20 false [Sample.cashier2]))))
     = [("transfers2"%string, Some "transfers2"%string)].
Proof. repeat split; try discriminate; vm_compute; reflexivity. Qed.

Lemma reverse_recorder_on_evm_witness :
  List.map (fun c => Witness.recorderTable <$> Witness.reverseRecorderOf c)
    (Witness.cashiersOf
       (fst (@Witness.main _ (Sample.runtime []) Sample.noEnv "continuously" 0
               (Sample.config "ethereum" "" "" 20 false [Sample.cashier1]))))
  = [Some "reverse_transfers"%string].
Proof.
  pose (cfg := Sample.config "ethereum" "" "" 20 false [Sample.cashier1]).
  pose (run := @Witness.main _ (Sample.runtime []) Sample.noEnv "continuously" 0 cfg).
  assert (Hev : exists c rest, fst run = Witness.EvNewTokenCashier c :: rest
                               /\ Witness.cashiersOf (fst run) = [c])
    by (do 2 eexists; split; reflexivity).
  destruct Hev as (c & rest & Hev & Hcs).
  fold cfg. fold run. rewrite Hcs. cbn [List.map]. f_equal.
  pose proof (@reverse_recorder_on_evm _ (Sample.runtime []) Sample.noEnv
                "continuously" 0%nat cfg c) as Hrev.
  cbn [Witness.isEthereumFamily] in Hrev.
  destruct Hrev as (cc & dec & Hcc & _ & _ & _ & Hyes & _).
  { fold run. rewrite Hev. now left. }
  destruct Hcc as [<- | []].
  rewrite Hyes; [reflexivity|].
  split; discriminate.
Defined.

(** ** The knobs *)

Section KnobFacts.
Import Witness.
Context `{Runtime}.

Lemma cashierFor_solana (cfg : Configuration.t DbConfig) dec cc c :
  Configuration.Chain cfg = "solana"%string ->
  cashierFor cfg dec cc = Pass c ->
  solanaCashier cfg dec (NewClient (Configuration.ClientURL cfg)) cc = Pass c.
Proof. intros Hs. unfold cashierFor. now rewrite Hs. Qed.

Lemma cashierFor_not_solana (cfg : Configuration.t DbConfig) dec cc c :
  Configuration.Chain cfg <> "solana"%string ->
  cashierFor cfg dec cc = Pass c ->
  iotexCashier cfg dec (NewReadOnlyClient (Configuration.ClientURL cfg)) cc = Pass c
  \/ ethereumCashier cfg dec (Dial (Configuration.ClientURL cfg)) cc = Pass c.
Proof.
  intros Hs. unfold cashierFor.
  destruct (String.eqb _ "iotex"); [now left|].
  destruct (isEthereumFamily _); [now right|].
  destruct (String.eqb_spec (Configuration.Chain cfg) "solana");
    [contradiction|discriminate].
Qed.

(** Where the knobs of a constructed cashier come from: its own entry,
    the start height through the conversion [uint64]. *)
Lemma knobs_of_entry env blocks fuel (cfg : Configuration.t DbConfig) c :
  In (EvNewTokenCashier c) (fst (main env blocks fuel cfg)) ->
  exists cc,
    In cc (Configuration.Cashiers cfg)
    /\ idOf c = CashierEntry.ID cc
    /\ startBlockHeightOf c = uint64 (CashierEntry.StartBlockHeight cc)
    /\ (Configuration.Chain cfg = "solana"%string ->
        qpsLimitOf c = Some (CashierEntry.QPSLimit cc)
        /\ disablePullOf c = Some (CashierEntry.DisablePull cc))
    /\ (Configuration.Chain cfg <> "solana"%string ->
        qpsLimitOf c = None /\ disablePullOf c = None).
Proof.
  intros Hin.
  destruct (main_cashier_origin _ _ _ _ _ Hin)
    as (cfg1 & sel & cc & Henv & _ & Hcc & Hbuild).
  assert (Hchain : Configuration.Chain (patchRelayerURLs cfg1)
                   = Configuration.Chain cfg).
  { destruct (patchRelayerURLs_fields cfg1) as (-> & _).
    now destruct (envOverrides_fields _ _ _ Henv) as (_ & -> & _). }
  destruct (patched_fields cfg1 cc) as (_ & Hstart & Hqps & Hdp & _ & _ & Hid).
  exists cc. split; [assumption|].
  destruct (String.eqb_spec (Configuration.Chain cfg) "solana") as [Hs | Hs].
  - apply cashierFor_solana in Hbuild; [|congruence].
    apply solanaCashier_inv in Hbuild as (v & pairs & ->).
    cbn [idOf startBlockHeightOf qpsLimitOf disablePullOf].
    rewrite Hid, Hstart, Hqps, Hdp. repeat split; try reflexivity; contradiction.
  - apply cashierFor_not_solana in Hbuild as [Hbuild | Hbuild]; [| |congruence].
    + apply iotexCashier_inv in Hbuild as (a & vb & pairs & dr & _ & ->).
      cbn [idOf startBlockHeightOf qpsLimitOf disablePullOf].
      rewrite Hid, Hstart. repeat split; try reflexivity; contradiction.
    + apply ethereumCashier_inv in Hbuild as (v & pairs & ->).
      cbn [idOf startBlockHeightOf qpsLimitOf disablePullOf].
      rewrite Hid, Hstart. repeat split; try reflexivity; contradiction.
Qed.

(** C8, amended.  StartBlockHeight is a per-cashier setting on every
    chain: each cashier is constructed with the start height of its own
    configuration entry converted to [uint64], which is the entry's value
    whenever that value is not negative (from 0 to the largest [int]).
    QPSLimit and DisablePull are per-cashier settings of the Solana
    cashiers: each is constructed with the values of its own entry;
    cashiers of the other chains are constructed without a QPS limit or a
    disable-pull flag.  DisableTransferSubmit is one setting of the whole
    service: it is handed to [NewService], the same for all cashiers. *)
Theorem knobs_of_cashiers_and_service env blocks fuel
    (cfg : Configuration.t DbConfig) :
  (forall c, In (EvNewTokenCashier c) (fst (main env blocks fuel cfg)) ->
     exists cc,
       In cc (Configuration.Cashiers cfg)
       /\ idOf c = CashierEntry.ID cc
       /\ startBlockHeightOf c = uint64 (CashierEntry.StartBlockHeight cc)
       /\ (0 <= CashierEntry.StartBlockHeight cc <= 9223372036854775807 ->
           startBlockHeightOf c = CashierEntry.StartBlockHeight cc)
       /\ (Configuration.Chain cfg = "solana"%string ->
           qpsLimitOf c = Some (CashierEntry.QPSLimit cc)
           /\ disablePullOf c = Some (CashierEntry.DisablePull cc))
       /\ (Configuration.Chain cfg <> "solana"%string ->
           qpsLimitOf c = None /\ disablePullOf c = None))
  /\ (forall args, In (EvNewService args) (fst (main env blocks fuel cfg)) ->
        disableSubmit args = Configuration.DisableTransferSubmit cfg).
Proof.
  split.
  - intros c Hin.
    destruct (knobs_of_entry _ _ _ _ _ Hin) as (cc & Hcc & Hid & Hstart & Hknobs).
    exists cc. split; [assumption|]. split; [assumption|].
    split; [assumption|]. split; [|assumption].
    intros Hrange. rewrite Hstart. unfold uint64. apply Z.mod_small. lia.
  - intros args Hin.
    now destruct (main_service_origin _ _ _ _ _ Hin) as (_ & _ & _ & _ & _ & ->).
Qed.

End KnobFacts.

(** C8 as stated fails.  Two configurations with the same cashier entries
    and different values of DisableTransferSubmit construct the very same
    cashiers; the value goes to the one service.  On an EVM-family chain
    the QPS limit and the disable-pull flag of an entry reach no cashier.
    And a start height below zero does not reach its cashier as
    configured: -1 arrives as the largest [uint64]. *)
Lemma disable_submit_is_global :
  Witness.cashiersOf
    (fst (@Witness.main _ (Sample.runtime []) Sample.noEnv "continuously" 0
            (Sample.config "solana" "" "" 20 true [Sample.cashier1; Sample.cashier2])))
  = Witness.cashiersOf
      (fst (@Witness.main _ (Sample.runtime []) Sample.noEnv "continuously" 0
              (Sample.config "solana" "" "" 20 false [Sample.cashier1; Sample.cashier2])))
  /\ List.map Witness.disableSubmit
       (Witness.servicesOf
          (fst (@Witness.main _ (Sample.runtime []) Sample.noEnv "continuously" 0
                  (Sample.config "solana" "" "" 20 true
                     [Sample.cashier1; Sample.cashier2]))))
     = [true]
  /\ List.map Witness.disableSubmit
       (Witness.servicesOf
          (fst (@Witness.main _ (Sample.runtime []) Sample.noEnv "continuously" 0
                  (Sample.config "solana" "" "" 20 false
                     [Sample.cashier1; Sample.cashier2]))))
     = [false]
  /\ List.map (fun c => (Witness.qpsLimitOf c, Witness.disablePullOf c))
       (Witness.cashiersOf
          (fst (@Witness.main _ (Sample.runtime []) Sample.noEnv "continuously" 0
                  (Sample.config "ethereum" "" "" 20 false [Sample.cashier1]))))
     = [(None, None)]
  /\ List.map Witness.startBlockHeightOf
       (Witness.cashiersOf
          (fst (@Witness.main _ (Sample.runtime []) Sample.noEnv "continuously" 0
                  (Sample.config "solana" "" "" 20 false [Sample.cashier3]))))
     = [18446744073709551615].
Proof. repeat split; vm_compute; reflexivity. Qed.

Lemma knobs_of_cashiers_and_service_witness :
  List.map (fun c => (Witness.startBlockHeightOf c, Witness.qpsLimitOf c,
                      Witness.disablePullOf c))
    (Witness.cashiersOf
       (fst (@Witness.main _ (Sample.runtime []) Sample.noEnv "continuously" 0
               (Sample.config "solana" "" "" 20 true [Sample.cashier1]))))
  = [(100, Some 5, Some true)].
Proof.
  pose (cfg := Sample.config "solana" "" "" 20 true [Sample.cashier1]).
  pose (run := @Witness.main _ (Sample.runtime []) Sample.noEnv "continuously" 0 cfg).
  assert (Hev : exists c rest, fst run = Witness.EvNewTokenCashier c :: rest
                               /\ Witness.cashiersOf (fst run) = [c])
    by (do 2 eexists; split; reflexivity).
  destruct Hev as (c & rest & Hev & Hcs).
  fold cfg. fold run. rewrite Hcs. cbn [List.map].
  destruct (@knobs_of_cashiers_and_service _ (Sample.runtime []) Sample.noEnv
              "continuously" 0%nat cfg) as [Hknobs _].
  destruct (Hknobs c) as (cc & Hcc & _ & _ & Hstart & Hsol & _).
  { fold run. rewrite Hev. now left. }
  destruct Hcc as [<- | []].
  destruct (Hsol eq_refl) as [Hqps Hdp].
  rewrite Hstart, Hqps, Hdp; [reflexivity|].
  cbn. lia.
Defined.

(** ** Replay ranges below the largest height

    What the [-blocks] argument does when no block fails: a single height
    is processed once, a range in ascending order with both ends included,
    a descending range not at all, and the items of a list from left to
    right; the run then returns. *)

Lemma replay_single_height :
  Witness.heightsOf
    (fst (@Witness.main _ (Sample.runtime []) Sample.noEnv "42" 10
            (Sample.config "solana" "" "" 20 false [])))
  = [42]
  /\ snd (@Witness.main _ (Sample.runtime []) Sample.noEnv "42" 10
            (Sample.config "solana" "" "" 20 false []))
     = Witness.Done.
Proof. split; reflexivity. Qed.

Lemma replay_range_and_list :
  Witness.heightsOf
    (fst (@Witness.main _ (Sample.runtime []) Sample.noEnv "5-8,3,9-7,1-2" 10
            (Sample.config "solana" "" "" 20 false [])))
  = [5; 6; 7; 8; 3; 1; 2]
  /\ snd (@Witness.main _ (Sample.runtime []) Sample.noEnv "5-8,3,9-7,1-2" 10
            (Sample.config "solana" "" "" 20 false []))
     = Witness.Done.
Proof. split; reflexivity. Qed.

Lemma replay_descending_range_is_empty :
  Witness.heightsOf
    (fst (@Witness.main _ (Sample.runtime []) Sample.noEnv "9-7" 10
            (Sample.config "solana" "" "" 20 false [])))
  = []
  /\ snd (@Witness.main _ (Sample.runtime []) Sample.noEnv "9-7" 10
            (Sample.config "solana" "" "" 20 false []))
     = Witness.Done.
Proof. split; reflexivity. Qed.

(** * Further properties of the witness command *)

(** ** The stages of a run *)

Section StageFacts.
Import Witness.
Context `{Runtime}.

Lemma envOverrides_effective env (cfg cfg1 : Configuration.t DbConfig) :
  envOverrides env cfg = Pass cfg1 ->
  Configuration.RelayerURL cfg1 = effectiveRelayerURL env cfg
  /\ Configuration.GrpcPort cfg1 = effectiveGrpcPort env cfg
  /\ Configuration.GrpcProxyPort cfg1 = effectiveGrpcProxyPort env cfg.
Proof.
  unfold envOverrides, effectiveRelayerURL, effectiveGrpcPort,
    effectiveGrpcProxyPort.
  destruct (env "WITNESS_PRIVATE_KEY");
    (destruct (env "WITNESS_GRPC_PORT") as [p|];
     [destruct (strconv.Atoi p); cbn; [|discriminate]|]);
    (destruct (env "WITNESS_GRPC_PROXY_PORT") as [q|];
     [destruct (strconv.Atoi q); cbn; [|discriminate]|]);
    destruct (env "RELAYER_URL"); cbn;
    intros [= <-]; cbn; repeat split.
Qed.

(** A cashier loop that runs to its end has called one constructor per
    entry, in order, none of which failed. *)
Lemma buildCashiers_goes build entries acc evs cs :
  buildCashiers build entries acc = (evs, Goes cs) ->
  exists built,
    cs = acc ++ built
    /\ evs = List.map EvNewTokenCashier built
    /\ Forall2 (fun cc c => build cc = Pass c) entries built
    /\ Forall (fun c => NewTokenCashier_fails c = false) built.
Proof.
  revert acc evs cs. induction entries as [|cc rest IH]; intros acc evs cs; cbn.
  - intros [= <- <-]. exists []. rewrite app_nil_r. repeat split; constructor.
  - destruct (build cc) as [c|r] eqn:Hb; cbn; [|discriminate].
    destruct (NewTokenCashier_fails c) eqn:Hf; cbn; [discriminate|].
    destruct (buildCashiers build rest (acc ++ [c])) as [evs' r] eqn:Hrest.
    intros [= <- ->].
    destruct (IH _ _ _ Hrest) as (built & -> & -> & Hall & Hok).
    exists (c :: built). rewrite <- app_assoc. cbn.
    repeat split; constructor; auto.
Qed.

(** A cashier loop that does not run to its end has ended fatally. *)
Lemma buildCashiers_ends build entries acc evs e :
  buildCashiers build entries acc = (evs, Ends e) -> exists r, e = Fatal r.
Proof.
  revert acc evs. induction entries as [|cc rest IH]; intros acc evs; cbn.
  - discriminate.
  - destruct (build cc) as [c|r] eqn:Hb; cbn; [|intros [= _ <-]; eauto].
    destruct (NewTokenCashier_fails c) eqn:Hf; cbn; [intros [= _ <-]; eauto|].
    destruct (buildCashiers build rest (acc ++ [c])) as [evs' r] eqn:Hrest.
    intros [= _ ->]. eapply IH, Hrest.
Qed.

Lemma isKnownChain_cases (chain : string) :
  isKnownChain chain = false ->
  String.eqb chain "iotex" = false /\ isEthereumFamily chain = false
  /\ String.eqb chain "solana" = false.
Proof.
  unfold isKnownChain. intros Hk.
  apply orb_false_elim in Hk as [Hk Hs].
  apply orb_false_elim in Hk as [Hi He]. auto.
Qed.

Lemma newCashiers_goes (cfg : Configuration.t DbConfig) dec evs cs :
  newCashiers cfg dec = (evs, Goes cs) ->
  isKnownChain (Configuration.Chain cfg) = true
  /\ evs = List.map EvNewTokenCashier cs
  /\ Forall2 (fun cc c => cashierFor cfg dec cc = Pass c)
             (Configuration.Cashiers cfg) cs
  /\ Forall (fun c => NewTokenCashier_fails c = false) cs.
Proof.
  unfold newCashiers, cashierFor, isKnownChain.
  destruct (String.eqb (Configuration.Chain cfg) "iotex").
  { destruct (NewDefaultGRPCConn_fails _); [discriminate|].
    intros Hb. apply buildCashiers_goes in Hb as (built & -> & -> & Hall & Hok).
    auto. }
  destruct (isEthereumFamily (Configuration.Chain cfg)).
  { destruct (ethclient_Dial_fails _); [discriminate|].
    intros Hb. apply buildCashiers_goes in Hb as (built & -> & -> & Hall & Hok).
    auto. }
  destruct (String.eqb (Configuration.Chain cfg) "solana"); [|discriminate].
  intros Hb. apply buildCashiers_goes in Hb as (built & -> & -> & Hall & Hok).
  auto.
Qed.

Lemma newCashiers_ends (cfg : Configuration.t DbConfig) dec evs e :
  newCashiers cfg dec = (evs, Ends e) -> exists r, e = Fatal r.
Proof.
  unfold newCashiers.
  destruct (String.eqb (Configuration.Chain cfg) "iotex").
  { destruct (NewDefaultGRPCConn_fails _); [intros [= _ <-]; eauto|].
    apply buildCashiers_ends. }
  destruct (isEthereumFamily (Configuration.Chain cfg)).
  { destruct (ethclient_Dial_fails _); [intros [= _ <-]; eauto|].
    apply buildCashiers_ends. }
  destruct (String.eqb (Configuration.Chain cfg) "solana").
  { apply buildCashiers_ends. }
  intros [= _ <-]; eauto.
Qed.

(** The three ways [startService] can go. *)
Lemma startService_cases (cfg : Configuration.t DbConfig) sh cs :
  let args := {| signHandler := sh;
                 cashiers := cs;
                 batchSize := uint16 (Configuration.BatchSize cfg);
                 processInterval := Configuration.Interval cfg;
                 disableSubmit := Configuration.DisableTransferSubmit cfg |} in
  startService cfg sh cs
  = ([EvNewService args], Ends (Fatal FailedToCreateWitnessService))
  \/ startService cfg sh cs
     = ([EvNewService args; EvStart], Ends (Fatal FailedToStartWitnessService))
  \/ exists service,
       startService cfg sh cs = ([EvNewService args; EvStart], Goes service).
Proof.
  intros args. unfold startService. fold args. cbn.
  destruct (NewService args); cbn; [|now left].
  destruct (Service_Start _); cbn; [|now right; left].
  right; right. eauto.
Qed.

End StageFacts.

Section ModeFacts.
Import Witness.
Context `{Runtime}.

(** How a run is put together: it ends at the environment or the key with
    nothing done, or in the cashier loop, or at the service, or it reaches
    the blocks. *)
Lemma main_cases env blocks fuel (cfg : Configuration.t DbConfig) :
  (exists r, main env blocks fuel cfg = ([], Fatal r)
             /\ (envOverrides env cfg = Fatalf r
                 \/ exists cfg1, envOverrides env cfg = Pass cfg1
                                 /\ selectSignHandler cfg1 = Fatalf r))
  \/ exists cfg1 sel,
       envOverrides env cfg = Pass cfg1
       /\ selectSignHandler cfg1 = Pass sel
       /\ let cfg2 := patchRelayerURLs cfg1 in
          (exists evs r,
             newCashiers cfg2 (snd sel) = (evs, Ends (Fatal r))
             /\ main env blocks fuel cfg = (evs, Fatal r))
          \/ exists cs,
               newCashiers cfg2 (snd sel)
               = (List.map EvNewTokenCashier cs, Goes cs)
               /\ ((exists evs r,
                      startService cfg2 (fst sel) cs = (evs, Ends (Fatal r))
                      /\ main env blocks fuel cfg
                         = (List.map EvNewTokenCashier cs ++ evs, Fatal r))
                   \/ exists evs service,
                        startService cfg2 (fst sel) cs = (evs, Goes service)
                        /\ main env blocks fuel cfg
                           = (List.map EvNewTokenCashier cs ++ evs
                              ++ fst (runBlocks cfg2 service blocks fuel),
                              match snd (runBlocks cfg2 service blocks fuel) with
                              | Goes e => e
                              | Ends e => e
                              end)).
Proof.
  rewrite main_unfold.
  destruct (envOverrides env cfg) as [cfg1|r] eqn:Henv; [|left; eauto].
  destruct (selectSignHandler cfg1) as [sel|r] eqn:Hsel; [|left; eauto 6].
  right. exists cfg1, sel. split; [reflexivity|]. split; [assumption|].
  cbv zeta. set (cfg2 := patchRelayerURLs cfg1).
  destruct (newCashiers cfg2 (snd sel)) as [evs1 [cs|e]] eqn:Hnc.
  - destruct (newCashiers_goes _ _ _ _ Hnc) as (_ & -> & _).
    right. exists cs. split; [reflexivity|].
    rewrite andThen_ret_events.
    destruct (startService cfg2 (fst sel) cs) as [evs2 [service|e]] eqn:Hss.
    + right. exists evs2, service. split; [reflexivity|].
      cbn [andThen]. destruct (runBlocks cfg2 service blocks fuel) as [evs3 [x|x]];
        cbn; now rewrite app_assoc.
    + left. destruct (startService_cases cfg2 (fst sel) cs) as [Hc | [Hc | (s & Hc)]];
        rewrite Hss in Hc; try discriminate; injection Hc as -> ->; eauto.
  - left. destruct (newCashiers_ends _ _ _ _ Hnc) as (r & ->).
    exists evs1, r. split; reflexivity.
Qed.

End ModeFacts.

(** ** Startup: what is checked, and what the cashiers and the service get *)

Section StartupFacts.
Import Witness.
Context `{Runtime}.

(** X1.  A chain name the switch has no case for ends the process with
    nothing constructed: no cashier, no service.  Unless the environment or
    the key has ended the run before, the fatal error names the chain. *)
Theorem unknown_chain_is_fatal env blocks fuel (cfg : Configuration.t DbConfig) :
  isKnownChain (Configuration.Chain cfg) = false ->
  fst (main env blocks fuel cfg) = []
  /\ exists r,
       snd (main env blocks fuel cfg) = Fatal r
       /\ (forall cfg1 sel,
             envOverrides env cfg = Pass cfg1 ->
             selectSignHandler cfg1 = Pass sel ->
             r = UnknownChainName (Configuration.Chain cfg)).
Proof.
  intros Hk. rewrite main_unfold.
  destruct (envOverrides env cfg) as [cfg1|r] eqn:Henv;
    [|split; [reflexivity|]; exists r; split; [reflexivity | discriminate]].
  destruct (selectSignHandler cfg1) as [sel|r] eqn:Hsel;
    [|split; [reflexivity|]; exists r; split; [reflexivity|];
      intros ? ? [= <-]; congruence].
  cbv zeta.
  assert (Hnc : newCashiers (patchRelayerURLs cfg1) (snd sel)
                = halt (Fatal (UnknownChainName (Configuration.Chain cfg)))).
  { unfold newCashiers.
    destruct (patchRelayerURLs_fields cfg1) as (-> & _).
    destruct (envOverrides_fields _ _ _ Henv) as (_ & -> & _).
    destruct (isKnownChain_cases _ Hk) as (-> & -> & ->). reflexivity. }
  rewrite Hnc, andThen_halt. cbn.
  split; [reflexivity|]. eexists. split; [reflexivity|]. reflexivity.
Qed.

(** X2.  A port given in the environment that [strconv.Atoi] rejects ends
    the process before anything is constructed, whatever the mode: the
    gRPC port first, the proxy port when the gRPC port is absent or
    parses. *)
Theorem invalid_port_is_fatal env blocks fuel (cfg : Configuration.t DbConfig) s :
  (env "WITNESS_GRPC_PORT" = Some s -> strconv.Atoi s = None ->
   main env blocks fuel cfg = ([], Fatal (InvalidGrpcPort s)))
  /\ (env "WITNESS_GRPC_PROXY_PORT" = Some s -> strconv.Atoi s = None ->
      match env "WITNESS_GRPC_PORT" with
      | Some p => strconv.Atoi p <> None
      | None => True
      end ->
      main env blocks fuel cfg = ([], Fatal (InvalidGrpcProxyPort s))).
Proof.
  split.
  - intros Hp Ha. rewrite main_unfold. unfold envOverrides.
    rewrite Hp, Ha. reflexivity.
  - intros Hq Ha Hp. rewrite main_unfold. unfold envOverrides.
    rewrite Hq, Ha.
    destruct (env "WITNESS_GRPC_PORT") as [p|]; [|reflexivity].
    destruct (strconv.Atoi p); [reflexivity | contradiction].
Qed.

Lemma cashierFor_entry (cfg : Configuration.t DbConfig) dec cc c :
  cashierFor cfg dec cc = Pass c ->
  idOf c = CashierEntry.ID cc
  /\ relayerURLOf c = CashierEntry.RelayerURL cc
  /\ tableOf c = CashierEntry.TransferTableName cc.
Proof.
  unfold cashierFor.
  destruct (String.eqb _ "iotex").
  { intros Hb. now apply iotexCashier_inv in Hb as (? & ? & ? & ? & _ & ->). }
  destruct (isEthereumFamily _).
  { intros Hb. now apply ethereumCashier_inv in Hb as (? & ? & ->). }
  destruct (String.eqb _ "solana"); [|discriminate].
  intros Hb. now apply solanaCashier_inv in Hb as (? & ? & ->).
Qed.

(** X3.  The relayer URL a cashier is constructed with: with no global
    relayer URL (from RELAYER_URL in the environment, else from the
    configuration) it is the entry's own; otherwise an entry URL that
    starts with a colon is appended to the global one, an empty entry URL
    is replaced by the global one, and any other entry URL is kept. *)
Theorem relayer_url_of_cashier env blocks fuel (cfg : Configuration.t DbConfig) c :
  In (EvNewTokenCashier c) (fst (main env blocks fuel cfg)) ->
  exists cc,
    In cc (Configuration.Cashiers cfg)
    /\ idOf c = CashierEntry.ID cc
    /\ let global := effectiveRelayerURL env cfg in
       let own := CashierEntry.RelayerURL cc in
       relayerURLOf c
       = if String.eqb global "" then own
         else if String.prefix ":" own then global +:+ own
         else if String.eqb own "" then global
         else own.
Proof.
  intros Hin.
  destruct (main_cashier_origin _ _ _ _ _ Hin)
    as (cfg1 & sel & cc & Henv & _ & Hcc & Hbuild).
  destruct (cashierFor_entry _ _ _ _ Hbuild) as (Hid & Hurl & _).
  destruct (patched_fields cfg1 cc) as (_ & _ & _ & _ & _ & _ & Hid').
  destruct (envOverrides_effective _ _ _ Henv) as (Hglobal & _).
  exists cc. split; [assumption|]. split; [congruence|].
  cbv zeta. rewrite Hurl, <- Hglobal.
  unfold patched, patchRelayerURL, strings.HasPrefix.
  destruct (String.eqb (Configuration.RelayerURL cfg1) ""); cbn; [reflexivity|].
  destruct (String.prefix ":" (CashierEntry.RelayerURL cc)); [reflexivity|].
  destruct (String.eqb (CashierEntry.RelayerURL cc) ""); reflexivity.
Qed.

Lemma cashiersOf_app (evs evs' : list Event) :
  cashiersOf (evs ++ evs') = cashiersOf evs ++ cashiersOf evs'.
Proof. unfold cashiersOf. apply omap_app. Qed.

Lemma cashiersOf_constructed (cs : list TokenCashier) :
  cashiersOf (List.map EvNewTokenCashier cs) = cs.
Proof. induction cs as [|c cs IH]; cbn; [reflexivity|]. now f_equal. Qed.

Lemma cashiersOf_none (evs : list Event) :
  Forall (fun e => forall c, e <> EvNewTokenCashier c) evs -> cashiersOf evs = [].
Proof.
  induction 1 as [|e evs He _ IH]; [reflexivity|].
  destruct e; cbn; try exact IH. now specialize (He c).
Qed.

Lemma startService_no_cashier (cfg : Configuration.t DbConfig) sh cs :
  cashiersOf (fst (startService cfg sh cs)) = [].
Proof.
  apply cashiersOf_none. eapply Forall_impl; [apply startService_events|].
  intros e [-> | ->] c; discriminate.
Qed.

Lemma runBlocks_no_cashier (cfg : Configuration.t DbConfig) service blocks fuel :
  cashiersOf (fst (runBlocks cfg service blocks fuel)) = [].
Proof.
  apply cashiersOf_none. eapply Forall_impl; [apply runBlocks_events|].
  intros e He c ->. discriminate.
Qed.

(** X4.  When [witness.NewService] is called, every cashier constructor of
    the run has returned without error, and the service is handed exactly
    the cashiers constructed, one per configured entry, in the order of the
    configuration.  A failing constructor therefore keeps the service from
    being created. *)
Theorem service_gets_all_cashiers env blocks fuel
    (cfg : Configuration.t DbConfig) args :
  In (EvNewService args) (fst (main env blocks fuel cfg)) ->
  cashiers args = cashiersOf (fst (main env blocks fuel cfg))
  /\ List.map idOf (cashiers args)
     = List.map CashierEntry.ID (Configuration.Cashiers cfg)
  /\ Forall (fun c => NewTokenCashier_fails c = false) (cashiers args).
Proof.
  intros Hin.
  destruct (main_cases env blocks fuel cfg)
    as [(r & Hmain & _) | (cfg1 & sel & Henv & Hsel & Hrest)].
  { rewrite Hmain in Hin. destruct Hin. }
  cbv zeta in Hrest.
  destruct Hrest as [(evs & r & Hnc & Hmain) | (cs & Hnc & Hrest)].
  { rewrite Hmain in Hin. cbn in Hin.
    pose proof (newCashiers_events (patchRelayerURLs cfg1) (snd sel)) as Hev.
    rewrite Hnc in Hev. cbn in Hev. rewrite List.Forall_forall in Hev.
    destruct (Hev _ Hin) as (? & ? & ? & _). discriminate. }
  destruct (newCashiers_goes _ _ _ _ Hnc) as (_ & _ & Hall & Hok).
  assert (Hids : List.map idOf cs
                 = List.map CashierEntry.ID (Configuration.Cashiers cfg)).
  { destruct (envOverrides_fields _ _ _ Henv) as (_ & _ & _ & <- & _).
    rewrite patchRelayerURLs_cashiers in Hall.
    clear - Hall. revert Hall.
    generalize (Configuration.Cashiers cfg1) as entries.
    induction cs as [|c cs IH]; intros [|cc entries] Hall;
      inversion Hall as [|? ? ? ? Hb Hall']; subst; [reflexivity|].
    cbn. f_equal; [|now apply IH].
    destruct (cashierFor_entry _ _ _ _ Hb) as (-> & _).
    now destruct (patched_fields cfg1 cc) as (_ & _ & _ & _ & _ & _ & ->). }
  assert (Hargs : forall evs2 x,
            startService (patchRelayerURLs cfg1) (fst sel) cs = (evs2, x) ->
            In (EvNewService args) evs2 -> cashiers args = cs).
  { intros evs2 x Hss Hin2.
    pose proof (startService_events (patchRelayerURLs cfg1) (fst sel) cs) as Hev.
    rewrite Hss in Hev. cbn in Hev. rewrite List.Forall_forall in Hev.
    destruct (Hev _ Hin2) as [? | [= ->]]; [discriminate | reflexivity]. }
  assert (Hnot : ~ In (EvNewService args) (List.map EvNewTokenCashier cs)).
  { intros Hc. apply in_map_iff in Hc as (? & ? & _). discriminate. }
  destruct Hrest as [(evs2 & r & Hss & Hmain) | (evs2 & service & Hss & Hmain)];
    rewrite Hmain in Hin |- *; cbn [fst] in Hin |- *.
  - apply in_app_or in Hin as [Hin | Hin]; [contradiction|].
    rewrite (Hargs _ _ Hss Hin).
    rewrite cashiersOf_app, cashiersOf_constructed.
    pose proof (startService_no_cashier (patchRelayerURLs cfg1) (fst sel) cs) as Hn.
    rewrite Hss in Hn. cbn [fst] in Hn. rewrite Hn, app_nil_r. auto.
  - apply in_app_or in Hin as [Hin | Hin]; [contradiction|].
    apply in_app_or in Hin as [Hin | Hin].
    + rewrite (Hargs _ _ Hss Hin).
      rewrite !cashiersOf_app, cashiersOf_constructed, runBlocks_no_cashier.
      pose proof (startService_no_cashier (patchRelayerURLs cfg1) (fst sel) cs) as Hn.
      rewrite Hss in Hn. cbn [fst] in Hn. rewrite Hn, !app_nil_r. auto.
    + pose proof (runBlocks_events (patchRelayerURLs cfg1) service blocks fuel) as Hev.
      rewrite List.Forall_forall in Hev. now specialize (Hev _ Hin).
Qed.

End StartupFacts.

(** ** The two modes *)

Section BlocksFacts.
Import Witness.
Context `{Runtime}.

Lemma processBlocks_ends fuel service height end_ e :
  snd (processBlocks fuel service height end_) = Ends e ->
  e = OutOfFuel \/ exists h, e = Fatal (FailedToProcessBlock h).
Proof.
  revert service height.
  induction fuel as [|fuel IH]; intros service height; cbn -[andThen emit].
  - intros [= <-]. now left.
  - destruct (height <=? end_); [|discriminate].
    destruct (ProcessOneBlock service height) as [service' failed].
    rewrite andThen_snd. cbn [emit snd].
    destruct failed; [intros [= <-]; eauto|apply IH].
Qed.

Lemma replay_ends fuel service items e :
  snd (replay fuel service items) = Ends e ->
  e = OutOfFuel \/ exists r, e = Fatal r.
Proof.
  revert service.
  induction items as [|hstr rest IH]; intros service; cbn -[andThen lift].
  - discriminate.
  - rewrite andThen_snd.
    destruct (parseHeights hstr) as [bounds|r]; cbn -[andThen];
      [|intros [= <-]; eauto].
    rewrite andThen_snd.
    destruct (snd (processBlocks _ _ _ _)) as [service'|e'] eqn:Hp.
    + apply IH.
    + intros [= <-]. apply processBlocks_ends in Hp as [-> | (h & ->)]; eauto.
Qed.

Lemma processBlocks_only_blocks fuel service height end_ :
  Forall (fun e => exists h failed, e = EvProcessOneBlock h failed)
         (fst (processBlocks fuel service height end_)).
Proof.
  revert service height.
  induction fuel as [|fuel IH]; intros service height; cbn -[andThen emit].
  - constructor.
  - destruct (height <=? end_); [|constructor].
    destruct (ProcessOneBlock service height) as [service' failed].
    rewrite andThen_fst. cbn. constructor; [eauto|].
    destruct failed; [constructor|apply IH].
Qed.

Lemma replay_only_blocks fuel service items :
  Forall (fun e => exists h failed, e = EvProcessOneBlock h failed)
         (fst (replay fuel service items)).
Proof.
  revert service.
  induction items as [|hstr rest IH]; intros service; cbn -[andThen lift].
  - constructor.
  - rewrite andThen_fst.
    destruct (parseHeights hstr) as [bounds|r]; cbn -[andThen]; [|constructor].
    rewrite andThen_fst. apply Forall_app. split.
    + apply processBlocks_only_blocks.
    + destruct (snd (processBlocks _ _ _ _)); [apply IH|constructor].
Qed.


Lemma runBlocks_replay (cfg : Configuration.t DbConfig) service blocks fuel :
  blocks <> continuously ->
  runBlocks cfg service blocks fuel
  = (fst (replay fuel service (strings.Split blocks))
     ++ match snd (replay fuel service (strings.Split blocks)) with
        | Goes _ => [EvStop]
        | Ends _ => []
        end,
     match snd (replay fuel service (strings.Split blocks)) with
     | Goes _ => Goes Done
     | Ends e => Ends e
     end).
Proof.
  intros Hb. unfold runBlocks.
  destruct (String.eqb_spec blocks continuously) as [|_]; [contradiction|].
  cbn [negb].
  destruct (replay fuel service (strings.Split blocks)) as [evs [s|e]]; cbn.
  - reflexivity.
  - now rewrite app_nil_r.
Qed.



End BlocksFacts.

Section ReplayModeFacts.
Import Witness.
Context `{Runtime}.

(** A run fails during startup, having only constructed cashiers and
    perhaps created and started the service, or it gets to the blocks with
    the service created and started. *)
Lemma main_shape env blocks fuel (cfg : Configuration.t DbConfig) :
  let startup (e : Event) :=
    (exists c, e = EvNewTokenCashier c) \/ (exists a, e = EvNewService a)
    \/ e = EvStart in
  (Forall startup (fst (main env blocks fuel cfg))
   /\ exists r, snd (main env blocks fuel cfg) = Fatal r)
  \/ exists pre cfg2 service,
       Forall startup pre /\ In EvStart pre
       /\ fst (main env blocks fuel cfg)
          = pre ++ fst (runBlocks cfg2 service blocks fuel)
       /\ snd (main env blocks fuel cfg)
          = match snd (runBlocks cfg2 service blocks fuel) with
            | Goes e => e
            | Ends e => e
            end.
Proof.
  intros startup.
  assert (Hcash : forall cs, Forall startup (List.map EvNewTokenCashier cs)).
  { intros cs. apply List.Forall_forall. intros e He.
    apply in_map_iff in He as (c & <- & _). left. eauto. }
  destruct (main_cases env blocks fuel cfg)
    as [(r & -> & _) | (cfg1 & sel & Henv & Hsel & Hrest)].
  { left. split; [constructor | eauto]. }
  cbv zeta in Hrest.
  destruct Hrest as [(evs & r & Hnc & ->) | (cs & Hnc & Hrest)].
  { left. split; [|eauto]. cbn.
    pose proof (newCashiers_events (patchRelayerURLs cfg1) (snd sel)) as Hev.
    rewrite Hnc in Hev. cbn in Hev. eapply Forall_impl; [exact Hev|].
    intros e (c & _ & -> & _). left. eauto. }
  assert (Hserv : forall evs2 x,
            startService (patchRelayerURLs cfg1) (fst sel) cs = (evs2, x) ->
            Forall startup evs2).
  { intros evs2 x Hss.
    pose proof (startService_events (patchRelayerURLs cfg1) (fst sel) cs) as Hev.
    rewrite Hss in Hev. cbn in Hev. eapply Forall_impl; [exact Hev|].
    intros e [-> | ->]; [right; now right | right; left; eauto]. }
  destruct Hrest as [(evs2 & r & Hss & ->) | (evs2 & service & Hss & ->)].
  - left. split; [|eauto]. cbn. apply Forall_app. split; [apply Hcash | eauto].
  - right. exists (List.map EvNewTokenCashier cs ++ evs2),
      (patchRelayerURLs cfg1), service. cbn [fst snd].
    split; [apply Forall_app; split; [apply Hcash | eauto]|].
    split; [|split; [now rewrite app_assoc | reflexivity]].
    apply in_or_app. right.
    destruct (startService_cases (patchRelayerURLs cfg1) (fst sel) cs)
      as [Hc | [Hc | (s & Hc)]]; rewrite Hss in Hc; try discriminate.
    injection Hc as -> _. cbn. auto.
Qed.

(** X6.  In replay mode (a [-blocks] argument other than "continuously")
    the server is never started and [main] never goes on serving; the
    service is stopped exactly when [main] returns: a fatal error, at
    startup or on a block, leaves the service unstopped. *)
Theorem replay_mode env blocks fuel (cfg : Configuration.t DbConfig) :
  blocks <> continuously ->
  let run := main env blocks fuel cfg in
  (forall p q, ~ In (EvStartServer p q) (fst run))
  /\ snd run <> Serving
  /\ (In EvStop (fst run) <-> snd run = Done).
Proof.
  intros Hb. cbv zeta.
  destruct (main_shape env blocks fuel cfg)
    as [(Hev & r & Hr) | (pre & cfg2 & service & Hpre & _ & Hfst & Hsnd)].
  - rewrite Hr. rewrite List.Forall_forall in Hev.
    split; [|split; [discriminate|split; [|discriminate]]].
    + intros p q Hin.
      destruct (Hev _ Hin) as [(? & ?) | [(? & ?) | ?]]; discriminate.
    + intros Hin.
      destruct (Hev _ Hin) as [(? & ?) | [(? & ?) | ?]]; discriminate.
  - rewrite Hfst, Hsnd, (runBlocks_replay _ _ _ _ Hb). cbn [fst snd].
    rewrite List.Forall_forall in Hpre.
    pose proof (replay_only_blocks fuel service (strings.Split blocks)) as Hrep.
    rewrite List.Forall_forall in Hrep.
    assert (Hnot : forall e, (e = EvStop \/ exists p q, e = EvStartServer p q) ->
                             ~ In e pre
                             /\ ~ In e (fst (replay fuel service (strings.Split blocks)))).
    { intros e He. split; intros Hin.
      - destruct (Hpre _ Hin) as [(? & ->) | [(? & ->) | ->]];
          destruct He as [? | (? & ? & ?)]; discriminate.
      - destruct (Hrep _ Hin) as (? & ? & ->);
          destruct He as [? | (? & ? & ?)]; discriminate. }
    destruct (snd (replay fuel service (strings.Split blocks))) as [s|e] eqn:Hs.
    + split; [|split; [discriminate|split; [reflexivity|]]].
      * intros p q Hin. destruct (Hnot (EvStartServer p q)) as [Hn1 Hn2]; [eauto|].
        apply in_app_or in Hin as [Hin | Hin]; [contradiction|].
        apply in_app_or in Hin as [Hin | Hin]; [contradiction|].
        cbn in Hin. intuition discriminate.
      * intros _. apply in_or_app. right. apply in_or_app. right. now left.
    + apply replay_ends in Hs.
      split; [|split; [destruct Hs as [-> | (r & ->)]; discriminate|]].
      * intros p q Hin. destruct (Hnot (EvStartServer p q)) as [Hn1 Hn2]; [eauto|].
        rewrite app_nil_r in Hin.
        apply in_app_or in Hin as [Hin | Hin]; contradiction.
      * rewrite app_nil_r. destruct (Hnot EvStop) as [Hn1 Hn2]; [auto|].
        split.
        -- intros Hin. apply in_app_or in Hin as [Hin | Hin]; contradiction.
        -- destruct Hs as [-> | (r & ->)]; discriminate.
Qed.

Lemma split_after_prefix (l1 l2 pre post : list Event) (x : Event) :
  ~ In x l1 -> l1 ++ l2 = pre ++ x :: post ->
  exists pre', pre = l1 ++ pre'.
Proof.
  revert pre. induction l1 as [|y l1 IH]; intros pre Hn Heq; [eauto|].
  destruct pre as [|z pre]; cbn in Heq.
  - injection Heq as -> _. exfalso. apply Hn. now left.
  - injection Heq as -> Heq.
    destruct (IH pre) as (pre' & ->); [|assumption|eauto].
    intros Hin. apply Hn. now right.
Qed.

(** X7.  [ProcessOneBlock] is only ever invoked on a service that has
    been started: every call comes after the [Start] event of the run. *)
Theorem blocks_only_after_start env blocks fuel (cfg : Configuration.t DbConfig)
    pre h failed post :
  fst (main env blocks fuel cfg) = pre ++ EvProcessOneBlock h failed :: post ->
  In EvStart pre.
Proof.
  intros Hev.
  destruct (main_shape env blocks fuel cfg)
    as [(Hst & _) | (pre0 & cfg2 & service & Hpre & Hstart & Hfst & _)].
  - rewrite Hev in Hst. apply Forall_app in Hst as [_ Hst].
    inversion Hst as [|? ? [(? & ?) | [(? & ?) | ?]] _]; discriminate.
  - rewrite Hfst in Hev.
    assert (Hnot : ~ In (EvProcessOneBlock h failed) pre0).
    { intros Hin. rewrite List.Forall_forall in Hpre.
      destruct (Hpre _ Hin) as [(? & ?) | [(? & ?) | ?]]; discriminate. }
    destruct (split_after_prefix _ _ _ _ _ Hnot Hev) as (pre' & ->).
    apply in_or_app. now left.
Qed.

End ReplayModeFacts.

(** ** Replay: the heights of a [-blocks] argument *)

Section RangeFacts.
Import Witness.
Context `{Runtime}.









End RangeFacts.

(** ** Token pairs and rounding amounts *)

Section MapFacts.
Import Witness.
Context `{Runtime}.

Lemma solanaPairs_from (dec : AddressDecoder) (tps : list TokenPairEntry.t)
    (m0 m : gmap SolPublicKey UtilAddress) :
  solanaPairs dec tps m0 = Pass m ->
  size m = (size m0 + List.length tps)%nat
  /\ (forall k v, m0 !! k = Some v -> m !! k = Some v)
  /\ (forall tp, In tp tps ->
        m0 !! PublicKeyFromString (TokenPairEntry.Token1 tp) = None
        /\ m !! PublicKeyFromString (TokenPairEntry.Token1 tp)
           = DecodeString dec (TokenPairEntry.Token2 tp))
  /\ List.NoDup (List.map (fun tp => PublicKeyFromString (TokenPairEntry.Token1 tp)) tps).
Proof.
  revert m0. induction tps as [|tp rest IH]; intros m0; cbn.
  - intros [= <-]. repeat split; [lia | auto | contradiction | contradiction | constructor].
  - destruct (m0 !! PublicKeyFromString (TokenPairEntry.Token1 tp)) eqn:Hk;
      [discriminate|].
    destruct (DecodeString dec (TokenPairEntry.Token2 tp)) as [v|] eqn:Hv;
      cbn; [|discriminate].
    intros Hrest. destruct (IH _ Hrest) as (Hsize & Hmono & Hin & Hnd).
    assert (Hhere : m !! PublicKeyFromString (TokenPairEntry.Token1 tp) = Some v)
      by apply Hmono, lookup_insert_eq.
    split; [rewrite Hsize, map_size_insert_None by assumption; lia|].
    split.
    { intros k w Hw. apply Hmono. rewrite lookup_insert_ne; [assumption|].
      intros <-. congruence. }
    split.
    { intros tp' [<- | Hin']; [split; [assumption | congruence]|].
      destruct (Hin _ Hin') as [Hnone Hval]. split; [|assumption].
      destruct (decide (PublicKeyFromString (TokenPairEntry.Token1 tp)
                        = PublicKeyFromString (TokenPairEntry.Token1 tp')))
        as [Heq | Hne].
      - rewrite <- Heq, lookup_insert_eq in Hnone. discriminate.
      - now rewrite lookup_insert_ne in Hnone. }
    constructor; [|assumption].
    intros Hdup. apply in_map_iff in Hdup as (tp' & Heq & Hin').
    destruct (Hin _ Hin') as [Hnone _].
    rewrite Heq, lookup_insert_eq in Hnone. discriminate.
Qed.

(** X9.  The token map of a Solana cashier: when the loop over the
    configured pairs does not end fatally, the map has exactly one entry
    per pair, no two pairs have the same token key (a repeated key is
    fatal, never an overwrite), and each token is mapped to the decoded
    destination address of its own pair. *)
Theorem solana_pairs_one_per_entry (dec : AddressDecoder)
    (tps : list TokenPairEntry.t) (m : gmap SolPublicKey UtilAddress) :
  solanaPairs dec tps ∅ = Pass m ->
  size m = List.length tps
  /\ List.NoDup (List.map (fun tp => PublicKeyFromString (TokenPairEntry.Token1 tp)) tps)
  /\ forall tp, In tp tps ->
       exists addr,
         DecodeString dec (TokenPairEntry.Token2 tp) = Some addr
         /\ m !! PublicKeyFromString (TokenPairEntry.Token1 tp) = Some addr.
Proof.
  intros Hm. destruct (solanaPairs_from _ _ _ _ Hm) as (Hsize & _ & Hin & Hnd).
  rewrite map_size_empty in Hsize. split; [assumption|]. split; [assumption|].
  intros tp Htp. destruct (Hin _ Htp) as [_ Hval].
  destruct (DecodeString dec (TokenPairEntry.Token2 tp)) as [addr|] eqn:Hd.
  - eauto.
  - exfalso. clear - Hm Htp Hd. revert Hm. generalize (∅ : gmap SolPublicKey UtilAddress).
    induction tps as [|tp' rest IH]; intros m0; [destruct Htp|]. cbn.
    destruct (m0 !! _); [discriminate|].
    destruct Htp as [-> | Htp].
    + rewrite Hd. discriminate.
    + destruct (DecodeString dec (TokenPairEntry.Token2 tp')); cbn; [|discriminate].
      now apply IH.
Qed.

Lemma ethereumPairs_from (tps : list TokenPairEntry.t)
    (m0 m : gmap EthAddress UtilAddress) :
  ethereumPairs tps m0 = Pass m ->
  size m = (size m0 + List.length tps)%nat
  /\ (forall k v, m0 !! k = Some v -> m !! k = Some v)
  /\ (forall tp, In tp tps ->
        m0 !! HexToAddress (TokenPairEntry.Token1 tp) = None
        /\ exists ioAddr,
             address_FromString (TokenPairEntry.Token2 tp) = Some ioAddr
             /\ m !! HexToAddress (TokenPairEntry.Token1 tp)
                = Some (ETHAddressToAddress (BytesToAddress (IoAddress_Bytes ioAddr))))
  /\ List.NoDup (List.map (fun tp => HexToAddress (TokenPairEntry.Token1 tp)) tps).
Proof.
  revert m0. induction tps as [|tp rest IH]; intros m0; cbn.
  - intros [= <-]. repeat split; [lia | auto | contradiction | contradiction | constructor].
  - destruct (m0 !! HexToAddress (TokenPairEntry.Token1 tp)) eqn:Hk; [discriminate|].
    destruct (address_FromString (TokenPairEntry.Token2 tp)) as [io|] eqn:Hv;
      cbn; [|discriminate].
    intros Hrest. destruct (IH _ Hrest) as (Hsize & Hmono & Hin & Hnd).
    split; [rewrite Hsize, map_size_insert_None by assumption; lia|].
    split.
    { intros k w Hw. apply Hmono. rewrite lookup_insert_ne; [assumption|].
      intros <-. congruence. }
    split.
    { intros tp' [<- | Hin'].
      - split; [assumption|]. exists io. split; [assumption|].
        apply Hmono, lookup_insert_eq.
      - destruct (Hin _ Hin') as [Hnone Hval]. split; [|assumption].
        destruct (decide (HexToAddress (TokenPairEntry.Token1 tp)
                          = HexToAddress (TokenPairEntry.Token1 tp')))
          as [Heq | Hne].
        + rewrite <- Heq, lookup_insert_eq in Hnone. discriminate.
        + now rewrite lookup_insert_ne in Hnone. }
    constructor; [|assumption].
    intros Hdup. apply in_map_iff in Hdup as (tp' & Heq & Hin').
    destruct (Hin _ Hin') as [Hnone _].
    rewrite Heq, lookup_insert_eq in Hnone. discriminate.
Qed.

(** X10.  The token map of an EVM-family cashier: when the loop over the
    configured pairs does not end fatally, the map has exactly one entry
    per pair, no two pairs have the same token address, and each token is
    mapped to the address its own pair gives as iotex address. *)
Theorem ethereum_pairs_one_per_entry (tps : list TokenPairEntry.t)
    (m : gmap EthAddress UtilAddress) :
  ethereumPairs tps ∅ = Pass m ->
  size m = List.length tps
  /\ List.NoDup (List.map (fun tp => HexToAddress (TokenPairEntry.Token1 tp)) tps)
  /\ forall tp, In tp tps ->
       exists ioAddr,
         address_FromString (TokenPairEntry.Token2 tp) = Some ioAddr
         /\ m !! HexToAddress (TokenPairEntry.Token1 tp)
            = Some (ETHAddressToAddress (BytesToAddress (IoAddress_Bytes ioAddr))).
Proof.
  intros Hm. destruct (ethereumPairs_from _ _ _ Hm) as (Hsize & _ & Hin & Hnd).
  rewrite map_size_empty in Hsize. split; [assumption|]. split; [assumption|].
  intros tp Htp. now destruct (Hin _ Htp) as [_ Hval].
Qed.

Lemma iotexPairs_from (dec : AddressDecoder) (tps : list TokenPairEntry.t)
    (m0 m : gmap EthAddress UtilAddress) :
  iotexPairs dec tps m0 = Pass m ->
  size m = (size m0 + List.length tps)%nat
  /\ (forall k v, m0 !! k = Some v -> m !! k = Some v)
  /\ (forall tp, In tp tps ->
        exists ioAddr addr,
          address_FromString (TokenPairEntry.Token1 tp) = Some ioAddr
          /\ DecodeString dec (TokenPairEntry.Token2 tp) = Some addr
          /\ m0 !! BytesToAddress (IoAddress_Bytes ioAddr) = None
          /\ m !! BytesToAddress (IoAddress_Bytes ioAddr) = Some addr).
Proof.
  revert m0. induction tps as [|tp rest IH]; intros m0; cbn.
  - intros [= <-]. repeat split; [lia | auto | contradiction].
  - destruct (address_FromString (TokenPairEntry.Token1 tp)) as [io|] eqn:Hio;
      cbn; [|discriminate].
    destruct (m0 !! BytesToAddress (IoAddress_Bytes io)) eqn:Hk; [discriminate|].
    destruct (DecodeString dec (TokenPairEntry.Token2 tp)) as [v|] eqn:Hv;
      cbn; [|discriminate].
    intros Hrest. destruct (IH _ Hrest) as (Hsize & Hmono & Hin).
    split; [rewrite Hsize, map_size_insert_None by assumption; lia|].
    split.
    { intros k w Hw. apply Hmono. rewrite lookup_insert_ne; [assumption|].
      intros <-. congruence. }
    intros tp' [<- | Hin'].
    + exists io, v. repeat split; try assumption. apply Hmono, lookup_insert_eq.
    + destruct (Hin _ Hin') as (io' & v' & Hio' & Hv' & Hnone & Hval).
      exists io', v'. repeat split; try assumption.
      destruct (decide (BytesToAddress (IoAddress_Bytes io)
                        = BytesToAddress (IoAddress_Bytes io'))) as [Heq | Hne].
      * rewrite <- Heq, lookup_insert_eq in Hnone. discriminate.
      * now rewrite lookup_insert_ne in Hnone.
Qed.

(** X11.  The token map of an iotex cashier: when the loop over the
    configured pairs does not end fatally, every token address has parsed
    and every destination address has decoded, the map has exactly one
    entry per pair, and each token is mapped to the decoded destination
    address of its own pair. *)
Theorem iotex_pairs_one_per_entry (dec : AddressDecoder)
    (tps : list TokenPairEntry.t) (m : gmap EthAddress UtilAddress) :
  iotexPairs dec tps ∅ = Pass m ->
  size m = List.length tps
  /\ forall tp, In tp tps ->
       exists ioAddr addr,
         address_FromString (TokenPairEntry.Token1 tp) = Some ioAddr
         /\ DecodeString dec (TokenPairEntry.Token2 tp) = Some addr
         /\ m !! BytesToAddress (IoAddress_Bytes ioAddr) = Some addr.
Proof.
  intros Hm. destruct (iotexPairs_from _ _ _ _ Hm) as (Hsize & _ & Hin).
  rewrite map_size_empty in Hsize. split; [assumption|].
  intros tp Htp. destruct (Hin _ Htp) as (io & v & ? & ? & _ & ?). eauto.
Qed.

End MapFacts.

Section RoundingFacts.
Import Witness.
Context `{Runtime}.

Abbreviation solKey := (fun r => PublicKeyFromString (DecimalRoundEntry.Token1 r)).

Abbreviation addRounding :=
  (fun (decimalRound : gmap SolPublicKey Z) (r : DecimalRoundEntry.t) =>
     <[PublicKeyFromString (DecimalRoundEntry.Token1 r) :=
         DecimalRoundEntry.Amount r]> decimalRound).

Lemma rounding_fold_other (entries : list DecimalRoundEntry.t)
    (m0 : gmap SolPublicKey Z) (k : SolPublicKey) :
  Forall (fun r => solKey r <> k) entries ->
  fold_left addRounding entries m0 !! k = m0 !! k.
Proof.
  intros Hall. revert m0.
  induction Hall as [|r rest Hne _ IH]; intros m0; cbn; [reflexivity|].
  rewrite IH. now apply lookup_insert_ne.
Qed.

(** X12.  The rounding amounts of a Solana cashier: a token configured
    more than once has the amount of its last entry (an earlier amount is
    overwritten without complaint), and a token that is not configured has
    no amount. *)
Theorem solana_rounding_last_entry_wins (entries : list DecimalRoundEntry.t) :
  (forall pre r post,
     entries = pre ++ r :: post ->
     Forall (fun r' => solKey r' <> solKey r) post ->
     solanaDecimalRound entries !! solKey r = Some (DecimalRoundEntry.Amount r))
  /\ (forall k, Forall (fun r => solKey r <> k) entries ->
        solanaDecimalRound entries !! k = None).
Proof.
  unfold solanaDecimalRound. split.
  - intros pre r post -> Hpost.
    rewrite fold_left_app. cbn.
    rewrite rounding_fold_other by assumption. apply lookup_insert_eq.
  - intros k Hall. rewrite rounding_fold_other by assumption. apply lookup_empty.
Qed.

Lemma iotexDecimalRound_app (pre post : list DecimalRoundEntry.t)
    (m0 : gmap EthAddress Z) :
  iotexDecimalRound (pre ++ post) m0
  = iotexDecimalRound pre m0 ≫= iotexDecimalRound post.
Proof.
  revert m0. induction pre as [|r pre IH]; intros m0; cbn; [reflexivity|].
  destruct (address_FromString (DecimalRoundEntry.Token1 r)); cbn; [|reflexivity].
  apply IH.
Qed.

Lemma iotexDecimalRound_other (entries : list DecimalRoundEntry.t)
    (m0 m : gmap EthAddress Z) (k : EthAddress) :
  Forall (fun r => forall addr,
            address_FromString (DecimalRoundEntry.Token1 r) = Some addr ->
            BytesToAddress (IoAddress_Bytes addr) <> k) entries ->
  iotexDecimalRound entries m0 = Pass m ->
  m !! k = m0 !! k.
Proof.
  intros Hall. revert m0.
  induction Hall as [|r rest Hne _ IH]; intros m0; cbn.
  - now intros [= <-].
  - destruct (address_FromString (DecimalRoundEntry.Token1 r)) as [addr|] eqn:Ha;
      cbn; [|discriminate].
    intros Hrest. rewrite (IH _ Hrest). apply lookup_insert_ne. now apply Hne.
Qed.

(** X13.  The rounding amounts of an iotex cashier: the loop ends fatally
    on the first token address that does not parse; otherwise every token
    address has parsed, a token configured more than once has the amount of
    its last entry, and an address no entry names has no amount. *)
Theorem iotex_rounding_last_entry_wins (entries : list DecimalRoundEntry.t) :
  (forall pre r post,
     entries = pre ++ r :: post ->
     Forall (fun r' => address_FromString (DecimalRoundEntry.Token1 r') <> None) pre ->
     address_FromString (DecimalRoundEntry.Token1 r) = None ->
     iotexDecimalRound entries ∅
     = Fatalf (FailedToParseTokenAddress (DecimalRoundEntry.Token1 r)))
  /\ (forall m,
        iotexDecimalRound entries ∅ = Pass m ->
        Forall (fun r => address_FromString (DecimalRoundEntry.Token1 r) <> None)
               entries
        /\ (forall pre r post addr,
              entries = pre ++ r :: post ->
              address_FromString (DecimalRoundEntry.Token1 r) = Some addr ->
              Forall (fun r' => forall addr',
                        address_FromString (DecimalRoundEntry.Token1 r') = Some addr' ->
                        BytesToAddress (IoAddress_Bytes addr')
                        <> BytesToAddress (IoAddress_Bytes addr)) post ->
              m !! BytesToAddress (IoAddress_Bytes addr)
              = Some (DecimalRoundEntry.Amount r))
        /\ (forall k,
              Forall (fun r => forall addr,
                        address_FromString (DecimalRoundEntry.Token1 r) = Some addr ->
                        BytesToAddress (IoAddress_Bytes addr) <> k) entries ->
              m !! k = None)).
Proof.
  split.
  - intros pre r post -> Hpre Hbad. rewrite iotexDecimalRound_app.
    generalize (∅ : gmap EthAddress Z).
    induction Hpre as [|r' pre Hr' _ IH]; intros m0; cbn.
    + now rewrite Hbad.
    + destruct (address_FromString (DecimalRoundEntry.Token1 r')); cbn;
        [apply IH | contradiction].
  - intros m Hm. split; [|split].
    + revert Hm. generalize (∅ : gmap EthAddress Z).
      induction entries as [|r rest IH]; intros m0; cbn; [constructor|].
      destruct (address_FromString (DecimalRoundEntry.Token1 r)) eqn:Ha; cbn;
        [|discriminate].
      intros Hrest. constructor; [congruence | eapply IH, Hrest].
    + intros pre r post addr -> Ha Hpost.
      rewrite iotexDecimalRound_app in Hm.
      destruct (iotexDecimalRound pre ∅) as [m1|]; cbn in Hm; [|discriminate].
      rewrite Ha in Hm. cbn in Hm.
      rewrite (iotexDecimalRound_other _ _ _ _ Hpost Hm). apply lookup_insert_eq.
    + intros k Hall. rewrite (iotexDecimalRound_other _ _ _ _ Hall Hm).
      apply lookup_empty.
Qed.

End RoundingFacts.

(** ** One key, one scheme *)

Section KeyLengthFacts.
Import Witness.
Context `{Runtime}.

Lemma HexToECDSA_some (key : string) (d : Z) :
  crypto.HexToECDSA key = Some d ->
  exists b,
    hex.DecodeString key = Some b
    /\ Z.of_nat (List.length b) = 32
    /\ d = crypto.be_value b
    /\ 0 < d < crypto.secp256k1N.
Proof.
  unfold crypto.HexToECDSA.
  destruct (hex.DecodeString key) as [b|]; [|discriminate].
  destruct (Z.eqb_spec (8 * Z.of_nat (List.length b)) 256); cbn; [|discriminate].
  destruct (Z.leb_spec crypto.secp256k1N (crypto.be_value b)); [discriminate|].
  destruct (Z.leb_spec (crypto.be_value b) 0); [discriminate|].
  intros [= <-]. exists b. repeat split; lia.
Qed.

(** X14.  No private key serves both schemes.  A key with which startup
    passes for the destination chain "solana" (64 bytes) is a fatal
    decoding error for every other destination chain, and a key with which
    startup passes for another destination chain (32 bytes) is fatal for
    "solana" as a private key of length 32. *)
Theorem key_fits_one_scheme (cfgA cfgB : Configuration.t DbConfig) :
  Configuration.PrivateKey cfgA = Configuration.PrivateKey cfgB ->
  Configuration.PrivateKey cfgA <> "" ->
  Configuration.DestinationChain cfgA = "solana"%string ->
  Configuration.DestinationChain cfgB <> "solana"%string ->
  (forall sel, selectSignHandler cfgA = Pass sel ->
     selectSignHandler cfgB = Fatalf FailedToDecodePrivateKey)
  /\ (forall sel, selectSignHandler cfgB = Pass sel ->
        selectSignHandler cfgA = Fatalf (InvalidPrivateKeyLength 32)).
Proof.
  intros Hkey Hne HA HB.
  assert (HsA : String.eqb (Configuration.DestinationChain cfgA) "solana" = true)
    by now apply String.eqb_eq.
  assert (HsB : String.eqb (Configuration.DestinationChain cfgB) "solana" = false)
    by now apply String.eqb_neq.
  split; intros sel Hsel.
  - destruct (selectSignHandler_solana _ _ HsA Hne Hsel) as (bs & Hd & Hlen & _).
    unfold selectSignHandler, crypto.HexToECDSA.
    rewrite HsB, <- Hkey, (key_not_empty _ Hne), Hd. cbn.
    unfold ed25519.PrivateKeySize in Hlen.
    destruct (Z.eqb_spec (8 * Z.of_nat (List.length bs)) 256); [lia | reflexivity].
  - rewrite Hkey in Hne.
    destruct (selectSignHandler_other _ _ HsB Hne Hsel) as (d & Hd & _).
    apply HexToECDSA_some in Hd as (b & Hb & Hlen & _).
    unfold selectSignHandler.
    rewrite HsA, Hkey, (key_not_empty _ Hne), Hb. cbn. rewrite Hlen.
    reflexivity.
Qed.

End KeyLengthFacts.

(** * The log iterator *)

Section IteratorFacts.
Import AddressList.
Variables Address Log error : Type.
Variable zeroLog : Log.
Variable UnpackLog : string -> Log -> (Address * Address) * option error.

Abbreviation iterator := (AddressListOwnershipTransferredIterator Address Log error).
Abbreviation next := (Next Address Log error zeroLog UnpackLog).
Abbreviation parse := (ParseOwnershipTransferred Address Log error UnpackLog).
Abbreviation loop := (collect Address Log error zeroLog UnpackLog).

Lemma received_true (it it' : iterator) log logs' :
  event it = "OwnershipTransferred"%string -> fail it = None ->
  received Address Log error zeroLog UnpackLog it log logs' = (it', true) ->
  exists ev,
    parse log = inl ev /\ Event it' = Some ev /\ Raw ev = log
    /\ logs it' = logs' /\ fail it' = None /\ event it' = event it
    /\ done it' = done it /\ sub it' = sub it.
Proof.
  intros Hname Hfail. unfold received, ParseOwnershipTransferred. rewrite Hname.
  destruct (UnpackLog "OwnershipTransferred" log) as [fields [e|]];
    [discriminate|].
  intros [= <-]. cbn. eexists. repeat split. assumption.
Qed.

Lemma received_false (it it' : iterator) log logs' :
  received Address Log error zeroLog UnpackLog it log logs' = (it', false) ->
  fail it' <> None.
Proof.
  unfold received.
  destruct (UnpackLog (event it) log) as [fields [e|]]; [|discriminate].
  now intros [= <-].
Qed.

Lemma nextCompleted_true (it it' : iterator) :
  event it = "OwnershipTransferred"%string -> fail it = None ->
  nextCompleted Address Log error zeroLog UnpackLog it = (it', true) ->
  exists log ev,
    recv zeroLog (logs it) = Some (log, logs it')
    /\ parse log = inl ev /\ Event it' = Some ev /\ Raw ev = log
    /\ fail it' = None /\ event it' = event it.
Proof.
  intros Hname Hfail. unfold nextCompleted.
  destruct (recv zeroLog (logs it)) as [[log logs']|]; [|discriminate].
  intros Hr. apply received_true in Hr as (ev & ? & ? & ? & <- & ? & He & _);
    try assumption.
  exists log, ev. repeat split; assumption.
Qed.

(** X15.  What a true from [Next] means: the oldest log that was ready has
    been taken off the channel, it unpacked without error, [it.Event] is
    the event [ParseOwnershipTransferred] gives for it, with the log as its
    [Raw], and [Error] is still nil. *)
Theorem Next_true_delivers (pick : bool) (it it' : iterator) :
  event it = "OwnershipTransferred"%string ->
  next pick it = Some (it', true) ->
  exists log ev,
    recv zeroLog (logs it) = Some (log, logs it')
    /\ parse log = inl ev
    /\ Event it' = Some ev
    /\ Raw ev = log
    /\ Error it' = None
    /\ event it' = event it.
Proof.
  intros Hname. unfold Next, Error.
  destruct (fail it) eqn:Hfail; [discriminate|].
  destruct (done it).
  { intros [= Hn]. now apply nextCompleted_true. }
  assert (Hlogcase : forall log logs',
            recv zeroLog (logs it) = Some (log, logs') ->
            received Address Log error zeroLog UnpackLog it log logs' = (it', true) ->
            exists log0 ev,
              recv zeroLog (logs it) = Some (log0, logs it')
              /\ parse log0 = inl ev /\ Event it' = Some ev /\ Raw ev = log0
              /\ fail it' = None /\ event it' = event it).
  { intros log logs' Hrecv Hr.
    apply received_true in Hr as (ev & ? & ? & ? & <- & ? & ? & _);
      try assumption.
    exists log, ev. now repeat split. }
  assert (Herrcase : forall err sub',
            (let it0 := {| Event := Event it; event := event it; logs := logs it;
                           sub := sub'; done := true; fail := err |} in
             match err with
             | Some _ => (it0, false)
             | None => nextCompleted Address Log error zeroLog UnpackLog it0
             end) = (it', true) ->
            exists log0 ev,
              recv zeroLog (logs it) = Some (log0, logs it')
              /\ parse log0 = inl ev /\ Event it' = Some ev /\ Raw ev = log0
              /\ fail it' = None /\ event it' = event it).
  { intros [e|] sub'; cbv zeta; [discriminate|].
    intros Hn. apply nextCompleted_true in Hn; [exact Hn | exact Hname | reflexivity]. }
  destruct (recv zeroLog (logs it)) as [[log logs']|] eqn:Hlog;
    destruct (recv None (sub it)) as [[err sub']|] eqn:Herr;
    try destruct pick; cbn [fst snd]; try discriminate; intros [= Hn];
    solve [ eapply Hlogcase; [reflexivity | exact Hn]
          | eapply Herrcase; exact Hn ].
Qed.

(** X16.  What a false from [Next] means: either [Error] is not nil
    (the subscription or the unpacking of a log has failed), or the
    subscription has completed and no log is left to deliver. *)
Theorem Next_false_means_failed_or_drained (pick : bool) (it it' : iterator) :
  next pick it = Some (it', false) ->
  Error it' <> None
  \/ (done it' = true /\ recv zeroLog (logs it') = None).
Proof.
  unfold Next, Error.
  destruct (fail it) eqn:Hfail; [intros [= <-]; left; congruence|].
  assert (Hdone : forall it0 : iterator,
            done it0 = true ->
            nextCompleted Address Log error zeroLog UnpackLog it0 = (it', false) ->
            fail it' <> None \/ (done it' = true /\ recv zeroLog (logs it') = None)).
  { intros it0 Hd. unfold nextCompleted.
    destruct (recv zeroLog (logs it0)) as [[log logs']|] eqn:Hr.
    - intros Hf. left. eapply received_false, Hf.
    - intros [= <-]. right. auto. }
  destruct (done it) eqn:Hd.
  { intros [= Hn]. now apply (Hdone it). }
  assert (Herrcase : forall err sub',
            (let it0 := {| Event := Event it; event := event it; logs := logs it;
                           sub := sub'; done := true; fail := err |} in
             match err with
             | Some _ => (it0, false)
             | None => nextCompleted Address Log error zeroLog UnpackLog it0
             end) = (it', false) ->
            fail it' <> None \/ (done it' = true /\ recv zeroLog (logs it') = None)).
  { intros [e|] sub'; cbv zeta.
    - intros [= <-]. left. discriminate.
    - intros Hn. eapply Hdone; [|exact Hn]. reflexivity. }
  destruct (recv zeroLog (logs it)) as [[log logs']|];
    destruct (recv None (sub it)) as [[err sub']|];
    try destruct pick; cbn [fst snd]; try discriminate; intros [= Hn];
    solve [ left; eapply received_false, Hn
          | eapply Herrcase; exact Hn ].
Qed.

(** X17.  [Next] waits exactly when the iterator has not failed, the
    subscription has not completed, and neither a log nor an error is
    ready; a failed or completed iterator never waits. *)
Theorem Next_waits_iff (pick : bool) (it : iterator) :
  next pick it = None
  <-> fail it = None /\ done it = false
      /\ recv zeroLog (logs it) = None /\ recv None (sub it) = None.
Proof.
  unfold Next. split.
  - destruct (fail it); [discriminate|].
    destruct (done it); [discriminate|].
    destruct (recv zeroLog (logs it)); destruct (recv None (sub it));
      try discriminate. auto.
  - intros (-> & -> & -> & ->). reflexivity.
Qed.

Lemma recv_open {A : Type} (zero x : A) (c c' : chan A) :
  closed c = false -> recv zero c = Some (x, c') ->
  ready c = x :: ready c' /\ closed c' = false.
Proof.
  unfold recv. intros Hc. destruct (ready c) as [|y rest].
  - rewrite Hc. discriminate.
  - intros [= -> <-]. cbn. auto.
Qed.

(** X18.  The reader's loop on a log channel that is not closed: the
    events come in the order in which the logs were received, none left out
    between two that are delivered and none twice, and each event is what
    [ParseOwnershipTransferred] gives for its log; this holds whatever the
    [select] picks. *)
Theorem events_follow_logs (picks : list bool) (it : iterator) :
  event it = "OwnershipTransferred"%string ->
  closed (logs it) = false ->
  exists rest,
    ready (logs it) = List.map Raw (fst (fst (loop picks it))) ++ rest
    /\ Forall (fun ev => parse (Raw ev) = inl ev) (fst (fst (loop picks it))).
Proof.
  revert it. induction picks as [|pick picks IH]; intros it Hname Hopen; cbn.
  - exists (ready (logs it)). split; [reflexivity | constructor].
  - destruct (next pick it) as [[it' [|]]|] eqn:Hn; cbn;
      try (exists (ready (logs it)); split; [reflexivity | constructor]).
    destruct (Next_true_delivers _ _ _ Hname Hn)
      as (log & ev & Hrecv & Hparse & Hev & Hraw & _ & Hname').
    destruct (recv_open _ _ _ _ Hopen Hrecv) as [Hready Hopen'].
    destruct (IH it') as (rest & Hrest & Hall); [congruence | assumption|].
    destruct (loop picks it') as [[evs it''] e]. cbn in *.
    rewrite Hev. exists rest. cbn. split.
    + rewrite Hready, Hraw, Hrest. reflexivity.
    + constructor; [congruence | assumption].
Qed.

Lemma received_ok (it : iterator) log logs' ev :
  event it = "OwnershipTransferred"%string ->
  parse log = inl ev ->
  received Address Log error zeroLog UnpackLog it log logs'
  = ({| Event := Some ev; event := event it; logs := logs'; sub := sub it;
        done := done it; fail := fail it |}, true).
Proof.
  intros Hname. unfold received, ParseOwnershipTransferred. rewrite Hname.
  destruct (UnpackLog "OwnershipTransferred" log) as [fields [e|]];
    [discriminate|].
  now intros [= <-].
Qed.

(** X19.  A subscription that ended without error is read to its end: if
    the iterator has not failed, the subscription has completed (or its
    error channel has a nil ready), the logs [ls] are ready on an open
    channel and all of them unpack, then the reader's loop delivers the
    events of exactly these logs in order and [Next] then returns false
    with [Error] nil, whatever the [select] picks. *)
Theorem ended_subscription_is_drained (ls : list Log) :
  forall (picks : list bool) (it : iterator),
    event it = "OwnershipTransferred"%string ->
    fail it = None ->
    logs it = {| ready := ls; closed := false |} ->
    (done it = true \/ exists sub', recv None (sub it) = Some (None, sub')) ->
    Forall (fun log => exists ev, parse log = inl ev) ls ->
    (List.length ls < List.length picks)%nat ->
    exists evs it',
      loop picks it = (evs, it', Stopped)
      /\ Forall2 (fun log ev => parse log = inl ev) ls evs
      /\ List.map Raw evs = ls
      /\ Error it' = None
      /\ done it' = true.
Proof.
  induction ls as [|log ls IH]; intros picks it Hname Hfail Hlogs Hend Hall Hlen.
  - destruct picks as [|pick picks]; [cbn in Hlen; lia|].
    exists []. cbn [collect]. unfold Next, nextCompleted. rewrite Hfail, Hlogs.
    cbn [recv ready closed].
    destruct (done it) eqn:Hd.
    + exists it. repeat split; [constructor | assumption..].
    + destruct Hend as [? | (sub' & ->)]; [discriminate|]. cbn.
      eexists. repeat split. constructor.
  - destruct picks as [|pick picks]; [cbn in Hlen; lia|].
    inversion Hall as [|? ? (ev & Hev) Hall']; subst.
    set (logs' := {| ready := ls; closed := false |}).
    assert (Hstep : forall it0 : iterator,
              event it0 = "OwnershipTransferred"%string -> fail it0 = None ->
              (done it0 = true \/ exists sub', recv None (sub it0) = Some (None, sub')) ->
              exists evs it',
                loop picks {| Event := Some ev; event := event it0; logs := logs';
                              sub := sub it0; done := done it0; fail := fail it0 |}
                = (evs, it', Stopped)
                /\ Forall2 (fun log ev => parse log = inl ev) ls evs
                /\ List.map Raw evs = ls /\ Error it' = None /\ done it' = true).
    { intros it0 Hn0 Hf0 He0. apply IH; cbn; try assumption; try reflexivity.
      cbn in Hlen. lia. }
    assert (Hraw : Raw ev = log).
    { revert Hev. unfold ParseOwnershipTransferred.
      destruct (UnpackLog "OwnershipTransferred" log) as [fields [e|]];
        [discriminate|]. now intros [= <-]. }
    assert (Hfinish : forall it0 : iterator,
              event it0 = "OwnershipTransferred"%string -> fail it0 = None ->
              (done it0 = true \/ exists sub', recv None (sub it0) = Some (None, sub')) ->
              forall r,
                r = received Address Log error zeroLog UnpackLog it0 log logs' ->
                exists evs it',
                  (let '(evs, it'', e) := loop picks (fst r) in
                   (match Event (fst r) with Some ev => ev :: evs | None => evs end,
                    it'', e)) = (evs, it', Stopped)
                  /\ snd r = true
                  /\ Forall2 (fun log ev => parse log = inl ev) (log :: ls) evs
                  /\ List.map Raw evs = log :: ls
                  /\ Error it' = None /\ done it' = true).
    { intros it0 Hn0 Hf0 He0 r ->. rewrite (received_ok _ _ _ _ Hn0 Hev).
      cbn [fst snd Event].
      destruct (Hstep it0 Hn0 Hf0 He0) as (evs & it' & -> & H2 & Hmap & Herr & Hd).
      exists (ev :: evs), it'. repeat split; try assumption.
      - constructor; assumption.
      - cbn. now rewrite Hraw, Hmap. }
    cbn [collect]. unfold Next. rewrite Hfail.
    destruct (done it) eqn:Hd.
    + unfold nextCompleted. rewrite Hlogs. cbn [recv ready closed]. fold logs'.
      destruct (Hfinish it Hname Hfail (or_introl Hd) _ eq_refl)
        as (evs & it' & Hloop & Hres & Hrest).
      destruct (received Address Log error zeroLog UnpackLog it log logs')
        as [it1 b]. cbn [fst snd] in *. subst b.
      exists evs, it'. split; assumption.
    + destruct Hend as [? | (sub' & Hsub)]; [discriminate|].
      rewrite Hlogs, Hsub. cbn [recv ready closed fst snd]. fold logs'.
      destruct pick.
      * destruct (Hfinish it Hname Hfail (or_intror (ex_intro _ sub' Hsub)) _ eq_refl)
          as (evs & it' & Hloop & Hres & Hrest).
        destruct (received Address Log error zeroLog UnpackLog it log logs')
          as [it1 b]. cbn [fst snd] in *. subst b.
        exists evs, it'. split; assumption.
      * unfold nextCompleted. cbn [logs recv ready closed]. fold logs'.
        set (it0 := {| Event := Event it; event := event it;
                       logs := {| ready := log :: ls; closed := false |};
                       sub := sub'; done := true; fail := None |}).
        destruct (Hfinish it0 Hname eq_refl (or_introl eq_refl) _ eq_refl)
          as (evs & it' & Hloop & Hres & Hrest).
        destruct (received Address Log error zeroLog UnpackLog it0 log logs')
          as [it1 b]. cbn [fst snd] in *. subst b.
        exists evs, it'. split; assumption.
Qed.

End IteratorFacts.

(** * The further properties on the sample deployment *)

Lemma unknown_chain_is_fatal_witness :
  @Witness.main _ (Sample.runtime []) Sample.noEnv "continuously" 0
    (Sample.config "cosmos" "" "" 20 false [Sample.cashier1])
  = ([], Witness.Fatal (Witness.UnknownChainName "cosmos")).
Proof.
  destruct (@unknown_chain_is_fatal _ (Sample.runtime []) Sample.noEnv
              "continuously" 0%nat
              (Sample.config "cosmos" "" "" 20 false [Sample.cashier1]) eq_refl)
    as (Hfst & r & Hsnd & Hr).
  rewrite (Hr _ _ eq_refl eq_refl) in Hsnd.
  destruct (@Witness.main _ (Sample.runtime []) Sample.noEnv "continuously" 0
              (Sample.config "cosmos" "" "" 20 false [Sample.cashier1]))
    as [evs e].
  cbn in Hfst, Hsnd. now subst.
Defined.

Lemma invalid_port_is_fatal_witness :
  @Witness.main _ (Sample.runtime []) (Sample.portEnv "80a") "5-6" 10
    (Sample.config "solana" "" "" 20 false [Sample.cashier1])
  = ([], Witness.Fatal (Witness.InvalidGrpcPort "80a")).
Proof.
  apply (proj1 (@invalid_port_is_fatal _ (Sample.runtime []) (Sample.portEnv "80a")
                  "5-6" 10%nat
                  (Sample.config "solana" "" "" 20 false [Sample.cashier1]) "80a"));
    reflexivity.
Defined.

Lemma relayer_url_of_cashier_witness :
  List.map Witness.relayerURLOf
    (Witness.cashiersOf
       (fst (@Witness.main _ (Sample.runtime []) Sample.noEnv "continuously" 0
               (Sample.config "solana" "" "" 20 false [Sample.cashier1]))))
  = ["relayer:9000"%string].
Proof.
  pose (cfg := Sample.config "solana" "" "" 20 false [Sample.cashier1]).
  pose (run := @Witness.main _ (Sample.runtime []) Sample.noEnv "continuously" 0 cfg).
  assert (Hev : exists c rest, fst run = Witness.EvNewTokenCashier c :: rest
                               /\ Witness.cashiersOf (fst run) = [c])
    by (do 2 eexists; split; reflexivity).
  destruct Hev as (c & rest & Hev & Hcs).
  fold cfg. fold run. rewrite Hcs. cbn [List.map]. f_equal.
  destruct (@relayer_url_of_cashier _ (Sample.runtime []) Sample.noEnv
              "continuously" 0%nat cfg c) as (cc & Hcc & _ & Hurl).
  { fold run. rewrite Hev. now left. }
  destruct Hcc as [<- | []]. exact Hurl.
Defined.

Lemma service_gets_all_cashiers_witness :
  List.map Witness.cashiers
    (Witness.servicesOf
       (fst (@Witness.main _ (Sample.runtime []) Sample.noEnv "continuously" 0
               (Sample.config "solana" "" "" 20 false
                  [Sample.cashier1; Sample.cashier2]))))
  = [Witness.cashiersOf
       (fst (@Witness.main _ (Sample.runtime []) Sample.noEnv "continuously" 0
               (Sample.config "solana" "" "" 20 false
                  [Sample.cashier1; Sample.cashier2])))].
Proof.
  pose (cfg := Sample.config "solana" "" "" 20 false
                 [Sample.cashier1; Sample.cashier2]).
  pose (run := @Witness.main _ (Sample.runtime []) Sample.noEnv "continuously" 0 cfg).
  assert (Hev : exists c1 c2 args rest,
            fst run = Witness.EvNewTokenCashier c1 :: Witness.EvNewTokenCashier c2
                      :: Witness.EvNewService args :: rest
            /\ Witness.servicesOf (fst run) = [args])
    by (do 4 eexists; split; reflexivity).
  destruct Hev as (c1 & c2 & args & rest & Hev & Hsv).
  fold cfg. fold run. rewrite Hsv. cbn [List.map]. f_equal.
  apply (@service_gets_all_cashiers _ (Sample.runtime []) Sample.noEnv
           "continuously" 0%nat cfg args).
  fold run. rewrite Hev. right. right. now left.
Defined.


Lemma replay_mode_witness :
  In Witness.EvStop
     (fst (@Witness.main _ (Sample.runtime []) Sample.noEnv "5-6" 10
             (Sample.config "solana" "" "" 20 false [Sample.cashier1]))).
Proof.
  destruct (@replay_mode _ (Sample.runtime []) Sample.noEnv "5-6" 10%nat
              (Sample.config "solana" "" "" 20 false [Sample.cashier1]))
    as (_ & _ & Hstop).
  - discriminate.
  - apply Hstop. reflexivity.
Defined.

Lemma blocks_only_after_start_witness :
  In Witness.EvStart
     (firstn 2 (fst (@Witness.main _ (Sample.runtime []) Sample.noEnv "5" 10
                       (Sample.config "solana" "" "" 20 false [])))).
Proof.
  apply (@blocks_only_after_start _ (Sample.runtime []) Sample.noEnv "5" 10%nat
           (Sample.config "solana" "" "" 20 false [])
           _ 5 false [Witness.EvStop]).
  reflexivity.
Defined.


Lemma solana_pairs_one_per_entry_witness :
  exists m,
    @Witness.solanaPairs Sample.chains Witness.NewSOLAddressDecoder
      [Sample.pairAB; Sample.pairCD] ∅ = Witness.Pass m
    /\ size m = 2%nat.
Proof.
  assert (Hm : exists m,
            @Witness.solanaPairs Sample.chains Witness.NewSOLAddressDecoder
              [Sample.pairAB; Sample.pairCD] ∅ = Witness.Pass m)
    by (eexists; reflexivity).
  destruct Hm as (m & Hm). exists m. split; [exact Hm|].
  exact (proj1 (@solana_pairs_one_per_entry Sample.chains _ _ _ Hm)).
Defined.

Lemma ethereum_pairs_one_per_entry_witness :
  exists m,
    @Witness.ethereumPairs Sample.chains
      [ {| Witness.TokenPairEntry.Token1 := "0xt1";
           Witness.TokenPairEntry.Token2 := "io1tokenB" |} ] ∅ = Witness.Pass m
    /\ size m = 1%nat.
Proof.
  assert (Hm : exists m,
            @Witness.ethereumPairs Sample.chains
              [ {| Witness.TokenPairEntry.Token1 := "0xt1";
                   Witness.TokenPairEntry.Token2 := "io1tokenB" |} ] ∅
            = Witness.Pass m)
    by (eexists; reflexivity).
  destruct Hm as (m & Hm). exists m. split; [exact Hm|].
  exact (proj1 (@ethereum_pairs_one_per_entry Sample.chains _ _ Hm)).
Defined.

Lemma iotex_pairs_one_per_entry_witness :
  exists m,
    @Witness.iotexPairs Sample.chains Witness.NewETHAddressDecoder
      [Sample.pairAB; Sample.pairCD] ∅ = Witness.Pass m
    /\ size m = 2%nat.
Proof.
  assert (Hm : exists m,
            @Witness.iotexPairs Sample.chains Witness.NewETHAddressDecoder
              [Sample.pairAB; Sample.pairCD] ∅ = Witness.Pass m)
    by (eexists; reflexivity).
  destruct Hm as (m & Hm). exists m. split; [exact Hm|].
  exact (proj1 (@iotex_pairs_one_per_entry Sample.chains _ _ _ Hm)).
Defined.

Lemma solana_rounding_last_entry_wins_witness :
  @Witness.solanaDecimalRound Sample.chains [Sample.roundA 2; Sample.roundA 5]
  !! ("io1tokenA"%string : @Witness.SolPublicKey Sample.chains)
  = Some 5.
Proof.
  apply (proj1 (@solana_rounding_last_entry_wins Sample.chains
                  [Sample.roundA 2; Sample.roundA 5])
           [Sample.roundA 2] (Sample.roundA 5) []).
  - reflexivity.
  - constructor.
Defined.

Lemma iotex_rounding_last_entry_wins_witness :
  exists m,
    @Witness.iotexDecimalRound Sample.chains [Sample.roundA 2; Sample.roundA 5] ∅
    = Witness.Pass m
    /\ m !! ("io1tokenA"%string : @Witness.EthAddress Sample.chains) = Some 5.
Proof.
  assert (Hm : exists m,
            @Witness.iotexDecimalRound Sample.chains
              [Sample.roundA 2; Sample.roundA 5] ∅ = Witness.Pass m)
    by (eexists; reflexivity).
  destruct Hm as (m & Hm). exists m. split; [exact Hm|].
  destruct (proj2 (@iotex_rounding_last_entry_wins Sample.chains
                     [Sample.roundA 2; Sample.roundA 5]) m Hm)
    as (_ & Hlast & _).
  apply (Hlast [Sample.roundA 2] (Sample.roundA 5) [] "io1tokenA"%string).
  - reflexivity.
  - reflexivity.
  - constructor.
Defined.

Lemma key_fits_one_scheme_witness :
  @Witness.selectSignHandler Sample.chains
    (Sample.config "iotex" "ethereum" Sample.solanaKey 20 false [])
  = Witness.Fatalf Witness.FailedToDecodePrivateKey.
Proof.
  assert (Hsel : exists sel,
            @Witness.selectSignHandler Sample.chains
              (Sample.config "iotex" "solana" Sample.solanaKey 20 false [])
            = Witness.Pass sel)
    by (eexists; reflexivity).
  destruct Hsel as (sel & Hsel).
  apply (proj1 (@key_fits_one_scheme Sample.chains
                  (Sample.config "iotex" "solana" Sample.solanaKey 20 false [])
                  (Sample.config "iotex" "ethereum" Sample.solanaKey 20 false [])
                  eq_refl ltac:(discriminate) eq_refl ltac:(discriminate)) sel Hsel).
Defined.

Lemma Next_true_delivers_witness :
  exists it' ev,
    AddressList.Next nat nat string 0%nat Sample.unpack false
      (Sample.iterator [2; 4]%nat None) = Some (it', true)
    /\ AddressList.Event it' = Some ev
    /\ AddressList.Raw ev = 2%nat.
Proof.
  assert (Hn : exists it',
            AddressList.Next nat nat string 0%nat Sample.unpack false
              (Sample.iterator [2; 4]%nat None) = Some (it', true))
    by (eexists; reflexivity).
  destruct Hn as (it' & Hn).
  destruct (Next_true_delivers nat nat string 0%nat Sample.unpack false
              (Sample.iterator [2; 4]%nat None) it' eq_refl Hn)
    as (log & ev & Hrecv & _ & Hev & Hraw & _).
  exists it', ev. split; [exact Hn|]. split; [exact Hev|].
  cbn in Hrecv. injection Hrecv as <- _. exact Hraw.
Defined.

Lemma Next_false_means_failed_or_drained_witness :
  exists it',
    AddressList.Next nat nat string 0%nat Sample.unpack true
      (Sample.iterator [] None) = Some (it', false)
    /\ (AddressList.Error it' <> None
        \/ (AddressList.done it' = true
            /\ AddressList.recv 0%nat (AddressList.logs it') = None)).
Proof.
  assert (Hn : exists it',
            AddressList.Next nat nat string 0%nat Sample.unpack true
              (Sample.iterator [] None) = Some (it', false))
    by (eexists; reflexivity).
  destruct Hn as (it' & Hn). exists it'. split; [exact Hn|].
  exact (Next_false_means_failed_or_drained nat nat string 0%nat Sample.unpack
           true _ _ Hn).
Defined.

Lemma Next_waits_iff_witness :
  AddressList.Next nat nat string 0%nat Sample.unpack true (Sample.liveIterator [])
  = None.
Proof.
  apply (proj2 (Next_waits_iff nat nat string 0%nat Sample.unpack true
                  (Sample.liveIterator []))).
  repeat split.
Defined.

Lemma events_follow_logs_witness :
  exists rest,
    [2; 4; 6]%nat
    = List.map AddressList.Raw
        (fst (fst (AddressList.collect nat nat string 0%nat Sample.unpack
                     [true; false; true]
                     (Sample.iterator [2; 4; 6]%nat (Some "boom"%string)))))
      ++ rest.
Proof.
  destruct (events_follow_logs nat nat string 0%nat Sample.unpack
              [true; false; true]
              (Sample.iterator [2; 4; 6]%nat (Some "boom"%string))
              eq_refl eq_refl) as (rest & Hrest & _).
  exists rest. exact Hrest.
Defined.

Lemma ended_subscription_is_drained_witness :
  exists evs it',
    AddressList.collect nat nat string 0%nat Sample.unpack
      [true; false; true; false] (Sample.iterator [2; 4; 6]%nat None)
    = (evs, it', AddressList.Stopped)
    /\ List.map AddressList.Raw evs = [2; 4; 6]%nat
    /\ AddressList.Error it' = None.
Proof.
  destruct (ended_subscription_is_drained nat nat string 0%nat Sample.unpack
              [2; 4; 6]%nat [true; false; true; false]
              (Sample.iterator [2; 4; 6]%nat None))
    as (evs & it' & Hloop & _ & Hraw & Herr & _).
  - reflexivity.
  - reflexivity.
  - reflexivity.
  - right. eexists. reflexivity.
  - repeat constructor; eexists; reflexivity.
  - cbn. lia.
  - exists evs, it'. auto.
Defined.
